(** * fsplayer: a shallow embedding of fsplayer.c (X11 build) and of
      win32/main.cpp (Win32 build), and the properties of the specification
      checked against it.

    Conventions of the embedding.

    - [Window] and [Atom] are X resource identifiers (C [unsigned long]);
      they are integers here and [0] is [None].
    - The X server and the playback engine are external collaborators.  They
      are modelled as explicit stores ([xserver], [vlc]) that the translated
      functions read and write through the same entry points the C code
      calls; every entry point that reports a status in C returns an
      [option] (or leaves the store unchanged) here.
    - A [libvlc_time_t] is a signed 64-bit integer.  The sums and the
      differences of times that the key handlers compute are reduced to
      that range ([add64], [sub64]: the two's complement result the
      compiled program computes), and the end time of a session carries
      the fact that it is such a value.  The [int] quantities (volume,
      track cursor) are mathematical integers: the engine keeps a volume
      between 0 and 100.  The [unsigned int] arithmetic of
      [PositionWindow] is written with its reduction modulo 2^32.
    - An out-of-range array read is undefined in C; the functions that
      perform one return [None] there. *)

From Stdlib Require Import ZArith List String Ascii Bool Lia.
From stdpp Require Import base option list gmap strings.

Local Open Scope Z_scope.

(** ** The X server *)

Module X11.

(** [IsUnmapped], [IsUnviewable], [IsViewable] of X.h. *)
Definition IsUnmapped : Z := 0.
Definition IsUnviewable : Z := 1.
Definition IsViewable : Z := 2.

(** [AnyPropertyType] of Xlib.h. *)
Definition AnyPropertyType : Z := 0.

(** The fields of [XWindowAttributes] the program reads or writes. *)
Record XWindowAttributes := {
  a_x : Z;
  a_y : Z;
  a_width : Z;
  a_height : Z;
  a_border_width : Z;
  a_override_redirect : bool;
  a_map_state : Z
}.

(** One window of the server: its parent, its children in the order
    [XQueryTree] lists them (bottom-most first, that is the stacking order),
    its attributes and its properties (property atom to type atom and
    bytes). *)
Record xwin := {
  w_parent : Z;
  w_children : list Z;
  w_attr : XWindowAttributes;
  w_props : gmap Z (Z * string)
}.

(** A [ClientMessage] as [SetWindowFullscreen] fills it. *)
Record XClientMessage := {
  cm_window : Z;
  cm_message_type : Z;
  cm_format : Z;
  cm_data : list Z
}.

Record xserver := {
  x_root : Z;
  x_wins : gmap Z xwin;
  x_atoms : gmap string Z;
  x_focus : Z;
  x_sent : list (Z * XClientMessage)
}.

Definition set_wins (srv : xserver) (m : gmap Z xwin) : xserver :=
  {| x_root := x_root srv; x_wins := m; x_atoms := x_atoms srv;
     x_focus := x_focus srv; x_sent := x_sent srv |}.

Definition set_attr (r : xwin) (a : XWindowAttributes) : xwin :=
  {| w_parent := w_parent r; w_children := w_children r; w_attr := a;
     w_props := w_props r |}.

Definition set_children (r : xwin) (cs : list Z) : xwin :=
  {| w_parent := w_parent r; w_children := cs; w_attr := w_attr r;
     w_props := w_props r |}.

Definition set_props (r : xwin) (p : gmap Z (Z * string)) : xwin :=
  {| w_parent := w_parent r; w_children := w_children r; w_attr := w_attr r;
     w_props := p |}.

(** Apply [f] to the record of window [w]; a request naming a window the
    server does not have is an error and changes nothing. *)
Definition update_win (srv : xserver) (w : Z) (f : xwin -> xwin) : xserver :=
  match x_wins srv !! w with
  | Some r => set_wins srv (<[w := f r]> (x_wins srv))
  | None => srv
  end.

(** [XInternAtom]: [None] (0) when the server has no such atom. *)
Definition XInternAtom (srv : xserver) (name : string) : Z :=
  match x_atoms srv !! name with
  | Some a => a
  | None => 0
  end.

(** [XQueryTree]: root, parent and children of [w]; [None] is a zero status. *)
Definition XQueryTree (srv : xserver) (w : Z) : option (Z * Z * list Z) :=
  match x_wins srv !! w with
  | Some r => Some (x_root srv, w_parent r, w_children r)
  | None => None
  end.

(** [XGetWindowProperty (dpy, w, property, 0, long_length, False, req_type,
    ...)]: the result is [Some bytes] exactly when the call returns
    [Success] with a non-null buffer.  A property of another type than the
    requested one yields an empty buffer; otherwise at most
    [4 * long_length] bytes are returned. *)
Definition XGetWindowProperty (srv : xserver) (w property long_length
                               req_type : Z) : option string :=
  match x_wins srv !! w with
  | None => None
  | Some r =>
      match w_props r !! property with
      | None => None
      | Some (ty, bytes) =>
          if (req_type =? AnyPropertyType) || (ty =? req_type)
          then Some (String.substring 0 (Z.to_nat (4 * long_length)) bytes)
          else Some EmptyString
      end
  end.

Definition XGetWindowAttributes (srv : xserver) (w : Z)
  : option XWindowAttributes :=
  match x_wins srv !! w with
  | Some r => Some (w_attr r)
  | None => None
  end.

(** [XGetGeometry]: x, y, width, height, border width. *)
Definition XGetGeometry (srv : xserver) (w : Z)
  : option (Z * Z * Z * Z * Z) :=
  match x_wins srv !! w with
  | Some r =>
      let a := w_attr r in
      Some (a_x a, a_y a, a_width a, a_height a, a_border_width a)
  | None => None
  end.

Definition move_attr (x y : Z) (a : XWindowAttributes) : XWindowAttributes :=
  {| a_x := x; a_y := y; a_width := a_width a; a_height := a_height a;
     a_border_width := a_border_width a;
     a_override_redirect := a_override_redirect a;
     a_map_state := a_map_state a |}.

Definition resize_attr (wd ht : Z) (a : XWindowAttributes)
  : XWindowAttributes :=
  {| a_x := a_x a; a_y := a_y a; a_width := wd; a_height := ht;
     a_border_width := a_border_width a;
     a_override_redirect := a_override_redirect a;
     a_map_state := a_map_state a |}.

Definition redirect_attr (b : bool) (a : XWindowAttributes)
  : XWindowAttributes :=
  {| a_x := a_x a; a_y := a_y a; a_width := a_width a;
     a_height := a_height a; a_border_width := a_border_width a;
     a_override_redirect := b; a_map_state := a_map_state a |}.

Definition map_attr (st : Z) (a : XWindowAttributes) : XWindowAttributes :=
  {| a_x := a_x a; a_y := a_y a; a_width := a_width a;
     a_height := a_height a; a_border_width := a_border_width a;
     a_override_redirect := a_override_redirect a; a_map_state := st |}.

Definition XMoveWindow (srv : xserver) (w x y : Z) : xserver :=
  update_win srv w (fun r => set_attr r (move_attr x y (w_attr r))).

Definition XMoveResizeWindow (srv : xserver) (w x y wd ht : Z) : xserver :=
  update_win srv w
    (fun r => set_attr r (resize_attr wd ht (move_attr x y (w_attr r)))).

(** [XChangeWindowAttributes] with the value mask [CWOverrideRedirect]. *)
Definition XChangeWindowAttributes_OverrideRedirect (srv : xserver) (w : Z)
    (b : bool) : xserver :=
  update_win srv w (fun r => set_attr r (redirect_attr b (w_attr r))).

(** [XChangeProperty] in mode [PropModeReplace]. *)
Definition XChangeProperty (srv : xserver) (w property type : Z)
    (data : string) : xserver :=
  update_win srv w
    (fun r => set_props r (<[property := (type, data)]> (w_props r))).

(** [XSendEvent]: the message is delivered to the clients selecting on the
    destination; the model keeps it in [x_sent]. *)
Definition XSendEvent (srv : xserver) (dest : Z) (ev : XClientMessage)
  : xserver :=
  {| x_root := x_root srv; x_wins := x_wins srv; x_atoms := x_atoms srv;
     x_focus := x_focus srv; x_sent := x_sent srv ++ [(dest, ev)] |}.

Definition XUnmapWindow (srv : xserver) (w : Z) : xserver :=
  update_win srv w (fun r => set_attr r (map_attr IsUnmapped (w_attr r))).

(** Put [w] on top of its siblings. *)
Definition raise_among (w : Z) (cs : list Z) : list Z :=
  if existsb (Z.eqb w) cs
  then List.filter (fun c => negb (c =? w)) cs ++ [w]
  else cs.

Definition XRaiseWindow (srv : xserver) (w : Z) : xserver :=
  match x_wins srv !! w with
  | Some r =>
      update_win srv (w_parent r)
        (fun p => set_children p (raise_among w (w_children p)))
  | None => srv
  end.

Definition XMapRaised (srv : xserver) (w : Z) : xserver :=
  XRaiseWindow
    (update_win srv w (fun r => set_attr r (map_attr IsViewable (w_attr r))))
    w.

Definition XSetInputFocus (srv : xserver) (w : Z) : xserver :=
  {| x_root := x_root srv; x_wins := x_wins srv; x_atoms := x_atoms srv;
     x_focus := w; x_sent := x_sent srv |}.

Definition XGetInputFocus (srv : xserver) : Z := x_focus srv.

(** Origin of [w] in root coordinates: the sum, over [w] and its ancestors
    below the root, of the position of the window in its parent plus its
    border width.  [fuel] bounds the walk up the parent links. *)
Fixpoint origin_in_root (fuel : nat) (srv : xserver) (w : Z)
  : option (Z * Z) :=
  if w =? x_root srv then Some (0, 0)
  else
    match fuel with
    | O => None
    | S fuel' =>
        match x_wins srv !! w with
        | None => None
        | Some r =>
            match origin_in_root fuel' srv (w_parent r) with
            | None => None
            | Some (px, py) =>
                let a := w_attr r in
                Some (px + a_x a + a_border_width a,
                      py + a_y a + a_border_width a)
            end
        end
    end.

(** [XTranslateCoordinates (dpy, w, root, 0, 0, &x, &y, &child)]. *)
Definition XTranslateCoordinates (srv : xserver) (w : Z) : option (Z * Z) :=
  origin_in_root (size (x_wins srv)) srv w.

End X11.

Import X11.

(** ** C strings *)

(** The characters of a buffer up to its first NUL: what [strcmp] reads. *)
Fixpoint c_str (s : string) : string :=
  match s with
  | EmptyString => EmptyString
  | String c s' =>
      if Ascii.eqb c Ascii.zero then EmptyString else String c (c_str s')
  end.

(** [!strcmp (a, b)]. *)
Definition strcmp_eq (a b : string) : bool := String.eqb (c_str a) (c_str b).

(** ** FindX11Window *)

(** The two output parameters of [FindX11Window], and the windows whose
    property the search has read so far (a ghost trace, oldest first). *)
Record find_st := {
  pReturn : Z;
  pMaster : Z;
  queried : list Z
}.

Definition set_return (w : Z) (st : find_st) : find_st :=
  {| pReturn := w; pMaster := pMaster st; queried := queried st |}.

Definition set_master (w : Z) (st : find_st) : find_st :=
  {| pReturn := pReturn st; pMaster := w; queried := queried st |}.

Definition log_query (w : Z) (st : find_st) : find_st :=
  {| pReturn := pReturn st; pMaster := pMaster st;
     queried := queried st ++ [w] |}.

(** The test of the first lines of [FindX11Window]: the property was read
    and compares equal to [szValue]. *)
Definition name_matches (srv : xserver) (aName aType : Z) (szValue : string)
    (w : Z) : bool :=
  match XGetWindowProperty srv w aName 4 aType with
  | Some pProperty => strcmp_eq pProperty szValue
  | None => false
  end.


(** The guard on a child in the loop of [FindX11Window]. *)
Definition descend (w wRoot wParent c : Z) : bool :=
  negb (c =? w) && negb (c =? wRoot) && negb (c =? wParent).

(** The [for] loop over [pChildren]; [rec] is the recursive call. *)
Fixpoint scan_children (rec : Z -> find_st -> option (bool * find_st))
    (w wRoot wParent : Z) (pChildren : list Z) (st : find_st)
  : option (bool * find_st) :=
  match pChildren with
  | [] => Some (false, st)
  | c :: rest =>
      if descend w wRoot wParent c then
        let st1 := if w =? wRoot then set_master c st else st in
        match rec c st1 with
        | None => None
        | Some (true, st2) => Some (true, st2)
        | Some (false, st2) => scan_children rec w wRoot wParent rest st2
        end
      else scan_children rec w wRoot wParent rest st
  end.

(** [FindX11Window]; [fuel] bounds the depth of the recursion and [None]
    means it was exhausted. *)
Fixpoint FindX11Window (fuel : nat) (srv : xserver) (w aName aType : Z)
    (szValue : string) (st : find_st) : option (bool * find_st) :=
  match fuel with
  | O => None
  | S fuel' =>
      let st0 := log_query w st in
      if name_matches srv aName aType szValue w
      then Some (true, set_return w st0)
      else
        match XQueryTree srv w with
        | Some (wRoot, wParent, pChildren) =>
            scan_children
              (fun c => FindX11Window fuel' srv c aName aType szValue)
              w wRoot wParent pChildren st0
        | None => Some (false, st0)
        end
  end.

(** ** PositionWindow *)

(** Reduction of an [unsigned int] expression, and the conversion of the
    result to [int] on assignment. *)
Definition u32 (z : Z) : Z := z mod 2 ^ 32.
Definition to_int (z : Z) : Z := if z <? 2 ^ 31 then z else z - 2 ^ 32.

Definition PositionWindow (srv : xserver) (w iKeypadPos scrx scry : Z)
  : xserver :=
  match XGetGeometry srv w with
  | Some (_, _, iWidth, iHeight, _) =>
      if (iWidth <? scrx) && (iHeight <? scry) then
        let x :=
          if (iKeypadPos =? 1) || (iKeypadPos =? 4) || (iKeypadPos =? 7)
          then 0
          else if (iKeypadPos =? 3) || (iKeypadPos =? 6) || (iKeypadPos =? 9)
          then to_int (u32 (scrx - iWidth))
          else to_int (u32 (scrx - iWidth) / 2) in
        let y :=
          if (iKeypadPos =? 7) || (iKeypadPos =? 8) || (iKeypadPos =? 9)
          then 0
          else if (iKeypadPos =? 1) || (iKeypadPos =? 2) || (iKeypadPos =? 3)
          then to_int (u32 (scry - iHeight))
          else to_int (u32 (scry - iHeight) / 2) in
        XMoveWindow srv w x y
      else srv
  | None => srv
  end.

(** ** TaskbarFindAndUnmap and TaskbarRaise *)

Definition find_init : find_st :=
  {| pReturn := 0; pMaster := 0; queried := [] |}.

(** The search for the window named xload, from [wXload = 0] and
    [wMaster = 0]. *)
Definition taskbar_search (fuel : nat) (srv : xserver) (wRoot : Z)
  : option (bool * find_st) :=
  let aName := XInternAtom srv "WM_NAME" in
  let aTypeStr := XInternAtom srv "STRING" in
  if negb (aName =? 0) && negb (aTypeStr =? 0)
  then FindX11Window fuel srv wRoot aName aTypeStr "xload" find_init
  else Some (false, find_init).

(** The result is the server afterwards and [*pTaskbar]. *)
Definition TaskbarFindAndUnmap (fuel : nat) (srv : xserver) (wRoot : Z)
  : option (xserver * Z) :=
  match taskbar_search fuel srv wRoot with
  | None => None
  | Some (_, st) =>
      let wXload := pReturn st in
      let wMaster := pMaster st in
      if negb (wXload =? 0) then
        match XGetWindowAttributes srv wMaster with
        | Some attrib =>
            if a_override_redirect attrib
               && (a_map_state attrib =? IsViewable)
            then Some (XUnmapWindow srv wMaster, wMaster)
            else Some (srv, 0)
        | None => Some (srv, 0)
        end
      else Some (srv, 0)
  end.

Definition TaskbarRaise (srv : xserver) (wTaskbar : Z) : xserver :=
  if negb (wTaskbar =? 0) then XMapRaised srv wTaskbar else srv.

(** ** SetWindowFullscreen *)

(** A 32-bit property item as four bytes, least significant first. *)
Definition card32_bytes (z : Z) : string :=
  String (ascii_of_N (Z.to_N (z mod 256)))
    (String (ascii_of_N (Z.to_N ((z / 256) mod 256)))
       (String (ascii_of_N (Z.to_N ((z / 65536) mod 256)))
          (String (ascii_of_N (Z.to_N ((z / 16777216) mod 256)))
             EmptyString))).

(** [sMotifWmHints]: flags = 2 ([MWM_HINTS_DECORATIONS]), every other field
    zero. *)
Definition sMotifWmHints : string :=
  (card32_bytes 2 ++ card32_bytes 0 ++ card32_bytes 0 ++ card32_bytes 0
   ++ card32_bytes 0)%string.

(** The server once the hint, the move-and-resize and the [_NET_WM_STATE]
    message of [SetWindowFullscreen] have been issued, that is the server
    [XTranslateCoordinates] is then asked about. *)
Definition fullscreen_requests (srv : xserver) (w wRoot scrx scry : Z)
  : xserver :=
  let aMotifWmHints := XInternAtom srv "_MOTIF_WM_HINTS" in
  let srv1 :=
    if negb (aMotifWmHints =? 0)
    then XChangeProperty srv w aMotifWmHints aMotifWmHints sMotifWmHints
    else srv in
  let srv2 := XMoveResizeWindow srv1 w 0 0 scrx scry in
  let aWmState := XInternAtom srv2 "_NET_WM_STATE" in
  let aWmStateFs := XInternAtom srv2 "_NET_WM_STATE_FULLSCREEN" in
  if negb (aWmState =? 0) && negb (aWmStateFs =? 0)
  then XSendEvent srv2 wRoot
         {| cm_window := w; cm_message_type := aWmState; cm_format := 32;
            cm_data := [1; aWmStateFs; 0; 0; 0] |}
  else srv2.

(** The last part of [SetWindowFullscreen], from the test on the translated
    coordinates [x], [y] on. *)
Definition move_decorations_out (srv : xserver) (wMaster x y : Z)
  : xserver :=
  if (0 <? x) || (0 <? y) then
    let '(iOverrideRedirect, srv1) :=
      match XGetWindowAttributes srv wMaster with
      | Some attribGet =>
          (a_override_redirect attribGet,
           if negb (a_override_redirect attribGet)
           then XChangeWindowAttributes_OverrideRedirect srv wMaster true
           else srv)
      | None => (true, srv)
      end in
    let srv2 := XMoveWindow srv1 wMaster (- x) (- y) in
    if negb iOverrideRedirect
    then XChangeWindowAttributes_OverrideRedirect srv2 wMaster false
    else srv2
  else srv.

Definition SetWindowFullscreen (srv : xserver) (w wMaster wRoot scrx scry : Z)
  : xserver :=
  let srv1 := fullscreen_requests srv w wRoot scrx scry in
  let '(x, y) :=
    match XTranslateCoordinates srv1 w with
    | Some xy => xy
    | None => (0, 0)
    end in
  move_decorations_out srv1 wMaster x y.

(** ** Window hierarchies *)

Module Hierarchy.

(** A finite window hierarchy: a window, the children list the server
    reports for it, and the hierarchies of its genuine children.  The
    reported list may hold, besides the genuine children, entries that are
    the window itself, the root, or the window's parent (back-edges). *)
#[local] Unset Elimination Schemes.
Inductive wtree := WNode (id : Z) (listed : list Z) (subs : list wtree).
#[local] Set Elimination Schemes.

Definition tree_id (t : wtree) : Z :=
  match t with WNode w _ _ => w end.

Definition tree_subs (t : wtree) : list wtree :=
  match t with WNode _ _ subs => subs end.

(** The windows of a hierarchy, parents before children, children in the
    order of the list. *)
Fixpoint tree_ids (t : wtree) : list Z :=
  match t with WNode w _ subs => w :: flat_map tree_ids subs end.

Fixpoint depth (t : wtree) : nat :=
  match t with WNode _ _ subs => S (list_max (map depth subs)) end.

(** [represents srv p t]: the server reports, for every window of [t], the
    root of [srv], the parent it has in [t] ([p] for the top of [t]) and the
    listed children; and the listed children that are not the window, the
    root or the parent are exactly the genuine children, in order. *)
Fixpoint represents (srv : xserver) (p : Z) (t : wtree) {struct t} : Prop :=
  match t with
  | WNode w cs subs =>
      XQueryTree srv w = Some (x_root srv, p, cs)
      /\ List.filter (descend w (x_root srv) p) cs = map tree_id subs
      /\ fold_right (fun s P => represents srv w s /\ P) True subs
  end.

(** The windows the search reads up to and including the first match. *)
Fixpoint upto (f : Z -> bool) (l : list Z) : list Z :=
  match l with
  | [] => []
  | a :: l' => if f a then [a] else a :: upto f l'
  end.

(** What a search of the windows [ids], in that order, returns. *)
Definition search_result (f : Z -> bool) (st : find_st) (ids : list Z)
  : bool * find_st :=
  match List.find f ids with
  | Some m =>
      (true, {| pReturn := m; pMaster := pMaster st;
                queried := queried st ++ upto f ids |})
  | None =>
      (false, {| pReturn := pReturn st; pMaster := pMaster st;
                 queried := queried st ++ ids |})
  end.

(** What the loop over the children returns, given the genuine children. *)
Fixpoint scan_result (f : Z -> bool) (at_root : bool) (st : find_st)
    (subs : list wtree) : bool * find_st :=
  match subs with
  | [] => (false, st)
  | s :: rest =>
      let st1 := if at_root then set_master (tree_id s) st else st in
      match search_result f st1 (tree_ids s) with
      | (true, st2) => (true, st2)
      | (false, st2) => scan_result f at_root st2 rest
      end
  end.

End Hierarchy.

Import Hierarchy.


(** ** The playback engine *)

Module Vlc.

(** [libvlc_state_t]. *)
Definition libvlc_NothingSpecial : Z := 0.
Definition libvlc_Opening : Z := 1.
Definition libvlc_Buffering : Z := 2.
Definition libvlc_Playing : Z := 3.
Definition libvlc_Paused : Z := 4.
Definition libvlc_Stopped : Z := 5.
Definition libvlc_Ended : Z := 6.
Definition libvlc_Error : Z := 7.

(** The commands the program sends to the media player. *)
Inductive vlc_call :=
| SetTime (t : Z)
| SetVolume (v : Z)
| SetTrack (id : Z)
| Pause
| Stop.

(** The media player as the program sees it: what its queries answer, and
    the commands it has received (oldest first). *)
Record vlc := {
  v_time : Z;
  v_state : Z;
  v_volume : Z;
  v_track : Z;
  v_calls : list vlc_call
}.

Definition libvlc_media_player_get_time (e : vlc) : Z := v_time e.
Definition libvlc_media_player_get_state (e : vlc) : Z := v_state e.
Definition libvlc_audio_get_volume (e : vlc) : Z := v_volume e.

Definition libvlc_media_player_set_time (e : vlc) (t : Z) : vlc :=
  {| v_time := t; v_state := v_state e; v_volume := v_volume e;
     v_track := v_track e; v_calls := v_calls e ++ [SetTime t] |}.

Definition libvlc_audio_set_volume (e : vlc) (v : Z) : vlc :=
  {| v_time := v_time e; v_state := v_state e; v_volume := v;
     v_track := v_track e; v_calls := v_calls e ++ [SetVolume v] |}.

Definition libvlc_audio_set_track (e : vlc) (id : Z) : vlc :=
  {| v_time := v_time e; v_state := v_state e; v_volume := v_volume e;
     v_track := id; v_calls := v_calls e ++ [SetTrack id] |}.

(** Toggle pause. *)
Definition libvlc_media_player_pause (e : vlc) : vlc :=
  {| v_time := v_time e;
     v_state := if v_state e =? libvlc_Playing then libvlc_Paused
                else if v_state e =? libvlc_Paused then libvlc_Playing
                else v_state e;
     v_volume := v_volume e; v_track := v_track e;
     v_calls := v_calls e ++ [Pause] |}.

Definition libvlc_media_player_stop (e : vlc) : vlc :=
  {| v_time := v_time e; v_state := libvlc_Stopped;
     v_volume := v_volume e; v_track := v_track e;
     v_calls := v_calls e ++ [Stop] |}.

(** The commands the engine received between two of its states. *)
Definition new_calls (before after : vlc) : list vlc_call :=
  skipn (length (v_calls before)) (v_calls after).

End Vlc.

Import Vlc.

Definition FSPLAYER_10SEC : Z := 10000.
Definition FSPLAYER_1MIN : Z := 60000.
Definition FSPLAYER_10MIN : Z := 600000.

(** [a[i]] for an [int] index: [None] outside the array. *)
Definition array_get (a : list Z) (i : Z) : option Z :=
  if i <? 0 then None else a !! Z.to_nat i.

(** ** 64-bit times *)

(** The value of a signed 64-bit integer whose mathematical value would be
    [z]. *)
Definition to_int64 (z : Z) : Z := (z + 2 ^ 63) mod 2 ^ 64 - 2 ^ 63.

(** [a + b] and [a - b] on [libvlc_time_t]. *)
Definition add64 (a b : Z) : Z := to_int64 (a + b).
Definition sub64 (a b : Z) : Z := to_int64 (a - b).

(** [z] is a value of [libvlc_time_t]. *)
Definition is_int64 (z : Z) : bool := (- 2 ^ 63 <=? z) && (z <? 2 ^ 63).

(** ** The event loop of fsplayer.c *)

Module Fsplayer.

Definition ERROR_FSPLAYER_USAGE : Z := 1.
Definition ERROR_FSPLAYER_X11 : Z := 2.
Definition ERROR_FSPLAYER_VLC : Z := 3.
Definition ERROR_FSPLAYER_FAIL : Z := 4.
Definition ERROR_FSPLAYER_MEM : Z := 5.
Definition ERROR_FSPLAYER_VLCRUN : Z := 6.

(** The key codes [main] looks up with [XKeysymToKeycode]; 0 is a key the
    keyboard does not have. *)
Record KeyCodes := {
  kcDown : Z; kcEnd : Z; kcEsc : Z; kcHome : Z; kcKpBegin : Z;
  kcKpDown : Z; kcKpEnd : Z; kcKpHome : Z; kcKpLeft : Z; kcKpMinus : Z;
  kcKpMult : Z; kcKpPageDown : Z; kcKpPageUp : Z; kcKpPlus : Z;
  kcKpRight : Z; kcKpUp : Z; kcLeft : Z; kcPgDown : Z; kcPgUp : Z;
  kcRight : Z; kcSpace : Z; kcUp : Z
}.

(** The branches of the [if ... else if] chain on a [KeyPress]. *)
Inductive key :=
| KDown | KEnd | KEsc | KHome | KKpBegin | KKpDown | KKpEnd | KKpHome
| KKpLeft | KKpMinus | KKpMult | KKpPageDown | KKpPageUp | KKpPlus
| KKpRight | KKpUp | KLeft | KPgDown | KPgUp | KRight | KSpace | KUp.

(** The locals of [main] that the loop only reads. *)
Record session := {
  kc : KeyCodes;
  iEndTimeMs : Z;
  iEndTimeMs_fits : is_int64 iEndTimeMs = true;   (* a [libvlc_time_t] *)
  iNumVlcAudioTracks : Z;
  pVlcAudioTrackId : list Z;
  scrx : Z;
  scry : Z;
  wInput : Z;
  wInputMaster : Z;
  wMaster : Z;
  wVlc : Z
}.

(** The locals the loop writes, the X server and the engine. *)
Record loop_state := {
  iRunning : bool;
  iErr : Z;
  iVlcAudioTrack : Z;
  X : xserver;
  V : vlc
}.

Definition set_running (b : bool) (s : loop_state) : loop_state :=
  {| iRunning := b; iErr := iErr s; iVlcAudioTrack := iVlcAudioTrack s;
     X := X s; V := V s |}.

Definition set_err (e : Z) (s : loop_state) : loop_state :=
  {| iRunning := iRunning s; iErr := e;
     iVlcAudioTrack := iVlcAudioTrack s; X := X s; V := V s |}.

Definition set_track_cursor (i : Z) (s : loop_state) : loop_state :=
  {| iRunning := iRunning s; iErr := iErr s; iVlcAudioTrack := i;
     X := X s; V := V s |}.

Definition set_X (x : xserver) (s : loop_state) : loop_state :=
  {| iRunning := iRunning s; iErr := iErr s;
     iVlcAudioTrack := iVlcAudioTrack s; X := x; V := V s |}.

Definition set_V (e : vlc) (s : loop_state) : loop_state :=
  {| iRunning := iRunning s; iErr := iErr s;
     iVlcAudioTrack := iVlcAudioTrack s; X := X s; V := e |}.

(** [kcK && loopEvent.xkey.keycode == kcK]. *)
Definition is_key (k keycode : Z) : bool := negb (k =? 0) && (keycode =? k).

(** The branch of the chain a key code selects, if any. *)
Definition lookup_key (ses : session) (keycode : Z) : option key :=
  let c := kc ses in
  if is_key (kcDown c) keycode then Some KDown
  else if is_key (kcEnd c) keycode then Some KEnd
  else if is_key (kcEsc c) keycode then Some KEsc
  else if is_key (kcHome c) keycode then Some KHome
  else if is_key (kcKpBegin c) keycode then Some KKpBegin
  else if is_key (kcKpDown c) keycode then Some KKpDown
  else if is_key (kcKpEnd c) keycode then Some KKpEnd
  else if is_key (kcKpHome c) keycode then Some KKpHome
  else if is_key (kcKpLeft c) keycode then Some KKpLeft
  else if is_key (kcKpMinus c) keycode then Some KKpMinus
  else if is_key (kcKpMult c) keycode && (1 <? iNumVlcAudioTracks ses)
       then Some KKpMult
  else if is_key (kcKpPageDown c) keycode then Some KKpPageDown
  else if is_key (kcKpPageUp c) keycode then Some KKpPageUp
  else if is_key (kcKpPlus c) keycode then Some KKpPlus
  else if is_key (kcKpRight c) keycode then Some KKpRight
  else if is_key (kcKpUp c) keycode then Some KKpUp
  else if is_key (kcLeft c) keycode then Some KLeft
  else if is_key (kcPgDown c) keycode then Some KPgDown
  else if is_key (kcPgUp c) keycode then Some KPgUp
  else if is_key (kcRight c) keycode then Some KRight
  else if is_key (kcSpace c) keycode then Some KSpace
  else if is_key (kcUp c) keycode then Some KUp
  else None.

Definition position (ses : session) (iKeypadPos : Z) (s : loop_state)
  : loop_state :=
  set_X (PositionWindow (X s) (wMaster ses) iKeypadPos (scrx ses) (scry ses))
        s.

(** The body of each branch. *)
Definition on_key (ses : session) (k : key) (s : loop_state)
  : option loop_state :=
  match k with
  | KDown =>
      let iTimeMs := libvlc_media_player_get_time (V s) in
      let iTimeMs :=
        if iTimeMs <=? FSPLAYER_1MIN then 0
        else sub64 iTimeMs FSPLAYER_1MIN in
      Some (set_V (libvlc_media_player_set_time (V s) iTimeMs) s)
  | KEnd =>
      let iTimeMs := sub64 (iEndTimeMs ses) FSPLAYER_10SEC in
      Some (set_V (libvlc_media_player_set_time (V s) iTimeMs) s)
  | KEsc => Some (set_running false s)
  | KHome =>
      let iTimeMs := 0 in
      Some (set_V (libvlc_media_player_set_time (V s) iTimeMs) s)
  | KKpBegin => Some (position ses 5 s)
  | KKpDown => Some (position ses 2 s)
  | KKpEnd => Some (position ses 1 s)
  | KKpHome => Some (position ses 7 s)
  | KKpLeft => Some (position ses 4 s)
  | KKpMinus =>
      let iRet := libvlc_audio_get_volume (V s) - 10 in
      let iRet := if iRet <? 0 then 0 else iRet in
      Some (set_V (libvlc_audio_set_volume (V s) iRet) s)
  | KKpMult =>
      let i := iVlcAudioTrack s + 1 in
      let i := if i =? iNumVlcAudioTracks ses then 0 else i in
      match array_get (pVlcAudioTrackId ses) i with
      | Some id =>
          Some (set_V (libvlc_audio_set_track (V s) id)
                      (set_track_cursor i s))
      | None => None
      end
  | KKpPageDown => Some (position ses 3 s)
  | KKpPageUp => Some (position ses 9 s)
  | KKpPlus =>
      let iRet := libvlc_audio_get_volume (V s) + 10 in
      let iRet := if 100 <? iRet then 100 else iRet in
      Some (set_V (libvlc_audio_set_volume (V s) iRet) s)
  | KKpRight => Some (position ses 6 s)
  | KKpUp => Some (position ses 8 s)
  | KLeft =>
      let iTimeMs := libvlc_media_player_get_time (V s) in
      let iTimeMs :=
        if iTimeMs <=? FSPLAYER_10SEC then 0
        else sub64 iTimeMs FSPLAYER_10SEC in
      Some (set_V (libvlc_media_player_set_time (V s) iTimeMs) s)
  | KPgDown =>
      let iTimeMs := libvlc_media_player_get_time (V s) in
      let iTimeMs :=
        if iTimeMs <=? FSPLAYER_10MIN then 0
        else sub64 iTimeMs FSPLAYER_10MIN in
      Some (set_V (libvlc_media_player_set_time (V s) iTimeMs) s)
  | KPgUp =>
      let iTimeMs := libvlc_media_player_get_time (V s) in
      if iTimeMs <? sub64 (iEndTimeMs ses) FSPLAYER_10SEC then
        let iTimeMs :=
          if iTimeMs <? sub64 (iEndTimeMs ses) FSPLAYER_10MIN
          then add64 iTimeMs FSPLAYER_10MIN
          else sub64 (iEndTimeMs ses) FSPLAYER_10SEC in
        Some (set_V (libvlc_media_player_set_time (V s) iTimeMs) s)
      else Some s
  | KRight =>
      let iTimeMs :=
        add64 (libvlc_media_player_get_time (V s)) FSPLAYER_10SEC in
      if iTimeMs <? iEndTimeMs ses
      then Some (set_V (libvlc_media_player_set_time (V s) iTimeMs) s)
      else Some s
  | KSpace => Some (set_V (libvlc_media_player_pause (V s)) s)
  | KUp =>
      let iTimeMs := libvlc_media_player_get_time (V s) in
      if iTimeMs <? sub64 (iEndTimeMs ses) FSPLAYER_10SEC then
        let iTimeMs :=
          if iTimeMs <? sub64 (iEndTimeMs ses) FSPLAYER_1MIN
          then add64 iTimeMs FSPLAYER_1MIN
          else sub64 (iEndTimeMs ses) FSPLAYER_10SEC in
        Some (set_V (libvlc_media_player_set_time (V s) iTimeMs) s)
      else Some s
  end.

Inductive XEvent :=
| KeyPress (keycode : Z)
| ButtonRelease
| OtherEvent.

(** One turn of the inner [while (XPending ...)] loop. *)
Definition on_event (ses : session) (ev : XEvent) (s : loop_state)
  : option loop_state :=
  match ev with
  | KeyPress keycode =>
      match lookup_key ses keycode with
      | Some k => on_key ses k s
      | None => Some s
      end
  | ButtonRelease =>
      Some (set_X (XSetInputFocus (XRaiseWindow (X s) (wMaster ses))
                                  (wInput ses)) s)
  | OtherEvent => Some s
  end.

(** The inner loop on the events that are pending. *)
Fixpoint drain (ses : session) (evs : list XEvent) (s : loop_state)
  : option loop_state :=
  match evs with
  | [] => Some s
  | ev :: rest =>
      match on_event ses ev s with
      | Some s' => drain ses rest s'
      | None => None
      end
  end.

(** The three [if (iRunning)] blocks that end a cycle. *)
Definition check_state (s : loop_state) : loop_state :=
  if iRunning s then
    if libvlc_Stopped <=? libvlc_media_player_get_state (V s)
    then set_running false s
    else s
  else s.

Definition check_time (ses : session) (s : loop_state) : loop_state :=
  if iRunning s then
    let iTimeMs := libvlc_media_player_get_time (V s) in
    let s1 := if iTimeMs <? 0 then set_err ERROR_FSPLAYER_VLC s else s in
    if iErr s1 =? 0 then
      if iEndTimeMs ses <=? iTimeMs then set_running false s1 else s1
    else s1
  else s.

Definition reclaim_focus (ses : session) (s : loop_state) : loop_state :=
  if iRunning s then
    let w := XGetInputFocus (X s) in
    if (w =? wVlc ses) || (w =? wMaster ses) then
      set_X (XSetInputFocus
               (XRaiseWindow (XRaiseWindow (X s) (wInputMaster ses))
                             (wMaster ses))
               (wInput ses)) s
    else s
  else s.

(** What happens outside the program during the wait of a cycle: the engine
    and the server move on by themselves, and events arrive. *)
Record cycle_input := {
  engine_progress : vlc -> vlc;
  server_progress : xserver -> xserver;
  pending : list XEvent
}.

Definition wait (inp : cycle_input) (s : loop_state) : loop_state :=
  set_V (engine_progress inp (V s)) (set_X (server_progress inp (X s)) s).

(** One turn of the outer loop. *)
Definition cycle (ses : session) (inp : cycle_input) (s : loop_state)
  : option loop_state :=
  match drain ses (pending inp) (wait inp s) with
  | Some s1 => Some (reclaim_focus ses (check_time ses (check_state s1)))
  | None => None
  end.

(** [while (iRunning && !iErr)], for as many cycles as [inputs] describes;
    the state returned still has [iRunning] set and no error when the loop
    would go on. *)
Fixpoint event_loop (ses : session) (inputs : list cycle_input)
    (s : loop_state) : option loop_state :=
  if iRunning s && (iErr s =? 0) then
    match inputs with
    | [] => Some s
    | inp :: rest =>
        match cycle ses inp s with
        | Some s' => event_loop ses rest s'
        | None => None
        end
    end
  else Some s.

(** The same key pressed [n] times in a row. *)
Fixpoint presses (ses : session) (k : key) (n : nat) (s : loop_state)
  : option loop_state :=
  match n with
  | O => Some s
  | S n' =>
      match on_key ses k s with
      | Some s' => presses ses k n' s'
      | None => None
      end
  end.

(** The event is a press of the escape key. *)
Definition is_escape (ses : session) (ev : XEvent) : bool :=
  match ev with
  | KeyPress keycode =>
      match lookup_key ses keycode with
      | Some KEsc => true
      | _ => false
      end
  | _ => false
  end.

(** Some pending event is a press of the escape key. *)
Definition escape_pressed (ses : session) (evs : list XEvent) : bool :=
  existsb (is_escape ses) evs.

(** The key code is the one [main] holds for escape, it is a code (not 0),
    and it is not the code of arrow down or of end, the two keys the chain
    tests before escape. *)
Definition escape_code (ses : session) (keycode : Z) : bool :=
  (keycode =? kcEsc (kc ses)) && negb (keycode =? 0)
  && negb (keycode =? kcDown (kc ses)) && negb (keycode =? kcEnd (kc ses)).

Definition escape_event (ses : session) (ev : XEvent) : bool :=
  match ev with
  | KeyPress keycode => escape_code ses keycode
  | _ => false
  end.

(** Some pending event is a press of the key with the code of escape. *)
Definition escape_among (ses : session) (evs : list XEvent) : bool :=
  existsb (escape_event ses) evs.

(** The codes of the keys the chain tests before the keypad [*]. *)
Definition before_star (c : KeyCodes) : list Z :=
  [kcDown c; kcEnd c; kcEsc c; kcHome c; kcKpBegin c; kcKpDown c;
   kcKpEnd c; kcKpHome c; kcKpLeft c; kcKpMinus c].

(** The key code is the one [main] holds for the keypad [*], it is a code
    (not 0), and no key tested before has it. *)
Definition star_code (ses : session) (keycode : Z) : bool :=
  (keycode =? kcKpMult (kc ses)) && negb (keycode =? 0)
  && forallb (fun k => negb (keycode =? k)) (before_star (kc ses)).

(** The loop goes on to another cycle. *)
Definition continues (s : loop_state) : bool :=
  iRunning s && (iErr s =? 0).

(** The cursor is an index of the track array, which has
    [iNumVlcAudioTracks] cells, whenever the array is in use. *)
Definition tracks_ok (ses : session) (s : loop_state) : Prop :=
  1 < iNumVlcAudioTracks ses ->
  Z.of_nat (length (pVlcAudioTrackId ses)) = iNumVlcAudioTracks ses
  /\ 0 <= iVlcAudioTrack s < iNumVlcAudioTracks ses.

Definition backward_seek (k : key) : bool :=
  match k with
  | KLeft | KDown | KPgDown | KHome => true
  | _ => false
  end.

Definition forward_seek (k : key) : bool :=
  match k with
  | KRight | KUp | KPgUp => true
  | _ => false
  end.

End Fsplayer.

(** ** The key handler and the timer of win32/main.cpp *)

Module Win32.

Definition ERROR_FSPLAYER_USAGE : Z := 1.
Definition ERROR_FSPLAYER_MEM : Z := 2.
Definition ERROR_FSPLAYER_VLC : Z := 3.
Definition FSPLAYER_STATE_PLAYING : Z := 1.

(** The virtual keys [FormKeyDown] has a [case] for, and any other key. *)
Inductive vkey :=
| vkDown | vkEnd | vkEscape | vkHome | vkSubtract | vkAdd | vkLeft
| vkPrior | vkMultiply | vkNext | vkRight | vkSpace | vkUp
| vkOther (code : Z).

(** The global variables, the engine behind [gpVlcPlayer], and whether the
    form was hidden and the application asked to terminate. *)
Record globals := {
  giErr : Z;
  giNumVlcAudioTracks : Z;
  giState : Z;
  giVlcAudioTrack : Z;
  gpVlcAudioTrackId : list Z;
  giEndTimeMs : Z;
  giEndTimeMs_fits : is_int64 giEndTimeMs = true;   (* a [libvlc_time_t] *)
  gV : vlc;
  hidden : bool;
  terminated : bool
}.

Definition set_gV (e : vlc) (g : globals) : globals :=
  {| giErr := giErr g; giNumVlcAudioTracks := giNumVlcAudioTracks g;
     giState := giState g; giVlcAudioTrack := giVlcAudioTrack g;
     gpVlcAudioTrackId := gpVlcAudioTrackId g;
     giEndTimeMs := giEndTimeMs g;
     giEndTimeMs_fits := giEndTimeMs_fits g; gV := e; hidden := hidden g;
     terminated := terminated g |}.

Definition set_giVlcAudioTrack (i : Z) (g : globals) : globals :=
  {| giErr := giErr g; giNumVlcAudioTracks := giNumVlcAudioTracks g;
     giState := giState g; giVlcAudioTrack := i;
     gpVlcAudioTrackId := gpVlcAudioTrackId g;
     giEndTimeMs := giEndTimeMs g;
     giEndTimeMs_fits := giEndTimeMs_fits g; gV := gV g;
     hidden := hidden g;
     terminated := terminated g |}.

(** [giState = 0; Hide (); Application->Terminate ();] *)
Definition leave (g : globals) : globals :=
  {| giErr := giErr g; giNumVlcAudioTracks := giNumVlcAudioTracks g;
     giState := 0; giVlcAudioTrack := giVlcAudioTrack g;
     gpVlcAudioTrackId := gpVlcAudioTrackId g;
     giEndTimeMs := giEndTimeMs g;
     giEndTimeMs_fits := giEndTimeMs_fits g; gV := gV g; hidden := true;
     terminated := true |}.

Definition FormKeyDown (Key : vkey) (g : globals) : option globals :=
  match Key with
  | vkDown =>
      let iTimeMs := libvlc_media_player_get_time (gV g) in
      let iTimeMs :=
        if iTimeMs <=? FSPLAYER_1MIN then 0
        else sub64 iTimeMs FSPLAYER_1MIN in
      Some (set_gV (libvlc_media_player_set_time (gV g) iTimeMs) g)
  | vkEnd =>
      let iTimeMs := sub64 (giEndTimeMs g) FSPLAYER_10SEC in
      Some (set_gV (libvlc_media_player_set_time (gV g) iTimeMs) g)
  | vkEscape =>
      Some (set_gV (libvlc_media_player_stop (gV g)) (leave g))
  | vkHome => Some (set_gV (libvlc_media_player_set_time (gV g) 0) g)
  | vkSubtract =>
      let i := libvlc_audio_get_volume (gV g) - 10 in
      let i := if i <? 1 then 1 else i in
      Some (set_gV (libvlc_audio_set_volume (gV g) i) g)
  | vkAdd =>
      let i := libvlc_audio_get_volume (gV g) + 10 in
      let i := if 100 <? i then 100 else i in
      Some (set_gV (libvlc_audio_set_volume (gV g) i) g)
  | vkLeft =>
      let iTimeMs := libvlc_media_player_get_time (gV g) in
      let iTimeMs :=
        if iTimeMs <=? FSPLAYER_10SEC then 0
        else sub64 iTimeMs FSPLAYER_10SEC in
      Some (set_gV (libvlc_media_player_set_time (gV g) iTimeMs) g)
  | vkPrior =>
      let iTimeMs := libvlc_media_player_get_time (gV g) in
      if iTimeMs <? sub64 (giEndTimeMs g) FSPLAYER_10SEC then
        let iTimeMs :=
          if iTimeMs <? sub64 (giEndTimeMs g) FSPLAYER_10MIN
          then add64 iTimeMs FSPLAYER_10MIN
          else sub64 (giEndTimeMs g) FSPLAYER_10SEC in
        Some (set_gV (libvlc_media_player_set_time (gV g) iTimeMs) g)
      else Some g
  | vkMultiply =>
      if 1 <? giNumVlcAudioTracks g then
        let i := giVlcAudioTrack g + 1 in
        let i := if giNumVlcAudioTracks g <=? i then 0 else i in
        match array_get (gpVlcAudioTrackId g) i with
        | Some id =>
            Some (set_gV (libvlc_audio_set_track (gV g) id)
                         (set_giVlcAudioTrack i g))
        | None => None
        end
      else Some g
  | vkNext =>
      let iTimeMs := libvlc_media_player_get_time (gV g) in
      let iTimeMs :=
        if iTimeMs <=? FSPLAYER_10MIN then 0
        else sub64 iTimeMs FSPLAYER_10MIN in
      Some (set_gV (libvlc_media_player_set_time (gV g) iTimeMs) g)
  | vkRight =>
      let iTimeMs :=
        add64 (libvlc_media_player_get_time (gV g)) FSPLAYER_10SEC in
      if iTimeMs <? giEndTimeMs g
      then Some (set_gV (libvlc_media_player_set_time (gV g) iTimeMs) g)
      else Some g
  | vkSpace => Some (set_gV (libvlc_media_player_pause (gV g)) g)
  | vkUp =>
      let iTimeMs := libvlc_media_player_get_time (gV g) in
      if iTimeMs <? sub64 (giEndTimeMs g) FSPLAYER_10SEC then
        let iTimeMs :=
          if iTimeMs <? sub64 (giEndTimeMs g) FSPLAYER_1MIN
          then add64 iTimeMs FSPLAYER_1MIN
          else sub64 (giEndTimeMs g) FSPLAYER_10SEC in
        Some (set_gV (libvlc_media_player_set_time (gV g) iTimeMs) g)
      else Some g
  | vkOther _ => Some g
  end.

(** The timer, entered with [iInTimer] clear. *)
Definition rrTimerTimer (g : globals) : globals :=
  if giState g =? FSPLAYER_STATE_PLAYING then
    let stateVlcPlayer := libvlc_media_player_get_state (gV g) in
    if (stateVlcPlayer =? libvlc_Stopped)
       || (stateVlcPlayer =? libvlc_Ended)
       || (stateVlcPlayer =? libvlc_Error)
    then leave g
    else g
  else g.

(** The same key pressed [n] times in a row. *)
Fixpoint presses (Key : vkey) (n : nat) (g : globals) : option globals :=
  match n with
  | O => Some g
  | S n' =>
      match FormKeyDown Key g with
      | Some g' => presses Key n' g'
      | None => None
      end
  end.

Definition backward_seek (k : vkey) : bool :=
  match k with
  | vkLeft | vkDown | vkNext | vkHome => true
  | _ => false
  end.

Definition forward_seek (k : vkey) : bool :=
  match k with
  | vkRight | vkUp | vkPrior => true
  | _ => false
  end.

End Win32.

(** The ids the engine is asked to select by [k] successive advances of a
    cursor at [c] over the [n] cells of [ids]. *)
Definition selected (ids : list Z) (n c : Z) (k : nat) : list vlc_call :=
  map (fun i => SetTrack (nth (Z.to_nat ((c + Z.of_nat i) mod n)) ids 0))
      (seq 1 k).

(** ** The start-up and the teardown of fsplayer.c *)

Module Main.

Import Fsplayer.

(** What the outside answers to the requests of [main].  Pointers and
    window identifiers are integers, 0 being [NULL] and [None]. *)
Record env := {
  argc : Z;
  file_exists : bool;          (* FilenameExist (argv[1]) *)
  open_display : Z;            (* XOpenDisplay *)
  vlc_window_present : bool;   (* the first FindVlcWindow finds a window *)
  create_window : Z;           (* XCreateWindow *)
  atoms_interned : bool;       (* both XInternAtom give an atom *)
  vlc_new : Z;                 (* libvlc_new *)
  media_new : Z;               (* libvlc_media_new_path *)
  player_new : Z;              (* libvlc_media_player_new_from_media *)
  first_play : Z;              (* the first libvlc_media_player_play *)
  video_get_size : Z;          (* libvlc_video_get_size *)
  media_length : Z;            (* libvlc_media_player_get_length *)
  track_count : Z;             (* libvlc_audio_get_track_count *)
  malloc_tracks : Z;           (* malloc *)
  vlc_window_found : bool;     (* the second FindVlcWindow finds a window *)
  taskbar : Z;                 (* what TaskbarFindAndUnmap records *)
  second_play : Z;             (* the second libvlc_media_player_play *)
  loop_error : Z;              (* iErr when the event loop is left *)
  indeterminate_wInput : Z     (* what wInput, never initialised, holds *)
}.

(** A call that is handed the display, a window, or an engine handle. *)
Inductive call :=
| OnDisplay (fn : string) (dpy : Z)
| OnWindow (fn : string) (dpy w : Z)
| OnInstance (fn : string) (inst : Z)
| OnMedia (fn : string) (media : Z)
| OnPlayer (fn : string) (player : Z)
| Free (p : Z).

(** The locals of [main] that the teardown reads, and the calls made. *)
Record locals := {
  iErr : Z;
  iPlay : bool;
  pX11Display : Z;
  wInput : Z;
  wTaskbar : Z;
  pVlcInst : Z;
  pVlcPlayer : Z;
  pVlcAudioTrackId : Z;
  calls : list call
}.

Definition set_iErr (v : Z) (l : locals) : locals :=
  {| iErr := v; iPlay := iPlay l; pX11Display := pX11Display l;
     wInput := wInput l; wTaskbar := wTaskbar l; pVlcInst := pVlcInst l;
     pVlcPlayer := pVlcPlayer l; pVlcAudioTrackId := pVlcAudioTrackId l;
     calls := calls l |}.

Definition set_iPlay (v : bool) (l : locals) : locals :=
  {| iErr := iErr l; iPlay := v; pX11Display := pX11Display l;
     wInput := wInput l; wTaskbar := wTaskbar l; pVlcInst := pVlcInst l;
     pVlcPlayer := pVlcPlayer l; pVlcAudioTrackId := pVlcAudioTrackId l;
     calls := calls l |}.

Definition set_pX11Display (v : Z) (l : locals) : locals :=
  {| iErr := iErr l; iPlay := iPlay l; pX11Display := v;
     wInput := wInput l; wTaskbar := wTaskbar l; pVlcInst := pVlcInst l;
     pVlcPlayer := pVlcPlayer l; pVlcAudioTrackId := pVlcAudioTrackId l;
     calls := calls l |}.

Definition set_wInput (v : Z) (l : locals) : locals :=
  {| iErr := iErr l; iPlay := iPlay l; pX11Display := pX11Display l;
     wInput := v; wTaskbar := wTaskbar l; pVlcInst := pVlcInst l;
     pVlcPlayer := pVlcPlayer l; pVlcAudioTrackId := pVlcAudioTrackId l;
     calls := calls l |}.

Definition set_wTaskbar (v : Z) (l : locals) : locals :=
  {| iErr := iErr l; iPlay := iPlay l; pX11Display := pX11Display l;
     wInput := wInput l; wTaskbar := v; pVlcInst := pVlcInst l;
     pVlcPlayer := pVlcPlayer l; pVlcAudioTrackId := pVlcAudioTrackId l;
     calls := calls l |}.

Definition set_pVlcInst (v : Z) (l : locals) : locals :=
  {| iErr := iErr l; iPlay := iPlay l; pX11Display := pX11Display l;
     wInput := wInput l; wTaskbar := wTaskbar l; pVlcInst := v;
     pVlcPlayer := pVlcPlayer l; pVlcAudioTrackId := pVlcAudioTrackId l;
     calls := calls l |}.

Definition set_pVlcPlayer (v : Z) (l : locals) : locals :=
  {| iErr := iErr l; iPlay := iPlay l; pX11Display := pX11Display l;
     wInput := wInput l; wTaskbar := wTaskbar l; pVlcInst := pVlcInst l;
     pVlcPlayer := v; pVlcAudioTrackId := pVlcAudioTrackId l;
     calls := calls l |}.

Definition set_pVlcAudioTrackId (v : Z) (l : locals) : locals :=
  {| iErr := iErr l; iPlay := iPlay l; pX11Display := pX11Display l;
     wInput := wInput l; wTaskbar := wTaskbar l; pVlcInst := pVlcInst l;
     pVlcPlayer := pVlcPlayer l; pVlcAudioTrackId := v;
     calls := calls l |}.

Definition emit (cs : list call) (l : locals) : locals :=
  {| iErr := iErr l; iPlay := iPlay l; pX11Display := pX11Display l;
     wInput := wInput l; wTaskbar := wTaskbar l; pVlcInst := pVlcInst l;
     pVlcPlayer := pVlcPlayer l; pVlcAudioTrackId := pVlcAudioTrackId l;
     calls := calls l ++ cs |}.

(** [if (!iErr) { ... }] *)
Definition unless_error (f : locals -> locals) (l : locals) : locals :=
  if iErr l =? 0 then f l else l.

(** The declarations: [wInput] has no initialiser. *)
Definition declarations (e : env) : locals :=
  {| iErr := 0; iPlay := false; pX11Display := 0;
     wInput := indeterminate_wInput e; wTaskbar := 0; pVlcInst := 0;
     pVlcPlayer := 0; pVlcAudioTrackId := 0; calls := [] |}.

Definition check_arguments (e : env) (l : locals) : locals :=
  let l := if negb (argc e =? 2) then set_iErr ERROR_FSPLAYER_USAGE l
           else l in
  unless_error
    (fun l => if negb (file_exists e) then set_iErr ERROR_FSPLAYER_USAGE l
              else l) l.

Definition open_the_display (e : env) (l : locals) : locals :=
  let l := set_pX11Display (open_display e) l in
  if pX11Display l =? 0 then set_iErr ERROR_FSPLAYER_X11 l else l.

Definition read_the_screen (e : env) (l : locals) : locals :=
  let d := pX11Display l in
  let l := emit [OnDisplay "XDefaultScreen" d;
                 OnDisplay "XDefaultRootWindow" d;
                 OnDisplay "XBlackPixel" d;
                 OnDisplay "XF86VidModeGetModeLine" d;
                 OnDisplay "XF86VidModeSetViewPort" d;
                 OnDisplay "FindVlcWindow" d] l in
  if vlc_window_present e then set_iErr ERROR_FSPLAYER_VLCRUN l
  else set_iErr 0 l.

Definition create_the_input_window (e : env) (l : locals) : locals :=
  let l := emit [OnDisplay "XCreateWindow" (pX11Display l)] l in
  let l := set_wInput (create_window e) l in
  if wInput l =? 0 then set_iErr ERROR_FSPLAYER_X11 l else l.

Definition intern_the_atoms (e : env) (l : locals) : locals :=
  let l := emit [OnDisplay "XInternAtom" (pX11Display l);
                 OnDisplay "XInternAtom" (pX11Display l)] l in
  if negb (atoms_interned e) then set_iErr ERROR_FSPLAYER_X11 l else l.

Definition load_the_engine (e : env) (l : locals) : locals :=
  let d := pX11Display l in
  let l := emit [OnWindow "XChangeProperty" d (wInput l);
                 OnWindow "XMapWindow" d (wInput l);
                 OnDisplay "XKeysymToKeycode" d] l in
  let l := set_pVlcInst (vlc_new e) l in
  if pVlcInst l =? 0 then set_iErr ERROR_FSPLAYER_VLC l else l.

Definition create_the_player (e : env) (l : locals) : locals :=
  let l := emit [OnInstance "libvlc_media_new_path" (pVlcInst l)] l in
  let pVlcMedia := media_new e in
  if negb (pVlcMedia =? 0) then
    let l := emit [OnMedia "libvlc_media_player_new_from_media" pVlcMedia]
                  l in
    let l := set_pVlcPlayer (player_new e) l in
    let l := if pVlcPlayer l =? 0 then set_iErr ERROR_FSPLAYER_VLC l
             else l in
    emit [OnMedia "libvlc_media_release" pVlcMedia] l
  else set_iErr ERROR_FSPLAYER_VLC l.

Definition play_paused (e : env) (l : locals) : locals :=
  let p := pVlcPlayer l in
  let l := set_iPlay true l in
  let l := emit [OnPlayer "libvlc_media_player_play" p] l in
  let l := set_iErr (first_play e) l in
  let l := emit [OnPlayer "libvlc_media_player_pause" p;
                 OnPlayer "libvlc_video_get_size" p] l in
  let l := set_iErr (video_get_size e) l in
  if negb (iErr l =? 0) then set_iErr ERROR_FSPLAYER_VLC l else l.

Definition read_the_length (e : env) (l : locals) : locals :=
  let l := emit [OnPlayer "libvlc_media_player_get_length" (pVlcPlayer l)]
                l in
  if media_length e <=? 0 then set_iErr ERROR_FSPLAYER_VLC l else l.

Definition read_the_tracks (e : env) (l : locals) : locals :=
  let p := pVlcPlayer l in
  let l := emit [OnPlayer "libvlc_audio_get_track_count" p] l in
  if 1 <? track_count e then
    let l := set_pVlcAudioTrackId (malloc_tracks e) l in
    if negb (pVlcAudioTrackId l =? 0)
    then emit [OnPlayer "libvlc_audio_get_track_description" p] l
    else set_iErr ERROR_FSPLAYER_MEM l
  else l.

Definition find_the_player_window (e : env) (l : locals) : locals :=
  let l := emit [OnDisplay "FindVlcWindow" (pX11Display l)] l in
  if vlc_window_found e then set_iErr 0 l
  else set_iErr ERROR_FSPLAYER_FAIL l.

Definition go_fullscreen_and_play (e : env) (l : locals) : locals :=
  let d := pX11Display l in
  let p := pVlcPlayer l in
  let l := emit [OnWindow "FindMaster" d (wInput l);
                 OnDisplay "SetWindowFullscreen" d;
                 OnDisplay "TaskbarFindAndUnmap" d] l in
  let l := set_wTaskbar (taskbar e) l in
  let l := emit [OnPlayer "libvlc_media_player_set_time" p;
                 OnPlayer "libvlc_media_player_play" p] l in
  let l := set_iErr (second_play e) l in
  if negb (iErr l =? 0) then set_iErr ERROR_FSPLAYER_VLC l else l.

(** The chain of [if (!iErr)] blocks. *)
Definition initialise (e : env) : locals :=
  let l := check_arguments e (declarations e) in
  let l := unless_error (open_the_display e) l in
  let l := unless_error (read_the_screen e) l in
  let l := unless_error (create_the_input_window e) l in
  let l := unless_error (intern_the_atoms e) l in
  let l := unless_error (load_the_engine e) l in
  let l := unless_error (create_the_player e) l in
  let l := unless_error (play_paused e) l in
  let l := unless_error (read_the_length e) l in
  let l := unless_error (read_the_tracks e) l in
  let l := unless_error (find_the_player_window e) l in
  unless_error (go_fullscreen_and_play e) l.

(** [iX11fd = ConnectionNumber (pX11Display)], which reads the display
    structure, and the loop, entered only without an error. *)
Definition run_event_loop (e : env) (l : locals) : locals :=
  let l := emit [OnDisplay "ConnectionNumber" (pX11Display l)] l in
  if iErr l =? 0
  then set_iErr (loop_error e) (emit [OnDisplay "XPending" (pX11Display l)] l)
  else l.

(** The teardown, block by block. *)
Definition stop_playing (l : locals) : locals :=
  if iPlay l
  then emit [OnPlayer "libvlc_media_player_stop" (pVlcPlayer l)] l
  else l.

(** [TaskbarRaise (pX11Display, wTaskbar)] *)
Definition raise_the_taskbar (l : locals) : locals :=
  if negb (wTaskbar l =? 0)
  then emit [OnWindow "XMapRaised" (pX11Display l) (wTaskbar l);
             OnWindow "XGetWindowAttributes" (pX11Display l) (wTaskbar l)] l
  else l.

Definition release_the_player (l : locals) : locals :=
  if negb (pVlcPlayer l =? 0)
  then emit [OnPlayer "libvlc_media_player_release" (pVlcPlayer l)] l
  else l.

Definition release_the_instance (l : locals) : locals :=
  if negb (pVlcInst l =? 0)
  then emit [OnInstance "libvlc_release" (pVlcInst l)] l
  else l.

Definition free_the_tracks (l : locals) : locals :=
  if negb (pVlcAudioTrackId l =? 0)
  then emit [Free (pVlcAudioTrackId l)] l
  else l.

Definition destroy_the_input_window (l : locals) : locals :=
  if negb (wInput l =? 0)
  then emit [OnWindow "XDestroyWindow" (pX11Display l) (wInput l)] l
  else l.

Definition close_the_display (l : locals) : locals :=
  if negb (pX11Display l =? 0)
  then emit [OnDisplay "XCloseDisplay" (pX11Display l)] l
  else l.

(** Everything from the comment "Stop playing" on. *)
Definition teardown (l : locals) : locals :=
  let l := stop_playing l in
  let l := raise_the_taskbar l in
  let l := release_the_player l in
  let l := release_the_instance l in
  let l := free_the_tracks l in
  let l := destroy_the_input_window l in
  close_the_display l.

Definition main (e : env) : locals :=
  teardown (run_event_loop e (initialise e)).

(** A call handed a null display or a null engine handle. *)
Definition on_null (c : call) : bool :=
  match c with
  | OnDisplay _ d => d =? 0
  | OnWindow _ d _ => d =? 0
  | OnInstance _ h => h =? 0
  | OnMedia _ h => h =? 0
  | OnPlayer _ h => h =? 0
  | Free p => p =? 0
  end.

(** A call on an engine handle, or a [free], is handed a handle that is
    not null. *)
Definition engine_handle_ok (c : call) : bool :=
  match c with
  | OnInstance _ h => negb (h =? 0)
  | OnMedia _ h => negb (h =? 0)
  | OnPlayer _ h => negb (h =? 0)
  | Free p => negb (p =? 0)
  | _ => true
  end.

(** The calls made so far on an engine handle were made on live handles. *)
Definition calls_ok (l : locals) : Prop :=
  forallb engine_handle_ok (calls l) = true.

(** ... and playback was only started on a player. *)
Definition inv (l : locals) : Prop :=
  calls_ok l /\ (iPlay l = true -> pVlcPlayer l <> 0).

(** What holds between the blocks of the start-up: before the engine is
    loaded, once it is, and once the player exists. *)
Definition before_engine (l : locals) : Prop :=
  inv l /\ iPlay l = false.

Definition with_instance (l : locals) : Prop :=
  inv l /\ iPlay l = false /\ (iErr l = 0 -> pVlcInst l <> 0).

Definition with_player (l : locals) : Prop :=
  inv l /\ (iErr l = 0 -> pVlcPlayer l <> 0).

(** A block that runs on the player and leaves the pointer alone. *)
Definition player_block (f : locals -> locals) : Prop :=
  forall l,
    inv l -> pVlcPlayer l <> 0 ->
    inv (f l) /\ pVlcPlayer (f l) = pVlcPlayer l.

End Main.

(** ** Concrete servers used in the examples *)

Module Examples.

Definition attr (x y wd ht bw : Z) (ovr : bool) (st : Z)
  : XWindowAttributes :=
  {| a_x := x; a_y := y; a_width := wd; a_height := ht;
     a_border_width := bw; a_override_redirect := ovr; a_map_state := st |}.

(** The predefined atoms [STRING] and [WM_NAME]. *)
Definition XA_STRING : Z := 31.
Definition XA_WM_NAME : Z := 39.

Definition named (s : string) : gmap Z (Z * string) :=
  {[ XA_WM_NAME := (XA_STRING, s) ]}.

Definition atoms : gmap string Z :=
  {[ "STRING"%string := XA_STRING; "WM_NAME"%string := XA_WM_NAME;
     "_MOTIF_WM_HINTS"%string := 300; "_NET_WM_STATE"%string := 301;
     "_NET_WM_STATE_FULLSCREEN"%string := 302 ]}.

(** A desktop: root 1; a frame 2 at (4, 20) holding the engine's window 4;
    a panel 3.  The children lists of 1, 2 and 4 also hold back-edges to
    the window itself, to the root and to the parent. *)
Definition desktop : xserver :=
  {| x_root := 1;
     x_wins :=
       {[ 1 := {| w_parent := 0; w_children := [2; 1; 3];
                  w_attr := attr 0 0 1920 1080 0 false IsViewable;
                  w_props := ∅ |};
          2 := {| w_parent := 1; w_children := [1; 4; 2];
                  w_attr := attr 4 20 648 508 0 false IsViewable;
                  w_props := named "frame" |};
          3 := {| w_parent := 1; w_children := [];
                  w_attr := attr 0 1050 1920 30 0 true IsViewable;
                  w_props := named "panel" |};
          4 := {| w_parent := 2; w_children := [2; 1];
                  w_attr := attr 4 24 640 480 0 false IsViewable;
                  w_props := named "VLC media player" |} ]};
     x_atoms := atoms;
     x_focus := 0;
     x_sent := [] |}.


Definition desktop_tree : wtree :=
  WNode 1 [2; 1; 3]
    [WNode 2 [1; 4; 2] [WNode 4 [2; 1] []]; WNode 3 [] []].


(** A keyboard, and a session on a film of 125 seconds with three audio
    tracks; the same film on the Win32 build; a clip of 5 seconds. *)
Definition keyboard : Fsplayer.KeyCodes :=
  {| Fsplayer.kcDown := 116; Fsplayer.kcEnd := 115; Fsplayer.kcEsc := 9;
     Fsplayer.kcHome := 110; Fsplayer.kcKpBegin := 84;
     Fsplayer.kcKpDown := 88; Fsplayer.kcKpEnd := 87;
     Fsplayer.kcKpHome := 79; Fsplayer.kcKpLeft := 83;
     Fsplayer.kcKpMinus := 82; Fsplayer.kcKpMult := 63;
     Fsplayer.kcKpPageDown := 89; Fsplayer.kcKpPageUp := 81;
     Fsplayer.kcKpPlus := 86; Fsplayer.kcKpRight := 85;
     Fsplayer.kcKpUp := 80; Fsplayer.kcLeft := 113;
     Fsplayer.kcPgDown := 117; Fsplayer.kcPgUp := 112;
     Fsplayer.kcRight := 114; Fsplayer.kcSpace := 65;
     Fsplayer.kcUp := 111 |}.

Definition film_of (length : Z) (fits : is_int64 length = true)
    (ids : list Z) : Fsplayer.session :=
  {| Fsplayer.kc := keyboard; Fsplayer.iEndTimeMs := length;
     Fsplayer.iEndTimeMs_fits := fits;
     Fsplayer.iNumVlcAudioTracks := Z.of_nat (List.length ids);
     Fsplayer.pVlcAudioTrackId := ids;
     Fsplayer.scrx := 1920; Fsplayer.scry := 1080;
     Fsplayer.wInput := 5; Fsplayer.wInputMaster := 5;
     Fsplayer.wMaster := 2; Fsplayer.wVlc := 4 |}.

Definition film : Fsplayer.session := film_of 125000 eq_refl [2; 5; 7].
Definition clip : Fsplayer.session := film_of 5000 eq_refl [].

(** A medium as long as [libvlc_time_t] allows. *)
Definition longest : Fsplayer.session := film_of (2 ^ 63 - 1) eq_refl [].

Definition engine_at (t volume : Z) : vlc :=
  {| v_time := t; v_state := libvlc_Playing; v_volume := volume;
     v_track := 2; v_calls := [] |}.

Definition playing (t volume : Z) : Fsplayer.loop_state :=
  {| Fsplayer.iRunning := true; Fsplayer.iErr := 0;
     Fsplayer.iVlcAudioTrack := 0; Fsplayer.X := desktop;
     Fsplayer.V := engine_at t volume |}.

(** The loop of fsplayer.c entered on the film while [iVlcAudioTrack],
    which has no initialiser, holds [c]. *)
Definition entered_with (c : Z) : Fsplayer.loop_state :=
  {| Fsplayer.iRunning := true; Fsplayer.iErr := 0;
     Fsplayer.iVlcAudioTrack := c; Fsplayer.X := desktop;
     Fsplayer.V := engine_at 0 100 |}.

Definition form_of (length : Z) (fits : is_int64 length = true)
    (ids : list Z) (t volume : Z) : Win32.globals :=
  {| Win32.giErr := 0;
     Win32.giNumVlcAudioTracks := Z.of_nat (List.length ids);
     Win32.giState := Win32.FSPLAYER_STATE_PLAYING;
     Win32.giVlcAudioTrack := 0; Win32.gpVlcAudioTrackId := ids;
     Win32.giEndTimeMs := length; Win32.giEndTimeMs_fits := fits;
     Win32.gV := engine_at t volume;
     Win32.hidden := false; Win32.terminated := false |}.

Definition form (t volume : Z) : Win32.globals :=
  form_of 125000 eq_refl [2; 5; 7] t volume.

(** A poll cycle during which the engine reaches the end of the film
    while a press of arrow right is pending. *)
Definition film_ends : Fsplayer.cycle_input :=
  {| Fsplayer.engine_progress :=
       fun e => {| v_time := v_time e + 400; v_state := libvlc_Ended;
                   v_volume := v_volume e; v_track := v_track e;
                   v_calls := v_calls e |};
     Fsplayer.server_progress := fun x => x;
     Fsplayer.pending := [Fsplayer.KeyPress 114] |}.

(** fsplayer started without an argument, and started while the engine's
    window of another program is on the screen; [wInput] happens to hold
    77. *)
Definition no_argument : Main.env :=
  {| Main.argc := 1; Main.file_exists := false; Main.open_display := 1000;
     Main.vlc_window_present := false; Main.create_window := 5;
     Main.atoms_interned := true; Main.vlc_new := 2000;
     Main.media_new := 3000; Main.player_new := 4000;
     Main.first_play := 0; Main.video_get_size := 0;
     Main.media_length := 125000; Main.track_count := 3;
     Main.malloc_tracks := 5000; Main.vlc_window_found := true;
     Main.taskbar := 0; Main.second_play := 0; Main.loop_error := 0;
     Main.indeterminate_wInput := 77 |}.

Definition already_running : Main.env :=
  {| Main.argc := 2; Main.file_exists := true; Main.open_display := 1000;
     Main.vlc_window_present := true; Main.create_window := 5;
     Main.atoms_interned := true; Main.vlc_new := 2000;
     Main.media_new := 3000; Main.player_new := 4000;
     Main.first_play := 0; Main.video_get_size := 0;
     Main.media_length := 125000; Main.track_count := 3;
     Main.malloc_tracks := 5000; Main.vlc_window_found := true;
     Main.taskbar := 0; Main.second_play := 0; Main.loop_error := 0;
     Main.indeterminate_wInput := 77 |}.

End Examples.

(** * The rest of fsplayer.c and of win32/main.cpp *)

(** ** FindMaster *)

(** The [do ... while] loop of [FindMaster]; [pMaster] is what [*pMaster]
    holds, [fuel] bounds the number of turns and [None] means it was
    exhausted. *)
Fixpoint FindMaster_loop (fuel : nat) (srv : xserver) (w pMaster : Z)
  : option Z :=
  match fuel with
  | O => None
  | S fuel' =>
      match XQueryTree srv w with
      | Some (wRoot, wParent, _) =>
          if wParent =? wRoot then Some w
          else FindMaster_loop fuel' srv wParent pMaster
      | None => Some pMaster
      end
  end.

(** [FindMaster]: the result is [*pMaster]. *)
Definition FindMaster (fuel : nat) (srv : xserver) (w : Z) : option Z :=
  FindMaster_loop fuel srv w w.

(** ** FindVlcWindow *)

Definition FSPLAYER_LIBVLCWMNAME : string := "VLC media player".
Definition FSPLAYER_WMNAME : string := "fsplayer".



(** From [w], with [d] turns or more, the loop of [FindMaster] ends on
    [res]. *)
Definition climbs (srv : xserver) (pm w : Z) (d : nat) (res : Z) : Prop :=
  forall fuel, (d <= fuel)%nat -> FindMaster_loop fuel srv w pm = Some res.

(** ** The key chain *)

(** The key code [main] holds for a branch of the chain. *)
Definition key_code (c : Fsplayer.KeyCodes) (k : Fsplayer.key) : Z :=
  match k with
  | Fsplayer.KDown => Fsplayer.kcDown c
  | Fsplayer.KEnd => Fsplayer.kcEnd c
  | Fsplayer.KEsc => Fsplayer.kcEsc c
  | Fsplayer.KHome => Fsplayer.kcHome c
  | Fsplayer.KKpBegin => Fsplayer.kcKpBegin c
  | Fsplayer.KKpDown => Fsplayer.kcKpDown c
  | Fsplayer.KKpEnd => Fsplayer.kcKpEnd c
  | Fsplayer.KKpHome => Fsplayer.kcKpHome c
  | Fsplayer.KKpLeft => Fsplayer.kcKpLeft c
  | Fsplayer.KKpMinus => Fsplayer.kcKpMinus c
  | Fsplayer.KKpMult => Fsplayer.kcKpMult c
  | Fsplayer.KKpPageDown => Fsplayer.kcKpPageDown c
  | Fsplayer.KKpPageUp => Fsplayer.kcKpPageUp c
  | Fsplayer.KKpPlus => Fsplayer.kcKpPlus c
  | Fsplayer.KKpRight => Fsplayer.kcKpRight c
  | Fsplayer.KKpUp => Fsplayer.kcKpUp c
  | Fsplayer.KLeft => Fsplayer.kcLeft c
  | Fsplayer.KPgDown => Fsplayer.kcPgDown c
  | Fsplayer.KPgUp => Fsplayer.kcPgUp c
  | Fsplayer.KRight => Fsplayer.kcRight c
  | Fsplayer.KSpace => Fsplayer.kcSpace c
  | Fsplayer.KUp => Fsplayer.kcUp c
  end.

(** The condition a branch has besides its key code: the one of the keypad
    [*] asks for more than one audio track. *)
Definition branch_open (ses : Fsplayer.session) (k : Fsplayer.key) : bool :=
  match k with
  | Fsplayer.KKpMult => 1 <? Fsplayer.iNumVlcAudioTracks ses
  | _ => true
  end.

(** Each forward seek with the backward seek of the same step. *)
Definition seek_pairs : list (Fsplayer.key * Fsplayer.key * Z) :=
  [(Fsplayer.KRight, Fsplayer.KLeft, FSPLAYER_10SEC);
   (Fsplayer.KUp, Fsplayer.KDown, FSPLAYER_1MIN);
   (Fsplayer.KPgUp, Fsplayer.KPgDown, FSPLAYER_10MIN)].

Definition win32_seek_pairs : list (Win32.vkey * Win32.vkey * Z) :=
  [(Win32.vkRight, Win32.vkLeft, FSPLAYER_10SEC);
   (Win32.vkUp, Win32.vkDown, FSPLAYER_1MIN);
   (Win32.vkPrior, Win32.vkNext, FSPLAYER_10MIN)].

(** ** Runs of main *)

(** The answers with which the blocks up to [XInternAtom] succeed, and
    those with which the blocks on the engine do. *)
Definition x11_ready (e : Main.env) : Prop :=
  Main.argc e = 2
  /\ Main.file_exists e = true
  /\ Main.open_display e <> 0
  /\ Main.vlc_window_present e = false
  /\ Main.create_window e <> 0
  /\ Main.atoms_interned e = true.

Definition engine_ready (e : Main.env) : Prop :=
  Main.vlc_new e <> 0
  /\ Main.media_new e <> 0
  /\ Main.player_new e <> 0
  /\ Main.video_get_size e = 0
  /\ 0 < Main.media_length e
  /\ (1 < Main.track_count e -> Main.malloc_tracks e <> 0)
  /\ Main.vlc_window_found e = true
  /\ Main.second_play e = 0.

(** A call into the engine, or [free]. *)
Definition is_engine_call (c : Main.call) : bool :=
  match c with
  | Main.OnDisplay _ _ | Main.OnWindow _ _ _ => false
  | _ => true
  end.

Definition no_engine_call (cs : list Main.call) : Prop :=
  forallb (fun c => negb (is_engine_call c)) cs = true.


(** The calls of the teardown, read off the locals it is entered with. *)
Definition teardown_calls (l : Main.locals) : list Main.call :=
  (if Main.iPlay l
   then [Main.OnPlayer "libvlc_media_player_stop" (Main.pVlcPlayer l)]
   else [])
  ++ (if negb (Main.wTaskbar l =? 0)
      then [Main.OnWindow "XMapRaised" (Main.pX11Display l)
              (Main.wTaskbar l);
            Main.OnWindow "XGetWindowAttributes" (Main.pX11Display l)
              (Main.wTaskbar l)]
      else [])
  ++ (if negb (Main.pVlcPlayer l =? 0)
      then [Main.OnPlayer "libvlc_media_player_release"
              (Main.pVlcPlayer l)]
      else [])
  ++ (if negb (Main.pVlcInst l =? 0)
      then [Main.OnInstance "libvlc_release" (Main.pVlcInst l)]
      else [])
  ++ (if negb (Main.pVlcAudioTrackId l =? 0)
      then [Main.Free (Main.pVlcAudioTrackId l)]
      else [])
  ++ (if negb (Main.wInput l =? 0)
      then [Main.OnWindow "XDestroyWindow" (Main.pX11Display l)
              (Main.wInput l)]
      else [])
  ++ (if negb (Main.pX11Display l =? 0)
      then [Main.OnDisplay "XCloseDisplay" (Main.pX11Display l)]
      else []).



(** No call into the engine so far, and no engine handle held. *)
Definition engine_idle (l : Main.locals) : Prop :=
  no_engine_call (Main.calls l)
  /\ Main.iPlay l = false
  /\ Main.pVlcInst l = 0
  /\ Main.pVlcPlayer l = 0
  /\ Main.pVlcAudioTrackId l = 0.

(** fsplayer started on a film, every request answered well; the user
    leaves with escape. *)
Definition plays_film : Main.env :=
  {| Main.argc := 2; Main.file_exists := true; Main.open_display := 1000;
     Main.vlc_window_present := false; Main.create_window := 5;
     Main.atoms_interned := true; Main.vlc_new := 2000;
     Main.media_new := 3000; Main.player_new := 4000;
     Main.first_play := 0; Main.video_get_size := 0;
     Main.media_length := 125000; Main.track_count := 3;
     Main.malloc_tracks := 5000; Main.vlc_window_found := true;
     Main.taskbar := 3; Main.second_play := 0; Main.loop_error := 0;
     Main.indeterminate_wInput := 77 |}.

(** ** The list of audio tracks *)

(** [memset (p, 0, sizeof (n * sizeof (int)))]: the size is that of the
    [size_t] product, not the product, so the call clears the [cells]
    first ints a [size_t] spans (two on a 64-bit system, one on a 32-bit
    one), whatever [n] is. *)
Definition memset_size_t (cells : nat) (a : list Z) : list Z :=
  replicate (Nat.min cells (length a)) 0 ++ drop cells a.

(** [for (i = ...; pVlcATD && i < n; i++) { p[i] = pVlcATD->i_id;
    pVlcATD = pVlcATD->p_next; }] on the ids of the description list. *)
Fixpoint copy_ids (n : Z) (i : nat) (desc a : list Z) : list Z :=
  match desc with
  | [] => a
  | id :: rest =>
      if Z.of_nat i <? n then copy_ids n (S i) rest (<[i := id]> a) else a
  end.

(** The array once the list has been read: [heap] is what [malloc] handed
    out, [desc] the ids of the description list, empty for [NULL]. *)
Definition read_track_ids (cells : nat) (n : Z) (heap desc : list Z)
  : list Z :=
  copy_ids n 0 desc (memset_size_t cells heap).

(** The track count the Win32 build goes on with: 0 without a description
    list.  The X11 build keeps [n]. *)
Definition win32_track_count (n : Z) (desc : list Z) : Z :=
  match desc with
  | [] => 0
  | _ => n
  end.

(** ** The life of the form of win32/main.cpp *)

Module Form.

Definition ERROR_FSPLAYER_USAGE : Z := 1.
Definition ERROR_FSPLAYER_MEM : Z := 2.
Definition ERROR_FSPLAYER_VLC : Z := 3.
Definition FSPLAYER_STATE_PLAYING : Z := 1.

(** What the outside answers to the requests of [FormCreate]. *)
Record env := {
  iScrX : Z;                          (* GetSystemMetrics (SM_CXSCREEN) *)
  iScrY : Z;                          (* GetSystemMetrics (SM_CYSCREEN) *)
  param_count : Z;                    (* ParamCount () *)
  param_usable : bool;                (* FileExists (...) && Length () < LNSZ *)
  dialog_chosen : bool;               (* rfOpen->Execute () *)
  vlc_new : Z;                        (* libvlc_new *)
  media_new : Z;                      (* libvlc_media_new_path *)
  player_new : Z;                     (* libvlc_media_player_new_from_media *)
  iVidX : Z;                          (* after libvlc_video_get_size *)
  iVidY : Z;
  media_length : Z;                   (* libvlc_media_player_get_length *)
  track_count : Z;                    (* libvlc_audio_get_track_count *)
  malloc_tracks : option (list Z);    (* malloc: the block, or NULL *)
  size_t_cells : nat;                 (* sizeof (size_t) / sizeof (int) *)
  track_description : list Z          (* the ids of the list, [] for NULL *)
}.

(** The bounds of the panel [rrView]. *)
Record view := { Left : Z; Top : Z; Width : Z; Height : Z }.

(** The global variables, the panel, what the form did to the
    application, and the calls made on the engine. *)
Record form := {
  giErr : Z;
  giState : Z;
  giNumVlcAudioTracks : Z;
  giVlcAudioTrack : Z;
  gpVlcAudioTrackId : option (list Z);
  giEndTimeMs : Z;
  gpVlcInst : Z;
  gpVlcPlayer : Z;
  rrView : view;
  dialog_shown : bool;
  hidden : bool;
  message : option Z;
  terminated : bool;
  calls : list Main.call
}.

Definition set_giErr (v : Z) (f : form) : form :=
  {| giErr := v; giState := giState f;
     giNumVlcAudioTracks := giNumVlcAudioTracks f;
     giVlcAudioTrack := giVlcAudioTrack f;
     gpVlcAudioTrackId := gpVlcAudioTrackId f;
     giEndTimeMs := giEndTimeMs f; gpVlcInst := gpVlcInst f;
     gpVlcPlayer := gpVlcPlayer f; rrView := rrView f;
     dialog_shown := dialog_shown f; hidden := hidden f;
     message := message f; terminated := terminated f; calls := calls f |}.

Definition set_giState (v : Z) (f : form) : form :=
  {| giErr := giErr f; giState := v;
     giNumVlcAudioTracks := giNumVlcAudioTracks f;
     giVlcAudioTrack := giVlcAudioTrack f;
     gpVlcAudioTrackId := gpVlcAudioTrackId f;
     giEndTimeMs := giEndTimeMs f; gpVlcInst := gpVlcInst f;
     gpVlcPlayer := gpVlcPlayer f; rrView := rrView f;
     dialog_shown := dialog_shown f; hidden := hidden f;
     message := message f; terminated := terminated f; calls := calls f |}.

Definition set_giNumVlcAudioTracks (v : Z) (f : form) : form :=
  {| giErr := giErr f; giState := giState f; giNumVlcAudioTracks := v;
     giVlcAudioTrack := giVlcAudioTrack f;
     gpVlcAudioTrackId := gpVlcAudioTrackId f;
     giEndTimeMs := giEndTimeMs f; gpVlcInst := gpVlcInst f;
     gpVlcPlayer := gpVlcPlayer f; rrView := rrView f;
     dialog_shown := dialog_shown f; hidden := hidden f;
     message := message f; terminated := terminated f; calls := calls f |}.

Definition set_gpVlcAudioTrackId (v : option (list Z)) (f : form) : form :=
  {| giErr := giErr f; giState := giState f;
     giNumVlcAudioTracks := giNumVlcAudioTracks f;
     giVlcAudioTrack := giVlcAudioTrack f; gpVlcAudioTrackId := v;
     giEndTimeMs := giEndTimeMs f; gpVlcInst := gpVlcInst f;
     gpVlcPlayer := gpVlcPlayer f; rrView := rrView f;
     dialog_shown := dialog_shown f; hidden := hidden f;
     message := message f; terminated := terminated f; calls := calls f |}.

Definition set_giEndTimeMs (v : Z) (f : form) : form :=
  {| giErr := giErr f; giState := giState f;
     giNumVlcAudioTracks := giNumVlcAudioTracks f;
     giVlcAudioTrack := giVlcAudioTrack f;
     gpVlcAudioTrackId := gpVlcAudioTrackId f; giEndTimeMs := v;
     gpVlcInst := gpVlcInst f; gpVlcPlayer := gpVlcPlayer f;
     rrView := rrView f; dialog_shown := dialog_shown f;
     hidden := hidden f; message := message f; terminated := terminated f;
     calls := calls f |}.

Definition set_gpVlcInst (v : Z) (f : form) : form :=
  {| giErr := giErr f; giState := giState f;
     giNumVlcAudioTracks := giNumVlcAudioTracks f;
     giVlcAudioTrack := giVlcAudioTrack f;
     gpVlcAudioTrackId := gpVlcAudioTrackId f;
     giEndTimeMs := giEndTimeMs f; gpVlcInst := v;
     gpVlcPlayer := gpVlcPlayer f; rrView := rrView f;
     dialog_shown := dialog_shown f; hidden := hidden f;
     message := message f; terminated := terminated f; calls := calls f |}.

Definition set_gpVlcPlayer (v : Z) (f : form) : form :=
  {| giErr := giErr f; giState := giState f;
     giNumVlcAudioTracks := giNumVlcAudioTracks f;
     giVlcAudioTrack := giVlcAudioTrack f;
     gpVlcAudioTrackId := gpVlcAudioTrackId f;
     giEndTimeMs := giEndTimeMs f; gpVlcInst := gpVlcInst f;
     gpVlcPlayer := v; rrView := rrView f; dialog_shown := dialog_shown f;
     hidden := hidden f; message := message f; terminated := terminated f;
     calls := calls f |}.

Definition set_rrView (v : view) (f : form) : form :=
  {| giErr := giErr f; giState := giState f;
     giNumVlcAudioTracks := giNumVlcAudioTracks f;
     giVlcAudioTrack := giVlcAudioTrack f;
     gpVlcAudioTrackId := gpVlcAudioTrackId f;
     giEndTimeMs := giEndTimeMs f; gpVlcInst := gpVlcInst f;
     gpVlcPlayer := gpVlcPlayer f; rrView := v;
     dialog_shown := dialog_shown f; hidden := hidden f;
     message := message f; terminated := terminated f; calls := calls f |}.

Definition set_dialog_shown (v : bool) (f : form) : form :=
  {| giErr := giErr f; giState := giState f;
     giNumVlcAudioTracks := giNumVlcAudioTracks f;
     giVlcAudioTrack := giVlcAudioTrack f;
     gpVlcAudioTrackId := gpVlcAudioTrackId f;
     giEndTimeMs := giEndTimeMs f; gpVlcInst := gpVlcInst f;
     gpVlcPlayer := gpVlcPlayer f; rrView := rrView f; dialog_shown := v;
     hidden := hidden f; message := message f; terminated := terminated f;
     calls := calls f |}.

Definition emit (cs : list Main.call) (f : form) : form :=
  {| giErr := giErr f; giState := giState f;
     giNumVlcAudioTracks := giNumVlcAudioTracks f;
     giVlcAudioTrack := giVlcAudioTrack f;
     gpVlcAudioTrackId := gpVlcAudioTrackId f;
     giEndTimeMs := giEndTimeMs f; gpVlcInst := gpVlcInst f;
     gpVlcPlayer := gpVlcPlayer f; rrView := rrView f;
     dialog_shown := dialog_shown f; hidden := hidden f;
     message := message f; terminated := terminated f;
     calls := calls f ++ cs |}.

(** [giState = 0; Hide (); Application->MessageBox (...);
    Application->Terminate (); giErr = 0;] *)
Definition leave_with_message (f : form) : form :=
  {| giErr := 0; giState := 0;
     giNumVlcAudioTracks := giNumVlcAudioTracks f;
     giVlcAudioTrack := giVlcAudioTrack f;
     gpVlcAudioTrackId := gpVlcAudioTrackId f;
     giEndTimeMs := giEndTimeMs f; gpVlcInst := gpVlcInst f;
     gpVlcPlayer := gpVlcPlayer f; rrView := rrView f;
     dialog_shown := dialog_shown f; hidden := true;
     message := Some (giErr f); terminated := true; calls := calls f |}.


(** The globals as they are initialised, with the panel as designed. *)
Definition initial (designed : view) : form :=
  {| giErr := 0; giState := 0; giNumVlcAudioTracks := 0;
     giVlcAudioTrack := 0; gpVlcAudioTrackId := None; giEndTimeMs := 0;
     gpVlcInst := 0; gpVlcPlayer := 0; rrView := designed;
     dialog_shown := false; hidden := false; message := None;
     terminated := false; calls := [] |}.

(** [if (!giErr) { ... }] *)
Definition unless_error (b : form -> form) (f : form) : form :=
  if giErr f =? 0 then b f else f.

(** The file of the command line, else the one of the dialog. *)
Definition choose_the_file (e : env) (f : form) : form :=
  let named := (param_count e =? 1) && param_usable e in
  let '(named, f) :=
    if negb named then (dialog_chosen e, set_dialog_shown true f)
    else (named, f) in
  if negb named then set_giErr ERROR_FSPLAYER_USAGE f else f.

Definition load_the_engine (e : env) (f : form) : form :=
  let f := set_gpVlcInst (vlc_new e) f in
  if gpVlcInst f =? 0 then set_giErr ERROR_FSPLAYER_VLC f else f.

Definition create_the_player (e : env) (f : form) : form :=
  let f := emit [Main.OnInstance "libvlc_media_new_path" (gpVlcInst f)] f in
  let pVlcMedia := media_new e in
  if negb (pVlcMedia =? 0) then
    let f := emit [Main.OnMedia "libvlc_media_player_new_from_media"
                     pVlcMedia] f in
    let f := set_gpVlcPlayer (player_new e) f in
    let f := if gpVlcPlayer f =? 0 then set_giErr ERROR_FSPLAYER_VLC f
             else f in
    emit [Main.OnMedia "libvlc_media_release" pVlcMedia] f
  else set_giErr ERROR_FSPLAYER_VLC f.

Definition play_paused (e : env) (f : form) : form :=
  let p := gpVlcPlayer f in
  let f := emit [Main.OnPlayer "libvlc_media_player_set_hwnd" p;
                 Main.OnPlayer "libvlc_video_set_key_input" p;
                 Main.OnPlayer "libvlc_media_player_play" p;
                 Main.OnPlayer "libvlc_media_player_set_pause" p;
                 Main.OnPlayer "libvlc_video_get_size" p;
                 Main.OnPlayer "libvlc_media_player_get_length" p] f in
  let f := set_giEndTimeMs (media_length e) f in
  if giEndTimeMs f <=? 0 then set_giErr ERROR_FSPLAYER_VLC f else f.

Definition read_the_tracks (e : env) (f : form) : form :=
  let p := gpVlcPlayer f in
  let f := emit [Main.OnPlayer "libvlc_audio_get_track_count" p] f in
  let f := set_giNumVlcAudioTracks (track_count e) f in
  if 1 <? giNumVlcAudioTracks f then
    match malloc_tracks e with
    | Some heap =>
        let a := memset_size_t (size_t_cells e) heap in
        let f := emit [Main.OnPlayer "libvlc_audio_get_track_description" p]
                      f in
        match track_description e with
        | [] => set_giNumVlcAudioTracks 0 (set_gpVlcAudioTrackId (Some a) f)
        | desc =>
            set_gpVlcAudioTrackId
              (Some (copy_ids (giNumVlcAudioTracks f) 0 desc a)) f
        end
    | None => set_giErr ERROR_FSPLAYER_MEM f
    end
  else f.

(** The panel: the whole screen for a video at least as wide or as high
    as the screen, else the size of the video, in the middle. *)
Definition place_view (iScrX iScrY iVidX iVidY : Z) : view :=
  if (iScrX <=? to_int iVidX) || (iScrY <=? to_int iVidY)
  then {| Left := 0; Top := 0; Width := iScrX; Height := iScrY |}
  else {| Left := to_int (u32 (iScrX - iVidX) / 2);
          Top := to_int (u32 (iScrY - iVidY) / 2);
          Width := to_int iVidX; Height := to_int iVidY |}.

Definition show_and_play (e : env) (f : form) : form :=
  let f := set_rrView (place_view (iScrX e) (iScrY e) (iVidX e) (iVidY e))
                      f in
  let f := emit [Main.OnPlayer "libvlc_media_player_set_time"
                   (gpVlcPlayer f);
                 Main.OnPlayer "libvlc_media_player_play" (gpVlcPlayer f)]
                f in
  set_giState FSPLAYER_STATE_PLAYING f.

(** [if (giErr) { ... }] *)
Definition report_error (f : form) : form :=
  if negb (giErr f =? 0) then leave_with_message f else f.

Definition FormCreate (e : env) (designed : view) : form :=
  let f := choose_the_file e (initial designed) in
  let f := unless_error (load_the_engine e) f in
  let f := unless_error (create_the_player e) f in
  let f := unless_error (play_paused e) f in
  let f := unless_error (read_the_tracks e) f in
  let f := unless_error (show_and_play e) f in
  report_error f.

Definition FormClose (f : form) : form :=
  if negb (gpVlcPlayer f =? 0)
  then emit [Main.OnPlayer "libvlc_media_player_stop" (gpVlcPlayer f)] f
  else f.

(** [~TrfMain]. *)
Definition release_the_player (f : form) : form :=
  if negb (gpVlcPlayer f =? 0)
  then set_gpVlcPlayer 0
         (emit [Main.OnPlayer "libvlc_media_player_release"
                  (gpVlcPlayer f)] f)
  else f.

Definition release_the_instance (f : form) : form :=
  if negb (gpVlcInst f =? 0)
  then set_gpVlcInst 0
         (emit [Main.OnInstance "libvlc_release" (gpVlcInst f)] f)
  else f.

Definition destructor (f : form) : form :=
  release_the_instance (release_the_player f).

(** The answers with which [FormCreate] starts the playback. *)
Definition start_ok (e : env) : Prop :=
  ((param_count e = 1 /\ param_usable e = true) \/ dialog_chosen e = true)
  /\ vlc_new e <> 0
  /\ media_new e <> 0
  /\ player_new e <> 0
  /\ 0 < media_length e
  /\ (1 < track_count e -> malloc_tracks e <> None).

(** A call on a live engine handle, or on the display; not a [free]. *)
Definition live_handle (c : Main.call) : bool :=
  match c with
  | Main.Free _ => false
  | _ => Main.engine_handle_ok c
  end.

(** The calls made so far were made on live handles, and nothing was
    freed. *)
Definition calls_ok (f : form) : Prop :=
  forallb live_handle (calls f) = true.

(** Nothing shown, hidden or started yet. *)
Definition quiet (designed : view) (f : form) : Prop :=
  giState f = 0 /\ giVlcAudioTrack f = 0 /\ rrView f = designed
  /\ hidden f = false /\ message f = None /\ terminated f = false.

(** What the key handler needs of the track list: as many cells as
    tracks, and the cursor on one of them. *)
Definition tracks_ready (f : form) : Prop :=
  1 < giNumVlcAudioTracks f ->
  exists ids,
    gpVlcAudioTrackId f = Some ids
    /\ Z.of_nat (length ids) = giNumVlcAudioTracks f
    /\ 0 <= giVlcAudioTrack f < giNumVlcAudioTracks f.

(** The form before the last block of [FormCreate]. *)
Definition before_show (e : env) (d : view) : form :=
  unless_error (read_the_tracks e)
    (unless_error (play_paused e)
       (unless_error (create_the_player e)
          (unless_error (load_the_engine e)
             (choose_the_file e (initial d))))).

(** A block that runs on the player and leaves the pointer alone. *)
Definition player_block (b : form -> form) : Prop :=
  forall f,
    calls_ok f -> gpVlcPlayer f <> 0 ->
    calls_ok (b f) /\ gpVlcPlayer (b f) = gpVlcPlayer f.

End Form.

(** ** FilenameExist *)

(** The file type bits of [st_mode] in <sys/stat.h>. *)
Definition S_IFMT : Z := 61440.     (* 0170000 *)
Definition S_IFIFO : Z := 4096.     (* 0010000 *)
Definition S_IFCHR : Z := 8192.     (* 0020000 *)
Definition S_IFDIR : Z := 16384.    (* 0040000 *)
Definition S_IFBLK : Z := 24576.    (* 0060000 *)
Definition S_IFREG : Z := 32768.    (* 0100000 *)
Definition S_IFSOCK : Z := 49152.   (* 0140000 *)

(** [st] is the [st_mode] that [stat] stored, or [None] when it failed. *)
Definition FilenameExist (st : option Z) : Z :=
  let i := match st with Some _ => 1 | None => 0 end in
  match st with
  | Some st_mode => if negb (i =? 0) then Z.land st_mode S_IFREG else i
  | None => i
  end.

(** The Win32 build started on a film with three audio tracks, and started
    without a file, the dialog cancelled. *)
Definition form_plays_film : Form.env :=
  {| Form.iScrX := 1920; Form.iScrY := 1080; Form.param_count := 1;
     Form.param_usable := true; Form.dialog_chosen := false;
     Form.vlc_new := 2000; Form.media_new := 3000;
     Form.player_new := 4000; Form.iVidX := 640; Form.iVidY := 480;
     Form.media_length := 125000; Form.track_count := 3;
     Form.malloc_tracks := Some [91; 92; 93]; Form.size_t_cells := 1;
     Form.track_description := [2; 5; 7] |}.

Definition form_without_file : Form.env :=
  {| Form.iScrX := 1920; Form.iScrY := 1080; Form.param_count := 0;
     Form.param_usable := false; Form.dialog_chosen := false;
     Form.vlc_new := 2000; Form.media_new := 3000;
     Form.player_new := 4000; Form.iVidX := 640; Form.iVidY := 480;
     Form.media_length := 125000; Form.track_count := 3;
     Form.malloc_tracks := Some [91; 92; 93]; Form.size_t_cells := 1;
     Form.track_description := [2; 5; 7] |}.

Definition designed_view : Form.view :=
  {| Form.Left := 0; Form.Top := 0; Form.Width := 320; Form.Height := 240 |}.

(** ** The placement at the end of the start-up of fsplayer.c *)

(** [FindMaster] of the input window, then either the engine's window made
    fullscreen, for a video at least as wide or as high as the screen, or
    the input window made fullscreen and the master of the engine's window
    centred.  The result is the server afterwards and [wInputMaster]. *)
Definition place_windows (fuel : nat) (srv : xserver)
    (wInput wVlc wMaster wRoot vidx vidy scrx scry : Z)
  : option (xserver * Z) :=
  match FindMaster fuel srv wInput with
  | None => None
  | Some wInputMaster =>
      Some (if (scrx <=? vidx) || (scry <=? vidy)
            then SetWindowFullscreen srv wVlc wMaster wRoot scrx scry
            else PositionWindow
                   (SetWindowFullscreen srv wInput wInputMaster wRoot
                      scrx scry)
                   wMaster 5 scrx scry,
            wInputMaster)
  end.
(** * Lemmas on the window search *)

Section WtreeInd.

Variable P : wtree -> Prop.
Hypothesis Hnode :
  forall w cs subs, Forall P subs -> P (WNode w cs subs).

Lemma wtree_ind' : forall t, P t.
Proof.
  fix IH 1. intros [w cs subs]. apply Hnode.
  induction subs as [|s subs IHs]; constructor; [apply IH | exact IHs].
Qed.

End WtreeInd.

Lemma represents_subs srv w subs :
  fold_right (fun s P => represents srv w s /\ P) True subs
  <-> Forall (represents srv w) subs.
Proof.
  induction subs as [|s subs IH]; simpl.
  - split; [constructor | trivial].
  - rewrite IH. split.
    + intros [H1 H2]. constructor; assumption.
    + intros H. inversion H; subst. split; assumption.
Qed.

Lemma depth_sub s subs :
  In s subs -> (depth s <= list_max (map depth subs))%nat.
Proof.
  induction subs as [|a subs IH]; simpl; [tauto|].
  intros [->|H]; [lia | specialize (IH H); lia].
Qed.

Lemma find_app_first (f : Z -> bool) l1 l2 :
  List.find f (l1 ++ l2)
  = match List.find f l1 with
    | Some m => Some m
    | None => List.find f l2
    end.
Proof.
  induction l1 as [|a l1 IH]; simpl; [reflexivity|].
  destruct (f a); [reflexivity | exact IH].
Qed.

Lemma upto_app f l1 l2 :
  upto f (l1 ++ l2)
  = match List.find f l1 with
    | Some _ => upto f l1
    | None => l1 ++ upto f l2
    end.
Proof.
  induction l1 as [|a l1 IH]; simpl; [reflexivity|].
  destruct (f a); [reflexivity|].
  rewrite IH. destruct (List.find f l1); reflexivity.
Qed.

Lemma search_result_app f st l1 l2 :
  search_result f st (l1 ++ l2)
  = match search_result f st l1 with
    | (true, st') => (true, st')
    | (false, st') => search_result f st' l2
    end.
Proof.
  unfold search_result. rewrite find_app_first, upto_app.
  destruct (List.find f l1); [reflexivity|]. simpl.
  destruct (List.find f l2); rewrite <- app_assoc; reflexivity.
Qed.

Lemma find_none_forall (f : Z -> bool) l :
  (forall w, In w l -> f w = false) -> List.find f l = None.
Proof.
  induction l as [|a l IH]; simpl; intros H; [reflexivity|].
  rewrite (H a) by (left; reflexivity). apply IH. intros w Hw.
  apply H. right. exact Hw.
Qed.

Lemma find_some_in (f : Z -> bool) l m :
  List.find f l = Some m -> In m l /\ f m = true.
Proof.
  induction l as [|a l IH]; simpl; [discriminate|].
  destruct (f a) eqn:Ha.
  - intros [= <-]. split; [left; reflexivity | exact Ha].
  - intros H. destruct (IH H) as [H1 H2]. split; [right|]; assumption.
Qed.

(** The loop over the listed children visits the genuine children in order,
    provided the recursive call behaves as [search_result] on each. *)
Lemma scan_children_spec f rec w wRoot wParent :
  forall cs subs st,
    List.filter (descend w wRoot wParent) cs = map tree_id subs ->
    Forall (fun s => forall st',
              rec (tree_id s) st' = Some (search_result f st' (tree_ids s)))
           subs ->
    scan_children rec w wRoot wParent cs st
    = Some (scan_result f (w =? wRoot) st subs).
Proof.
  induction cs as [|c cs IH]; intros subs st Hf Hrec; simpl in *.
  - destruct subs; [reflexivity | discriminate].
  - destruct (descend w wRoot wParent c) eqn:Hd.
    + destruct subs as [|s subs]; [discriminate|].
      simpl in Hf. injection Hf as -> Hf.
      inversion Hrec as [|? ? Hs Hrest]; subst.
      simpl. rewrite Hs.
      destruct (search_result f _ (tree_ids s)) as [[|] st2];
        [reflexivity|].
      apply IH; assumption.
    + apply IH; assumption.
Qed.

Lemma scan_result_below f st subs :
  scan_result f false st subs
  = search_result f st (flat_map tree_ids subs).
Proof.
  revert st. induction subs as [|s subs IH]; intros st; simpl.
  - unfold search_result. simpl. rewrite app_nil_r. destruct st; reflexivity.
  - rewrite search_result_app.
    destruct (search_result f st (tree_ids s)) as [[|] st2];
      [reflexivity | apply IH].
Qed.

Section Search.

Variable srv : xserver.
Variables aName aType : Z.
Variable szValue : string.

Let f := name_matches srv aName aType szValue.

(** Below the root, [FindX11Window] reads the windows of the hierarchy in
    order up to the first match and leaves the master alone. *)
Lemma find_below_root :
  forall t p fuel st,
    represents srv p t ->
    ~ In (x_root srv) (tree_ids t) ->
    (depth t <= fuel)%nat ->
    FindX11Window fuel srv (tree_id t) aName aType szValue st
    = Some (search_result f st (tree_ids t)).
Proof.
  induction t as [w cs subs IH] using wtree_ind'.
  intros p fuel st (Hq & Hf & Hsubs) Hroot Hfuel.
  apply represents_subs in Hsubs.
  destruct fuel as [|fuel]; [simpl in Hfuel; lia|].
  cbn [tree_id tree_ids depth] in *.
  simpl FindX11Window. fold f.
  unfold search_result at 1. simpl List.find. simpl upto.
  destruct (f w) eqn:Hw.
  - unfold set_return, log_query. simpl. reflexivity.
  - rewrite Hq.
    assert (Hne : (w =? x_root srv) = false).
    { apply Z.eqb_neq. intros ->. apply Hroot. left. reflexivity. }
    rewrite (scan_children_spec f _ w (x_root srv) p cs subs); [|exact Hf|].
    + rewrite Hne, scan_result_below. unfold search_result. simpl.
      destruct (List.find f (flat_map tree_ids subs));
        rewrite <- app_assoc; reflexivity.
    + rewrite List.Forall_forall in *. intros s Hs st'.
      apply (IH s Hs w).
      * apply Hsubs. exact Hs.
      * intros Hin. apply Hroot. right. apply in_flat_map. eauto.
      * pose proof (depth_sub s subs Hs). lia.
Qed.

(** At the root the search either matches the root itself or scans the
    genuine children, recording each one as the master before descending. *)
Lemma find_at_root :
  forall t p fuel st,
    represents srv p t ->
    tree_id t = x_root srv ->
    List.NoDup (tree_ids t) ->
    (depth t <= fuel)%nat ->
    FindX11Window fuel srv (x_root srv) aName aType szValue st
    = Some (if f (x_root srv)
            then (true, set_return (x_root srv) (log_query (x_root srv) st))
            else scan_result f true (log_query (x_root srv) st)
                   (tree_subs t)).
Proof.
  intros [w cs subs] p fuel st (Hq & Hf & Hsubs) Hid Hnd Hfuel.
  apply represents_subs in Hsubs.
  cbn [tree_id tree_ids tree_subs depth] in *. subst w.
  destruct fuel as [|fuel]; [lia|].
  simpl FindX11Window. fold f.
  destruct (f (x_root srv)); [reflexivity|].
  rewrite Hq.
  rewrite (scan_children_spec f _ _ (x_root srv) p cs subs); [|exact Hf|].
  - rewrite Z.eqb_refl. reflexivity.
  - rewrite List.Forall_forall in *. intros s Hs st'.
    apply (find_below_root s (x_root srv)).
    + apply Hsubs. exact Hs.
    + intros Hin. apply List.NoDup_cons_iff in Hnd as [Hnd _].
      apply Hnd. apply in_flat_map. eauto.
    + pose proof (depth_sub s subs Hs). lia.
Qed.

Lemma scan_root_none :
  forall subs st,
    (forall w, In w (flat_map tree_ids subs) -> f w = false) ->
    exists st',
      scan_result f true st subs = (false, st')
      /\ pReturn st' = pReturn st
      /\ queried st' = queried st ++ flat_map tree_ids subs.
Proof.
  induction subs as [|s subs IH]; intros st Hno; simpl.
  - exists st. rewrite app_nil_r. auto.
  - unfold search_result.
    rewrite find_none_forall
      by (intros w Hw; apply Hno; simpl; apply in_or_app; left; exact Hw).
    destruct (IH {| pReturn := pReturn (set_master (tree_id s) st);
                    pMaster := pMaster (set_master (tree_id s) st);
                    queried := queried (set_master (tree_id s) st)
                               ++ tree_ids s |})
      as (st' & E & R & Q).
    { intros w Hw. apply Hno. simpl. apply in_or_app. right. exact Hw. }
    exists st'. rewrite E. simpl in *. rewrite Q, <- app_assoc. auto.
Qed.


End Search.

(** * The window tree walker *)

(** C8.  In a finite window hierarchy none of whose windows carries the
    searched name, and whose children lists may hold back-edges to the
    window itself, the root or the parent, [FindX11Window] started at the
    root returns not-found, leaves the returned window as it was, and reads
    every window of the hierarchy exactly once (the windows of distinct
    nodes being distinct): the trace of its reads is the list of the
    windows, parents first, which has no duplicate. *)
Theorem FindX11Window_no_match_single_visit :
  forall (srv : xserver) (aName aType : Z) (szValue : string)
         (t : wtree) (p : Z) (fuel : nat) (st : find_st),
    represents srv p t ->
    tree_id t = x_root srv ->
    List.NoDup (tree_ids t) ->
    (forall w, In w (tree_ids t) ->
               name_matches srv aName aType szValue w = false) ->
    (depth t <= fuel)%nat ->
    exists st' tr,
      FindX11Window fuel srv (x_root srv) aName aType szValue st
      = Some (false, st')
      /\ pReturn st' = pReturn st
      /\ queried st' = queried st ++ tr
      /\ tr = tree_ids t
      /\ List.NoDup tr.
Proof.
  intros srv aName aType szValue t p fuel st Hrep Hid Hnd Hno Hfuel.
  rewrite (find_at_root srv aName aType szValue t p fuel st)
    by assumption.
  destruct t as [w cs subs]. cbn [tree_id tree_ids tree_subs] in *. subst w.
  rewrite (Hno (x_root srv)) by (left; reflexivity).
  destruct (scan_root_none srv aName aType szValue subs
              (log_query (x_root srv) st)) as (st' & E & R & Q).
  { intros w Hw. apply Hno. right. exact Hw. }
  exists st', (x_root srv :: flat_map tree_ids subs).
  rewrite E, R, Q. simpl. rewrite <- app_assoc. auto.
Qed.

Lemma FindX11Window_no_match_single_visit_witness :
  exists st' tr,
    FindX11Window 3 Examples.desktop 1 Examples.XA_WM_NAME
      Examples.XA_STRING "xload" find_init = Some (false, st')
    /\ pReturn st' = 0
    /\ queried st' = [] ++ tr
    /\ tr = [1; 2; 4; 3]
    /\ List.NoDup tr.
Proof.
  apply (FindX11Window_no_match_single_visit Examples.desktop
           Examples.XA_WM_NAME Examples.XA_STRING "xload"
           Examples.desktop_tree 0 3 find_init).
  - vm_compute. repeat split.
  - reflexivity.
  - simpl. repeat (constructor; [simpl; intuition lia|]). constructor.
  - intros w Hw. simpl in Hw.
    destruct Hw as [<-|[<-|[<-|[<-|[]]]]]; vm_compute; reflexivity.
  - simpl. lia.
Defined.


(** ** What the comparison of the search amounts to *)







(** * Lemmas on the server *)

Lemma lookup_update_win srv w f w' :
  x_wins (update_win srv w f) !! w'
  = if decide (w = w') then f <$> (x_wins srv !! w') else x_wins srv !! w'.
Proof.
  unfold update_win. destruct (x_wins srv !! w) as [r|] eqn:E; simpl.
  - rewrite lookup_insert. destruct (decide (w = w')) as [<-|];
      [rewrite E|]; reflexivity.
  - destruct (decide (w = w')) as [<-|]; [rewrite E|]; reflexivity.
Qed.

Lemma update_win_fields srv w f :
  x_root (update_win srv w f) = x_root srv
  /\ x_atoms (update_win srv w f) = x_atoms srv
  /\ x_focus (update_win srv w f) = x_focus srv
  /\ x_sent (update_win srv w f) = x_sent srv.
Proof.
  unfold update_win. destruct (x_wins srv !! w); simpl; auto.
Qed.

Lemma update_win_absent srv w f :
  x_wins srv !! w = None -> update_win srv w f = srv.
Proof. unfold update_win. intros ->. reflexivity. Qed.

(** A search that fails leaves the returned window as it was. *)
Lemma FindX11Window_not_found_return srv aName aType szValue :
  forall fuel w st st',
    FindX11Window fuel srv w aName aType szValue st = Some (false, st') ->
    pReturn st' = pReturn st.
Proof.
  induction fuel as [|fuel IH]; intros w st st'; simpl; [discriminate|].
  destruct (name_matches srv aName aType szValue w); [discriminate|].
  destruct (XQueryTree srv w) as [[[wRoot wParent] cs]|];
    [|intros [= <-]; reflexivity].
  change (pReturn st) with (pReturn (log_query w st)).
  generalize (log_query w st). clear st.
  induction cs as [|c cs IHcs]; intros st; simpl.
  - intros [= <-]. reflexivity.
  - destruct (descend w wRoot wParent c); [|apply IHcs].
    destruct (FindX11Window fuel srv c aName aType szValue _)
      as [[[|] st2]|] eqn:E; try discriminate.
    intros H. rewrite (IHcs _ H). rewrite (IH _ _ _ E).
    destruct (w =? wRoot); reflexivity.
Qed.

(** * The taskbar suppressor *)

(** Whatever the search found, a null handle recorded on a server that has
    no window 0 means that nothing was unmapped. *)
Lemma taskbar_null_handle_unchanged fuel srv wRoot srv' :
  x_wins srv !! 0 = None ->
  TaskbarFindAndUnmap fuel srv wRoot = Some (srv', 0) ->
  srv' = srv.
Proof.
  intros H0. unfold TaskbarFindAndUnmap.
  destruct (taskbar_search fuel srv wRoot) as [[b st]|]; [|discriminate].
  destruct (negb (pReturn st =? 0)); [|congruence].
  unfold XGetWindowAttributes.
  destruct (x_wins srv !! pMaster st) as [r|] eqn:E; [|congruence].
  destruct (a_override_redirect (w_attr r) && _); [|congruence].
  intros [= <- Hm]. rewrite Hm in E. congruence.
Qed.

(** C9.  When the search for the panel finds no window (or is not run
    because an atom is missing), [TaskbarFindAndUnmap] returns the server
    unchanged and records the null handle 0; [TaskbarRaise] with that handle
    returns the server unchanged, so no window is mapped or raised; and
    either operation run again in that state gives the same result. *)
Theorem taskbar_absent_noop :
  forall (fuel : nat) (srv : xserver) (wRoot : Z) (st' : find_st),
    taskbar_search fuel srv wRoot = Some (false, st') ->
    TaskbarFindAndUnmap fuel srv wRoot = Some (srv, 0)
    /\ TaskbarRaise srv 0 = srv
    /\ TaskbarFindAndUnmap fuel (TaskbarRaise srv 0) wRoot = Some (srv, 0)
    /\ TaskbarRaise (TaskbarRaise srv 0) 0 = srv.
Proof.
  intros fuel srv wRoot st' Hs.
  assert (Hr : pReturn st' = 0).
  { unfold taskbar_search in Hs.
    destruct (negb _ && negb _).
    - apply FindX11Window_not_found_return in Hs. exact Hs.
    - injection Hs as <-. reflexivity. }
  assert (Hf : TaskbarFindAndUnmap fuel srv wRoot = Some (srv, 0)).
  { unfold TaskbarFindAndUnmap. rewrite Hs, Hr. reflexivity. }
  assert (Ht : TaskbarRaise srv 0 = srv) by reflexivity.
  rewrite !Ht. auto.
Qed.

Lemma taskbar_absent_noop_witness :
  TaskbarFindAndUnmap 3 Examples.desktop 1 = Some (Examples.desktop, 0)
  /\ TaskbarRaise Examples.desktop 0 = Examples.desktop
  /\ TaskbarFindAndUnmap 3 (TaskbarRaise Examples.desktop 0) 1
     = Some (Examples.desktop, 0)
  /\ TaskbarRaise (TaskbarRaise Examples.desktop 0) 0 = Examples.desktop.
Proof.
  apply (taskbar_absent_noop 3 Examples.desktop 1
           {| pReturn := 0; pMaster := 3; queried := [1; 2; 4; 3] |}).
  vm_compute. reflexivity.
Defined.

(** * PositionWindow *)

(** C10.  Whatever the keypad position, [PositionWindow] leaves the root,
    the atoms, the focus and the messages of the server as they were, leaves
    every other window as it was, and changes of the window itself at most
    the coordinates x and y: its parent, its children list (the stacking
    order below it), its properties, width, height, border width,
    override-redirect flag and map state are unchanged.  When the window is
    at least as wide as the screen or at least as high, or does not exist,
    the server is returned as it was. *)
Theorem PositionWindow_moves_only :
  forall (srv : xserver) (w iKeypadPos scrx scry : Z),
    let srv' := PositionWindow srv w iKeypadPos scrx scry in
    x_root srv' = x_root srv
    /\ x_atoms srv' = x_atoms srv
    /\ x_focus srv' = x_focus srv
    /\ x_sent srv' = x_sent srv
    /\ (forall w', w' <> w -> x_wins srv' !! w' = x_wins srv !! w')
    /\ (forall r, x_wins srv !! w = Some r ->
          exists r',
            x_wins srv' !! w = Some r'
            /\ w_parent r' = w_parent r
            /\ w_children r' = w_children r
            /\ w_props r' = w_props r
            /\ a_width (w_attr r') = a_width (w_attr r)
            /\ a_height (w_attr r') = a_height (w_attr r)
            /\ a_border_width (w_attr r') = a_border_width (w_attr r)
            /\ a_override_redirect (w_attr r')
               = a_override_redirect (w_attr r)
            /\ a_map_state (w_attr r') = a_map_state (w_attr r))
    /\ (forall r, x_wins srv !! w = Some r ->
          scrx <= a_width (w_attr r) \/ scry <= a_height (w_attr r) ->
          srv' = srv)
    /\ (x_wins srv !! w = None -> srv' = srv).
Proof.
  intros srv w k scrx scry srv'. subst srv'.
  unfold PositionWindow, XGetGeometry, XMoveWindow.
  destruct (x_wins srv !! w) as [r|] eqn:E.
  - destruct ((a_width (w_attr r) <? scrx) && (a_height (w_attr r) <? scry))
      eqn:G.
    + pose proof (update_win_fields srv w
        (fun r0 => set_attr r0
           (move_attr
              (if (k =? 1) || (k =? 4) || (k =? 7) then 0
               else if (k =? 3) || (k =? 6) || (k =? 9)
                    then to_int (u32 (scrx - a_width (w_attr r)))
                    else to_int (u32 (scrx - a_width (w_attr r)) / 2))
              (if (k =? 7) || (k =? 8) || (k =? 9) then 0
               else if (k =? 1) || (k =? 2) || (k =? 3)
                    then to_int (u32 (scry - a_height (w_attr r)))
                    else to_int (u32 (scry - a_height (w_attr r)) / 2))
              (w_attr r0)))) as (R & A & F & S).
      do 4 (split; [assumption|]).
      split; [|split; [|split]].
      * intros w' Hw'. rewrite lookup_update_win.
        destruct (decide (w = w')); [congruence | reflexivity].
      * intros r0 [= <-]. eexists. rewrite lookup_update_win.
        destruct (decide (w = w)); [|congruence]. rewrite E. simpl.
        split; [reflexivity|]. simpl. repeat split.
      * intros r0 [= <-] Hbig. exfalso.
        apply andb_prop in G as [G1 G2].
        apply Z.ltb_lt in G1. apply Z.ltb_lt in G2. lia.
      * discriminate.
    + do 4 (split; [reflexivity|]).
      split; [|split; [|split]]; try reflexivity.
      intros r0 [= <-]. exists r. repeat split. exact E.
  - do 4 (split; [reflexivity|]).
    split; [|split; [|split]]; try reflexivity. discriminate.
Qed.

Lemma PositionWindow_moves_only_witness :
  x_wins (PositionWindow Examples.desktop 2 9 1920 1080) !! 2
  = Some {| w_parent := 1; w_children := [1; 4; 2];
            w_attr := Examples.attr 1272 0 648 508 0 false IsViewable;
            w_props := Examples.named "frame" |}
  /\ PositionWindow Examples.desktop 2 9 600 1080 = Examples.desktop.
Proof.
  pose proof (PositionWindow_moves_only Examples.desktop 2 9 600 1080)
    as (_ & _ & _ & _ & _ & _ & Hbig & _).
  split.
  - vm_compute. reflexivity.
  - apply (Hbig {| w_parent := 1; w_children := [1; 4; 2];
                   w_attr := Examples.attr 4 20 648 508 0 false IsViewable;
                   w_props := Examples.named "frame" |}).
    + vm_compute. reflexivity.
    + simpl. lia.
Defined.

(** * The fullscreen coercion controller *)

Lemma attributes_update_win srv w f m :
  XGetWindowAttributes (update_win srv w f) m
  = if decide (w = m)
    then (fun r => w_attr (f r)) <$> (x_wins srv !! m)
    else XGetWindowAttributes srv m.
Proof.
  unfold XGetWindowAttributes. rewrite lookup_update_win.
  destruct (decide (w = m)); [|reflexivity].
  destruct (x_wins srv !! m); reflexivity.
Qed.

Lemma attributes_some srv m a :
  XGetWindowAttributes srv m = Some a ->
  exists r, x_wins srv !! m = Some r /\ w_attr r = a.
Proof.
  unfold XGetWindowAttributes. destruct (x_wins srv !! m) as [r|];
    [|discriminate].
  intros [= <-]. eauto.
Qed.






(** * Lemmas on the engine *)

Lemma skipn_length_app {A} (l x : list A) : skipn (length l) (l ++ x) = x.
Proof. induction l as [|a l IH]; simpl; [reflexivity | exact IH]. Qed.

Lemma new_calls_refl e : new_calls e e = [].
Proof. unfold new_calls. apply skipn_all. Qed.

Lemma new_calls_set_time e t :
  new_calls e (libvlc_media_player_set_time e t) = [SetTime t].
Proof. unfold new_calls. simpl. apply skipn_length_app. Qed.

Lemma new_calls_set_volume e v :
  new_calls e (libvlc_audio_set_volume e v) = [SetVolume v].
Proof. unfold new_calls. simpl. apply skipn_length_app. Qed.

Lemma new_calls_set_track e id :
  new_calls e (libvlc_audio_set_track e id) = [SetTrack id].
Proof. unfold new_calls. simpl. apply skipn_length_app. Qed.

Lemma new_calls_pause e :
  new_calls e (libvlc_media_player_pause e) = [Pause].
Proof. unfold new_calls. simpl. apply skipn_length_app. Qed.

Lemma new_calls_stop e :
  new_calls e (libvlc_media_player_stop e) = [Stop].
Proof. unfold new_calls. simpl. apply skipn_length_app. Qed.

(** The commands of two successive stretches. *)
Lemma new_calls_trans e1 e2 e3 l1 l2 :
  v_calls e2 = v_calls e1 ++ l1 ->
  v_calls e3 = v_calls e2 ++ l2 ->
  new_calls e1 e3 = l1 ++ l2.
Proof.
  unfold new_calls. intros H1 H2. rewrite H2, H1, <- app_assoc.
  apply skipn_length_app.
Qed.

Lemma new_calls_spec e1 e2 l :
  v_calls e2 = v_calls e1 ++ l -> new_calls e1 e2 = l.
Proof. unfold new_calls. intros ->. apply skipn_length_app. Qed.

Import Fsplayer.

Ltac one_call :=
  rewrite ?new_calls_set_time, ?new_calls_set_volume, ?new_calls_set_track,
    ?new_calls_pause, ?new_calls_stop, ?new_calls_refl.

(** * Seeking *)

Lemma to_int64_small z : - 2 ^ 63 <= z < 2 ^ 63 -> to_int64 z = z.
Proof.
  intros H. unfold to_int64. rewrite Z.mod_small by lia. lia.
Qed.

Lemma is_int64_range z : is_int64 z = true -> - 2 ^ 63 <= z < 2 ^ 63.
Proof.
  unfold is_int64. intros H. apply andb_true_iff in H as [H1 H2].
  apply Z.leb_le in H1. apply Z.ltb_lt in H2. lia.
Qed.

Ltac bools_to_props :=
  repeat match goal with
         | H : (_ <=? _) = true |- _ => apply Z.leb_le in H
         | H : (_ <=? _) = false |- _ => apply Z.leb_gt in H
         | H : (_ <? _) = true |- _ => apply Z.ltb_lt in H
         | H : (_ <? _) = false |- _ => apply Z.ltb_ge in H
         end.

(** Reduce the 64-bit sums that stay in range, and split on the tests of
    a handler once their operands are plain. *)
Ltac exact_times :=
  repeat first
    [ match goal with
      | |- context [to_int64 ?z] => rewrite (to_int64_small z) by lia
      end
    | match goal with
      | |- context [if ?b then _ else _] =>
          lazymatch b with
          | context [to_int64 _] => fail
          | context [if _ then _ else _] => fail
          | _ => destruct b eqn:?; bools_to_props
          end
      end ].

Ltac seek_done :=
  eexists; split; [reflexivity|];
  cbn [V set_V Win32.gV Win32.set_gV]; one_call;
  repeat split; intros;
  try discriminate;
  try lia;
  try (left; reflexivity);
  try (right; eexists; split; [reflexivity | lia]);
  try (eexists; split; [reflexivity | lia]).

Lemma x11_seek ses k s :
  0 <= v_time (V s) <= iEndTimeMs ses ->
  (k = KEnd -> FSPLAYER_10SEC <= iEndTimeMs ses) ->
  (k = KRight -> v_time (V s) + FSPLAYER_10SEC < 2 ^ 63) ->
  backward_seek k = true \/ forward_seek k = true \/ k = KEnd ->
  exists s',
    on_key ses k s = Some s'
    /\ (backward_seek k = true ->
        exists t, new_calls (V s) (V s') = [SetTime t]
                  /\ 0 <= t <= v_time (V s))
    /\ (k = KEnd ->
        new_calls (V s) (V s')
        = [SetTime (iEndTimeMs ses - FSPLAYER_10SEC)]
        /\ 0 <= iEndTimeMs ses - FSPLAYER_10SEC <= iEndTimeMs ses)
    /\ (forward_seek k = true ->
        new_calls (V s) (V s') = []
        \/ exists t, new_calls (V s) (V s') = [SetTime t]
                     /\ v_time (V s) < t < iEndTimeMs ses).
Proof.
  intros Hcur Hend Hright Hk.
  pose proof (is_int64_range _ (iEndTimeMs_fits ses)) as Hfin.
  unfold FSPLAYER_10SEC in *.
  destruct k; cbn [backward_seek forward_seek] in Hk;
    try (exfalso; destruct Hk as [Hk|[Hk|Hk]]; discriminate Hk);
    try specialize (Hend eq_refl); try specialize (Hright eq_refl);
    clear Hk; cbn [on_key backward_seek forward_seek]; cbv zeta;
    unfold libvlc_media_player_get_time, add64, sub64, FSPLAYER_10SEC,
      FSPLAYER_1MIN, FSPLAYER_10MIN;
    exact_times; seek_done.
Qed.

Lemma win32_seek k g :
  0 <= v_time (Win32.gV g) <= Win32.giEndTimeMs g ->
  (k = Win32.vkEnd -> FSPLAYER_10SEC <= Win32.giEndTimeMs g) ->
  (k = Win32.vkRight -> v_time (Win32.gV g) + FSPLAYER_10SEC < 2 ^ 63) ->
  Win32.backward_seek k = true \/ Win32.forward_seek k = true
  \/ k = Win32.vkEnd ->
  exists g',
    Win32.FormKeyDown k g = Some g'
    /\ (Win32.backward_seek k = true ->
        exists t, new_calls (Win32.gV g) (Win32.gV g') = [SetTime t]
                  /\ 0 <= t <= v_time (Win32.gV g))
    /\ (k = Win32.vkEnd ->
        new_calls (Win32.gV g) (Win32.gV g')
        = [SetTime (Win32.giEndTimeMs g - FSPLAYER_10SEC)]
        /\ 0 <= Win32.giEndTimeMs g - FSPLAYER_10SEC
           <= Win32.giEndTimeMs g)
    /\ (Win32.forward_seek k = true ->
        new_calls (Win32.gV g) (Win32.gV g') = []
        \/ exists t, new_calls (Win32.gV g) (Win32.gV g') = [SetTime t]
                     /\ v_time (Win32.gV g) < t < Win32.giEndTimeMs g).
Proof.
  intros Hcur Hend Hright Hk.
  pose proof (is_int64_range _ (Win32.giEndTimeMs_fits g)) as Hfin.
  unfold FSPLAYER_10SEC in *.
  destruct k; cbn [Win32.backward_seek Win32.forward_seek] in Hk;
    try (exfalso; destruct Hk as [Hk|[Hk|Hk]]; discriminate Hk);
    try specialize (Hend eq_refl); try specialize (Hright eq_refl);
    clear Hk;
    cbn [Win32.FormKeyDown Win32.backward_seek Win32.forward_seek];
    cbv zeta;
    unfold libvlc_media_player_get_time, add64, sub64, FSPLAYER_10SEC,
      FSPLAYER_1MIN, FSPLAYER_10MIN;
    exact_times; seek_done.
Qed.

(** C1, as the code has it.  While the engine reports a current time cur
    with 0 <= cur <= endTime, END is pressed only on a medium of at least
    10 seconds, and RIGHT is pressed only while cur + 10000 is a value of
    the 64-bit time type (RIGHT adds before it compares), every seek key
    is handled, and every time it passes to the engine's set-time call
    lies in [0, endTime]: a backward seek (LEFT, DOWN, PAGE DOWN, HOME)
    makes exactly one set-time call, with a time in [0, cur]; END makes
    exactly one, with endTime - 10000; RIGHT, UP and PAGE UP make none, or
    exactly one with a time above cur and strictly below endTime.  Both
    builds behave so. *)
Theorem seek_within_media :
  (forall (ses : session) (k : key) (s : loop_state),
      0 <= v_time (V s) <= iEndTimeMs ses ->
      (k = KEnd -> FSPLAYER_10SEC <= iEndTimeMs ses) ->
      (k = KRight -> v_time (V s) + FSPLAYER_10SEC < 2 ^ 63) ->
      backward_seek k = true \/ forward_seek k = true \/ k = KEnd ->
      exists s',
        on_key ses k s = Some s'
        /\ (backward_seek k = true ->
            exists t, new_calls (V s) (V s') = [SetTime t]
                      /\ 0 <= t <= v_time (V s))
        /\ (k = KEnd ->
            new_calls (V s) (V s')
            = [SetTime (iEndTimeMs ses - FSPLAYER_10SEC)]
            /\ 0 <= iEndTimeMs ses - FSPLAYER_10SEC <= iEndTimeMs ses)
        /\ (forward_seek k = true ->
            new_calls (V s) (V s') = []
            \/ exists t, new_calls (V s) (V s') = [SetTime t]
                         /\ v_time (V s) < t < iEndTimeMs ses))
  /\ (forall (k : Win32.vkey) (g : Win32.globals),
         0 <= v_time (Win32.gV g) <= Win32.giEndTimeMs g ->
         (k = Win32.vkEnd -> FSPLAYER_10SEC <= Win32.giEndTimeMs g) ->
         (k = Win32.vkRight ->
          v_time (Win32.gV g) + FSPLAYER_10SEC < 2 ^ 63) ->
         Win32.backward_seek k = true \/ Win32.forward_seek k = true
         \/ k = Win32.vkEnd ->
         exists g',
           Win32.FormKeyDown k g = Some g'
           /\ (Win32.backward_seek k = true ->
               exists t,
                 new_calls (Win32.gV g) (Win32.gV g') = [SetTime t]
                 /\ 0 <= t <= v_time (Win32.gV g))
           /\ (k = Win32.vkEnd ->
               new_calls (Win32.gV g) (Win32.gV g')
               = [SetTime (Win32.giEndTimeMs g - FSPLAYER_10SEC)]
               /\ 0 <= Win32.giEndTimeMs g - FSPLAYER_10SEC
                  <= Win32.giEndTimeMs g)
           /\ (Win32.forward_seek k = true ->
               new_calls (Win32.gV g) (Win32.gV g') = []
               \/ exists t,
                    new_calls (Win32.gV g) (Win32.gV g') = [SetTime t]
                    /\ v_time (Win32.gV g) < t < Win32.giEndTimeMs g)).
Proof.
  split.
  - intros ses k s. apply x11_seek.
  - intros k g. apply win32_seek.
Qed.

Lemma seek_within_media_witness :
  (exists s',
      on_key Examples.film KLeft (Examples.playing 5000 100) = Some s'
      /\ exists t,
           new_calls (V (Examples.playing 5000 100)) (V s') = [SetTime t]
           /\ 0 <= t <= 5000)
  /\ (exists g',
         Win32.FormKeyDown Win32.vkEnd (Examples.form 60000 100) = Some g'
         /\ new_calls (Win32.gV (Examples.form 60000 100)) (Win32.gV g')
            = [SetTime 115000]).
Proof.
  split.
  - destruct (proj1 seek_within_media Examples.film KLeft
                (Examples.playing 5000 100))
      as (s' & Hs & Hback & _).
    + simpl. lia.
    + discriminate.
    + discriminate.
    + left. reflexivity.
    + exists s'. split; [exact Hs|]. apply Hback. reflexivity.
  - destruct (proj2 seek_within_media Win32.vkEnd
                (Examples.form 60000 100))
      as (g' & Hg & _ & Hend & _).
    + simpl. lia.
    + intros _. simpl. unfold FSPLAYER_10SEC. lia.
    + discriminate.
    + right. right. reflexivity.
    + exists g'. split; [exact Hg|]. apply Hend. reflexivity.
Defined.

(** C1 as the specification states it fails.  RIGHT at 110 s of a film of
    125 s sets the time to 120 s, beyond endTime - 10000; END on a clip of
    5 s sets the time to -5000; and RIGHT 5 s before the end of a medium as
    long as the time type allows sets a negative time, the 64-bit sum
    having wrapped. *)
Lemma seek_margin_counterexample :
  (exists s',
      on_key Examples.film KRight (Examples.playing 110000 100) = Some s'
      /\ new_calls (V (Examples.playing 110000 100)) (V s')
         = [SetTime 120000]
      /\ ~ 120000 <= iEndTimeMs Examples.film - 10000)
  /\ (exists s',
         on_key Examples.clip KEnd (Examples.playing 1000 100) = Some s'
         /\ new_calls (V (Examples.playing 1000 100)) (V s')
            = [SetTime (-5000)]
         /\ ~ 0 <= -5000)
  /\ (exists s',
         on_key Examples.longest KRight
           (Examples.playing (2 ^ 63 - 5001) 100) = Some s'
         /\ new_calls (V (Examples.playing (2 ^ 63 - 5001) 100)) (V s')
            = [SetTime (- 2 ^ 63 + 4999)]
         /\ 0 <= 2 ^ 63 - 5001 <= iEndTimeMs Examples.longest
         /\ ~ 0 <= - 2 ^ 63 + 4999).
Proof.
  split; [|split]; eexists; (split; [vm_compute; reflexivity|]); split;
    try (vm_compute; reflexivity); vm_compute; intuition congruence.
Qed.

(** * Audio tracks *)

Lemma lookup_nth (l : list Z) (i : nat) :
  (i < length l)%nat -> l !! i = Some (nth i l 0).
Proof.
  revert i. induction l as [|a l IH]; intros [|i] H; simpl in *;
    try lia; [reflexivity|].
  apply IH. lia.
Qed.

Lemma array_get_nth ids i :
  0 <= i < Z.of_nat (length ids) ->
  array_get ids i = Some (nth (Z.to_nat i) ids 0).
Proof.
  intros H. unfold array_get.
  destruct (i <? 0) eqn:E; [apply Z.ltb_lt in E; lia|].
  apply lookup_nth. lia.
Qed.

Lemma succ_mod c n :
  0 <= c < n -> (if c + 1 =? n then 0 else c + 1) = (c + 1) mod n.
Proof.
  intros H. destruct (c + 1 =? n) eqn:E.
  - apply Z.eqb_eq in E. rewrite E. symmetry. apply Z_mod_same_full.
  - apply Z.eqb_neq in E. symmetry. apply Z.mod_small. lia.
Qed.

Lemma succ_mod_ge c n :
  0 <= c < n -> (if n <=? c + 1 then 0 else c + 1) = (c + 1) mod n.
Proof.
  intros H. destruct (n <=? c + 1) eqn:E.
  - apply Z.leb_le in E. assert (c + 1 = n) as -> by lia.
    symmetry. apply Z_mod_same_full.
  - apply Z.leb_gt in E. symmetry. apply Z.mod_small. lia.
Qed.

Lemma selected_step ids n c k :
  selected ids n c (S k)
  = SetTrack (nth (Z.to_nat ((c + 1) mod n)) ids 0)
    :: selected ids n ((c + 1) mod n) k.
Proof.
  unfold selected. simpl. f_equal.
  rewrite <- seq_shift, map_map. apply map_ext. intros i.
  do 3 f_equal. rewrite Zplus_mod_idemp_l. f_equal. lia.
Qed.

Lemma x11_advance ses s :
  1 < iNumVlcAudioTracks ses ->
  Z.of_nat (length (pVlcAudioTrackId ses)) = iNumVlcAudioTracks ses ->
  0 <= iVlcAudioTrack s < iNumVlcAudioTracks ses ->
  let i := (iVlcAudioTrack s + 1) mod iNumVlcAudioTracks ses in
  on_key ses KKpMult s
  = Some (set_V (libvlc_audio_set_track (V s)
                   (nth (Z.to_nat i) (pVlcAudioTrackId ses) 0))
                (set_track_cursor i s)).
Proof.
  intros Hn Hlen Hc i. subst i. simpl.
  rewrite (succ_mod _ _ Hc).
  rewrite array_get_nth; [reflexivity|].
  rewrite Hlen. apply Z.mod_pos_bound. lia.
Qed.

Lemma x11_advance_many ses :
  1 < iNumVlcAudioTracks ses ->
  Z.of_nat (length (pVlcAudioTrackId ses)) = iNumVlcAudioTracks ses ->
  forall k s,
    0 <= iVlcAudioTrack s < iNumVlcAudioTracks ses ->
    exists s',
      presses ses KKpMult k s = Some s'
      /\ iVlcAudioTrack s'
         = (iVlcAudioTrack s + Z.of_nat k) mod iNumVlcAudioTracks ses
      /\ v_calls (V s')
         = v_calls (V s)
           ++ selected (pVlcAudioTrackId ses) (iNumVlcAudioTracks ses)
                (iVlcAudioTrack s) k.
Proof.
  intros Hn Hlen. induction k as [|k IH]; intros s Hc.
  - exists s. simpl. rewrite Z.add_0_r, Z.mod_small by lia.
    unfold selected. simpl. rewrite app_nil_r. auto.
  - cbn [presses]. rewrite (x11_advance ses s Hn Hlen Hc). cbv zeta.
    set (i := (iVlcAudioTrack s + 1) mod iNumVlcAudioTracks ses).
    destruct (IH (set_V (libvlc_audio_set_track (V s)
                           (nth (Z.to_nat i) (pVlcAudioTrackId ses) 0))
                        (set_track_cursor i s))) as (s' & P & C & L).
    { simpl. subst i. apply Z.mod_pos_bound. lia. }
    exists s'. split; [exact P|]. simpl in C, L. split.
    + rewrite C. subst i. rewrite Zplus_mod_idemp_l. f_equal. lia.
    + rewrite L, selected_step, <- app_assoc. reflexivity.
Qed.

Lemma lookup_key_mult ses keycode :
  lookup_key ses keycode = Some KKpMult -> 1 < iNumVlcAudioTracks ses.
Proof.
  unfold lookup_key.
  repeat match goal with
         | |- context [if is_key ?a ?b && ?c then _ else _] =>
             destruct (is_key a b) eqn:?; cbn [andb]
         | |- context [if is_key ?a ?b then _ else _] =>
             destruct (is_key a b) eqn:?
         | |- context [if 1 <? ?n then _ else _] => destruct (1 <? n) eqn:?
         end; try discriminate.
  all: intros _; apply Z.ltb_lt; assumption.
Qed.

(** Every branch but that of the keypad [*] is total. *)
Lemma on_key_other ses k s :
  k <> KKpMult -> exists s', on_key ses k s = Some s'.
Proof.
  intros Hk.
  destruct k; try congruence; cbn [on_key]; cbv zeta; unfold position;
    repeat match goal with
           | |- context [if ?b then _ else _] => destruct b
           end;
    eexists; reflexivity.
Qed.

Lemma on_key_keeps_track ses k s s' :
  k <> KKpMult ->
  on_key ses k s = Some s' ->
  iVlcAudioTrack s' = iVlcAudioTrack s
  /\ forall id, ~ In (SetTrack id) (new_calls (V s) (V s')).
Proof.
  intros Hk H.
  destruct k; try congruence; simpl in H; unfold position in H;
    repeat match type of H with
           | context [if ?b then _ else _] => destruct b
           end;
    injection H as <-; simpl; one_call;
    (split; [reflexivity|]); intros id Hin; simpl in Hin;
    intuition discriminate.
Qed.

Lemma win32_advance g :
  1 < Win32.giNumVlcAudioTracks g ->
  Z.of_nat (length (Win32.gpVlcAudioTrackId g)) = Win32.giNumVlcAudioTracks g ->
  0 <= Win32.giVlcAudioTrack g < Win32.giNumVlcAudioTracks g ->
  let i := (Win32.giVlcAudioTrack g + 1) mod Win32.giNumVlcAudioTracks g in
  Win32.FormKeyDown Win32.vkMultiply g
  = Some (Win32.set_gV
            (libvlc_audio_set_track (Win32.gV g)
               (nth (Z.to_nat i) (Win32.gpVlcAudioTrackId g) 0))
            (Win32.set_giVlcAudioTrack i g)).
Proof.
  intros Hn Hlen Hc i. subst i. simpl.
  replace (1 <? Win32.giNumVlcAudioTracks g) with true
    by (symmetry; apply Z.ltb_lt; exact Hn).
  rewrite (succ_mod_ge _ _ Hc).
  rewrite array_get_nth; [reflexivity|].
  rewrite Hlen. apply Z.mod_pos_bound. lia.
Qed.

Lemma win32_advance_many :
  forall k g,
    1 < Win32.giNumVlcAudioTracks g ->
    Z.of_nat (length (Win32.gpVlcAudioTrackId g))
    = Win32.giNumVlcAudioTracks g ->
    0 <= Win32.giVlcAudioTrack g < Win32.giNumVlcAudioTracks g ->
    exists g',
      Win32.presses Win32.vkMultiply k g = Some g'
      /\ Win32.giVlcAudioTrack g'
         = (Win32.giVlcAudioTrack g + Z.of_nat k)
           mod Win32.giNumVlcAudioTracks g
      /\ v_calls (Win32.gV g')
         = v_calls (Win32.gV g)
           ++ selected (Win32.gpVlcAudioTrackId g)
                (Win32.giNumVlcAudioTracks g) (Win32.giVlcAudioTrack g) k.
Proof.
  induction k as [|k IH]; intros g Hn Hlen Hc.
  - exists g. simpl. rewrite Z.add_0_r, Z.mod_small by lia.
    unfold selected. simpl. rewrite app_nil_r. auto.
  - cbn [Win32.presses]. rewrite (win32_advance g Hn Hlen Hc). cbv zeta.
    set (i := (Win32.giVlcAudioTrack g + 1) mod Win32.giNumVlcAudioTracks g).
    destruct (IH (Win32.set_gV
                    (libvlc_audio_set_track (Win32.gV g)
                       (nth (Z.to_nat i) (Win32.gpVlcAudioTrackId g) 0))
                    (Win32.set_giVlcAudioTrack i g)))
      as (g' & P & C & L); try assumption.
    { simpl. subst i. apply Z.mod_pos_bound. lia. }
    exists g'. split; [exact P|]. simpl in C, L. split.
    + rewrite C. subst i. rewrite Zplus_mod_idemp_l. f_equal. lia.
    + rewrite L, selected_step, <- app_assoc. reflexivity.
Qed.

(** ** The keypad [*] through the key chain *)

Lemma star_code_lookup ses keycode :
  star_code ses keycode = true ->
  1 < iNumVlcAudioTracks ses ->
  lookup_key ses keycode = Some KKpMult.
Proof.
  unfold star_code, before_star. cbn [forallb]. intros H Hn.
  repeat match goal with
         | H0 : _ && _ = true |- _ =>
             let H' := fresh "H" in apply andb_true_iff in H0 as [H0 H']
         end.
  repeat match goal with
         | H0 : negb _ = true |- _ => apply negb_true_iff in H0
         end.
  assert (Hk : keycode = kcKpMult (kc ses)).
  { match goal with
    | H0 : (keycode =? kcKpMult (kc ses)) = true |- _ =>
        apply Z.eqb_eq in H0; exact H0
    end. }
  apply Z.ltb_lt in Hn.
  unfold lookup_key, is_key. cbv zeta.
  repeat match goal with
         | E : (keycode =? ?k) = false |- context [keycode =? ?k] =>
             rewrite E
         end.
  rewrite !andb_false_r. rewrite <- Hk, Z.eqb_refl, Hn.
  match goal with E : (keycode =? 0) = false |- _ => rewrite E end.
  reflexivity.
Qed.

(** Presses of one key, as events, are handled by the branch of the key. *)
Lemma drain_presses ses keycode key :
  lookup_key ses keycode = Some key ->
  forall k s,
    drain ses (List.repeat (KeyPress keycode) k) s = presses ses key k s.
Proof.
  intros E. induction k as [|k IH]; intros s; [reflexivity|].
  cbn [List.repeat drain presses on_event]. rewrite E.
  destruct (on_key ses key s) as [s'|]; [apply IH | reflexivity].
Qed.

(** C6, as the code has it.  On both builds, with n > 1 tracks and the
    cursor c an index of the track array of n cells, k presses of the
    keypad multiply key (on the X11 build: k key-press events with the code
    of that key, through the key chain) leave the cursor at (c + k) mod n
    and ask the engine, in order, for the ids at (c + 1) mod n, ...,
    (c + k) mod n; so n presses bring the cursor back to c.  With n <= 1 no
    key press moves the cursor or selects a track on the X11 build, and the
    multiply key changes nothing on the Win32 build.  But the X11 build
    never gives the cursor a first value: on the film with the ids 2, 5, 7,
    when the variable happens to hold 7 the first press reads outside the
    array, and when it happens to hold -1 three presses select 2, 5, 7, not
    5, 7, 2. *)
Theorem audio_track_advance_cyclic :
  (forall (ses : session) (s : loop_state) (keycode : Z),
      let n := iNumVlcAudioTracks ses in
      let ids := pVlcAudioTrackId ses in
      let c := iVlcAudioTrack s in
      (star_code ses keycode = true ->
       1 < n -> Z.of_nat (length ids) = n -> 0 <= c < n ->
       (forall k : nat,
           exists s',
             drain ses (List.repeat (KeyPress keycode) k) s = Some s'
             /\ iVlcAudioTrack s' = (c + Z.of_nat k) mod n
             /\ new_calls (V s) (V s') = selected ids n c k)
       /\ (exists s',
              drain ses (List.repeat (KeyPress keycode) (Z.to_nat n)) s
              = Some s'
              /\ iVlcAudioTrack s' = c))
      /\ (n <= 1 ->
          exists s',
            on_event ses (KeyPress keycode) s = Some s'
            /\ iVlcAudioTrack s' = c
            /\ forall id, ~ In (SetTrack id) (new_calls (V s) (V s'))))
  /\ (forall (g : Win32.globals),
         let n := Win32.giNumVlcAudioTracks g in
         let ids := Win32.gpVlcAudioTrackId g in
         let c := Win32.giVlcAudioTrack g in
         (1 < n -> Z.of_nat (length ids) = n -> 0 <= c < n ->
          (forall k : nat,
              exists g',
                Win32.presses Win32.vkMultiply k g = Some g'
                /\ Win32.giVlcAudioTrack g' = (c + Z.of_nat k) mod n
                /\ new_calls (Win32.gV g) (Win32.gV g') = selected ids n c k)
          /\ (exists g',
                 Win32.presses Win32.vkMultiply (Z.to_nat n) g = Some g'
                 /\ Win32.giVlcAudioTrack g' = c))
         /\ (n <= 1 -> Win32.FormKeyDown Win32.vkMultiply g = Some g))
  /\ (on_event Examples.film (KeyPress 63) (Examples.entered_with 7) = None
      /\ exists s',
           drain Examples.film [KeyPress 63; KeyPress 63; KeyPress 63]
             (Examples.entered_with (-1)) = Some s'
           /\ new_calls (V (Examples.entered_with (-1))) (V s')
              = [SetTrack 2; SetTrack 5; SetTrack 7]).
Proof.
  split; [|split].
  - intros ses s keycode n ids c. split.
    + intros Hstar Hn Hlen Hc.
      pose proof (star_code_lookup ses keycode Hstar Hn) as Hkey.
      split.
      * intros k. rewrite (drain_presses ses keycode KKpMult Hkey).
        destruct (x11_advance_many ses Hn Hlen k s Hc) as (s' & P & C & L).
        exists s'. split; [exact P|]. split; [exact C|].
        apply new_calls_spec. exact L.
      * rewrite (drain_presses ses keycode KKpMult Hkey).
        destruct (x11_advance_many ses Hn Hlen (Z.to_nat n) s Hc)
          as (s' & P & C & _).
        exists s'. split; [exact P|]. rewrite C.
        rewrite Z2Nat.id by (subst n; lia).
        fold n c. replace (c + n) with (c + 1 * n) by lia.
        rewrite Z.mod_add by lia. apply Z.mod_small. exact Hc.
    + intros Hn.
      assert (Hno : lookup_key ses keycode <> Some KKpMult).
      { intros E. apply lookup_key_mult in E. subst n. lia. }
      cbn [on_event].
      destruct (lookup_key ses keycode) as [k|] eqn:E.
      * assert (Hk : k <> KKpMult) by congruence.
        destruct (on_key_other ses k s Hk) as (s' & Hs').
        exists s'. split; [exact Hs'|].
        apply (on_key_keeps_track ses k); assumption.
      * exists s. split; [reflexivity|]. one_call.
        split; [reflexivity|]. intros id [].
  - intros g n ids c. split.
    + intros Hn Hlen Hc. split.
      * intros k.
        destruct (win32_advance_many k g Hn Hlen Hc) as (g' & P & C & L).
        exists g'. split; [exact P|]. split; [exact C|].
        apply new_calls_spec. exact L.
      * destruct (win32_advance_many (Z.to_nat n) g Hn Hlen Hc)
          as (g' & P & C & _).
        exists g'. split; [exact P|]. rewrite C.
        rewrite Z2Nat.id by (subst n; lia).
        fold n c. replace (c + n) with (c + 1 * n) by lia.
        rewrite Z.mod_add by lia. apply Z.mod_small. exact Hc.
    + intros Hn. simpl.
      replace (1 <? Win32.giNumVlcAudioTracks g) with false
        by (symmetry; apply Z.ltb_ge; exact Hn).
      reflexivity.
  - split; [vm_compute; reflexivity|].
    eexists. split; vm_compute; reflexivity.
Qed.

Lemma audio_track_advance_cyclic_witness :
  (exists s',
      drain Examples.film (List.repeat (KeyPress 63) 3)
        (Examples.playing 0 100) = Some s'
      /\ iVlcAudioTrack s' = (0 + Z.of_nat 3) mod 3
      /\ new_calls (V (Examples.playing 0 100)) (V s')
         = [SetTrack 5; SetTrack 7; SetTrack 2])
  /\ (exists g',
         Win32.presses Win32.vkMultiply 3 (Examples.form 0 100) = Some g'
         /\ Win32.giVlcAudioTrack g' = (0 + Z.of_nat 3) mod 3
         /\ new_calls (Win32.gV (Examples.form 0 100)) (Win32.gV g')
            = [SetTrack 5; SetTrack 7; SetTrack 2]).
Proof.
  split.
  - apply (proj1 (proj1 (proj1 audio_track_advance_cyclic Examples.film
                           (Examples.playing 0 100) 63)
                        ltac:(reflexivity) ltac:(simpl; lia)
                        ltac:(reflexivity) ltac:(simpl; lia)) 3%nat).
  - apply (proj1 (proj1 (proj1 (proj2 audio_track_advance_cyclic)
                           (Examples.form 0 100))
                        ltac:(simpl; lia) ltac:(reflexivity)
                        ltac:(simpl; lia)) 3%nat).
Defined.

(** * Volume *)

Section Volume.

Variable ses : session.

Lemma x11_volume_down s :
  on_key ses KKpMinus s
  = Some (set_V (libvlc_audio_set_volume (V s)
                   (Z.max 0 (v_volume (V s) - 10))) s).
Proof.
  simpl. unfold libvlc_audio_get_volume. do 3 f_equal.
  destruct (v_volume (V s) - 10 <? 0) eqn:E;
    [apply Z.ltb_lt in E | apply Z.ltb_ge in E]; lia.
Qed.

Lemma x11_volume_up s :
  on_key ses KKpPlus s
  = Some (set_V (libvlc_audio_set_volume (V s)
                   (Z.min 100 (v_volume (V s) + 10))) s).
Proof.
  simpl. unfold libvlc_audio_get_volume. do 3 f_equal.
  destruct (100 <? v_volume (V s) + 10) eqn:E;
    [apply Z.ltb_lt in E | apply Z.ltb_ge in E]; lia.
Qed.

Lemma x11_volume_down_many k :
  forall s,
    exists s',
      presses ses KKpMinus (S k) s = Some s'
      /\ v_volume (V s') = Z.max 0 (v_volume (V s) - 10 * Z.of_nat (S k)).
Proof.
  induction k as [|k IH]; intros s.
  - cbn [presses]. rewrite x11_volume_down. eexists. split; [reflexivity|].
    simpl. f_equal.
  - remember (S k) as k1. cbn [presses]. rewrite x11_volume_down.
    destruct (IH (set_V (libvlc_audio_set_volume (V s)
                           (Z.max 0 (v_volume (V s) - 10))) s))
      as (s' & P & Q).
    exists s'. split; [exact P|]. rewrite Q. simpl. lia.
Qed.

Lemma x11_volume_up_many k :
  forall s,
    exists s',
      presses ses KKpPlus (S k) s = Some s'
      /\ v_volume (V s') = Z.min 100 (v_volume (V s) + 10 * Z.of_nat (S k)).
Proof.
  induction k as [|k IH]; intros s.
  - cbn [presses]. rewrite x11_volume_up. eexists. split; [reflexivity|].
    simpl. f_equal.
  - remember (S k) as k1. cbn [presses]. rewrite x11_volume_up.
    destruct (IH (set_V (libvlc_audio_set_volume (V s)
                           (Z.min 100 (v_volume (V s) + 10))) s))
      as (s' & P & Q).
    exists s'. split; [exact P|]. rewrite Q. simpl. lia.
Qed.

End Volume.

Lemma win32_volume_down g :
  Win32.FormKeyDown Win32.vkSubtract g
  = Some (Win32.set_gV (libvlc_audio_set_volume (Win32.gV g)
                          (Z.max 1 (v_volume (Win32.gV g) - 10))) g).
Proof.
  simpl. unfold libvlc_audio_get_volume. do 3 f_equal.
  destruct (v_volume (Win32.gV g) - 10 <? 1) eqn:E;
    [apply Z.ltb_lt in E | apply Z.ltb_ge in E]; lia.
Qed.

Lemma win32_volume_up g :
  Win32.FormKeyDown Win32.vkAdd g
  = Some (Win32.set_gV (libvlc_audio_set_volume (Win32.gV g)
                          (Z.min 100 (v_volume (Win32.gV g) + 10))) g).
Proof.
  simpl. unfold libvlc_audio_get_volume. do 3 f_equal.
  destruct (100 <? v_volume (Win32.gV g) + 10) eqn:E;
    [apply Z.ltb_lt in E | apply Z.ltb_ge in E]; lia.
Qed.

Lemma win32_volume_down_many k :
  forall g,
    exists g',
      Win32.presses Win32.vkSubtract (S k) g = Some g'
      /\ v_volume (Win32.gV g')
         = Z.max 1 (v_volume (Win32.gV g) - 10 * Z.of_nat (S k)).
Proof.
  induction k as [|k IH]; intros g.
  - cbn [Win32.presses]. rewrite win32_volume_down.
    eexists. split; [reflexivity|]. simpl. f_equal.
  - remember (S k) as k1. cbn [Win32.presses]. rewrite win32_volume_down.
    destruct (IH (Win32.set_gV
                    (libvlc_audio_set_volume (Win32.gV g)
                       (Z.max 1 (v_volume (Win32.gV g) - 10))) g))
      as (g' & P & Q).
    exists g'. split; [exact P|]. rewrite Q. simpl. lia.
Qed.

Lemma win32_volume_up_many k :
  forall g,
    exists g',
      Win32.presses Win32.vkAdd (S k) g = Some g'
      /\ v_volume (Win32.gV g')
         = Z.min 100 (v_volume (Win32.gV g) + 10 * Z.of_nat (S k)).
Proof.
  induction k as [|k IH]; intros g.
  - cbn [Win32.presses]. rewrite win32_volume_up.
    eexists. split; [reflexivity|]. simpl. f_equal.
  - remember (S k) as k1. cbn [Win32.presses]. rewrite win32_volume_up.
    destruct (IH (Win32.set_gV
                    (libvlc_audio_set_volume (Win32.gV g)
                       (Z.min 100 (v_volume (Win32.gV g) + 10))) g))
      as (g' & P & Q).
    exists g'. split; [exact P|]. rewrite Q. simpl. lia.
Qed.

(** C7.  On the X11 build a press of keypad minus sets the volume v to
    v - 10, or to 0 when that is negative, and a press of keypad plus sets it
    to v + 10, or to 100 when that is more; on the Win32 build the floor is
    1 instead of 0.  So a decrease at the floor and an increase at 100 leave
    the volume where it is, and from every volume there is a number of
    presses from which on the volume is the floor (decreasing) or 100
    (increasing). *)
Theorem volume_step_and_clamp :
  (forall (ses : session) (s : loop_state),
      let v := v_volume (V s) in
      (exists s',
          on_key ses KKpMinus s = Some s'
          /\ v_volume (V s') = (if 10 <=? v then v - 10 else 0))
      /\ (exists s',
             on_key ses KKpPlus s = Some s'
             /\ v_volume (V s') = (if v <=? 90 then v + 10 else 100))
      /\ (exists N : nat, forall k : nat, (N <= k)%nat ->
             exists s',
               presses ses KKpMinus k s = Some s' /\ v_volume (V s') = 0)
      /\ (exists N : nat, forall k : nat, (N <= k)%nat ->
             exists s',
               presses ses KKpPlus k s = Some s' /\ v_volume (V s') = 100))
  /\ (forall (g : Win32.globals),
         let v := v_volume (Win32.gV g) in
         (exists g',
             Win32.FormKeyDown Win32.vkSubtract g = Some g'
             /\ v_volume (Win32.gV g') = (if 11 <=? v then v - 10 else 1))
         /\ (exists g',
                Win32.FormKeyDown Win32.vkAdd g = Some g'
                /\ v_volume (Win32.gV g')
                   = (if v <=? 90 then v + 10 else 100))
         /\ (exists N : nat, forall k : nat, (N <= k)%nat ->
                exists g',
                  Win32.presses Win32.vkSubtract k g = Some g'
                  /\ v_volume (Win32.gV g') = 1)
         /\ (exists N : nat, forall k : nat, (N <= k)%nat ->
                exists g',
                  Win32.presses Win32.vkAdd k g = Some g'
                  /\ v_volume (Win32.gV g') = 100)).
Proof.
  split.
  - intros ses s v. repeat split.
    + rewrite x11_volume_down. eexists. split; [reflexivity|]. simpl.
      fold v. destruct (10 <=? v) eqn:E;
        [apply Z.leb_le in E | apply Z.leb_gt in E]; lia.
    + rewrite x11_volume_up. eexists. split; [reflexivity|]. simpl.
      fold v. destruct (v <=? 90) eqn:E;
        [apply Z.leb_le in E | apply Z.leb_gt in E]; lia.
    + exists (Z.to_nat (Z.max 1 v)). intros [|k] Hk; [lia|].
      destruct (x11_volume_down_many ses k s) as (s' & P & Q).
      exists s'. split; [exact P|]. rewrite Q. fold v. lia.
    + exists (Z.to_nat (Z.max 1 (100 - v))). intros [|k] Hk; [lia|].
      destruct (x11_volume_up_many ses k s) as (s' & P & Q).
      exists s'. split; [exact P|]. rewrite Q. fold v. lia.
  - intros g v. repeat split.
    + rewrite win32_volume_down. eexists. split; [reflexivity|]. simpl.
      fold v. destruct (11 <=? v) eqn:E;
        [apply Z.leb_le in E | apply Z.leb_gt in E]; lia.
    + rewrite win32_volume_up. eexists. split; [reflexivity|]. simpl.
      fold v. destruct (v <=? 90) eqn:E;
        [apply Z.leb_le in E | apply Z.leb_gt in E]; lia.
    + exists (Z.to_nat (Z.max 1 v)). intros [|k] Hk; [lia|].
      destruct (win32_volume_down_many k g) as (g' & P & Q).
      exists g'. split; [exact P|]. rewrite Q. fold v. lia.
    + exists (Z.to_nat (Z.max 1 (100 - v))). intros [|k] Hk; [lia|].
      destruct (win32_volume_up_many k g) as (g' & P & Q).
      exists g'. split; [exact P|]. rewrite Q. fold v. lia.
Qed.

Lemma volume_step_and_clamp_witness :
  (exists s',
      on_key Examples.film KKpMinus (Examples.playing 0 5) = Some s'
      /\ v_volume (V s') = 0)
  /\ (exists g',
         Win32.FormKeyDown Win32.vkSubtract (Examples.form 0 5) = Some g'
         /\ v_volume (Win32.gV g') = 1).
Proof.
  split.
  - apply (proj1 (proj1 volume_step_and_clamp Examples.film
                    (Examples.playing 0 5))).
  - apply (proj1 (proj2 volume_step_and_clamp (Examples.form 0 5))).
Defined.

(** * The poll loop *)

Section PollLoop.

Variable ses : session.

Lemma on_key_running k s s' :
  on_key ses k s = Some s' ->
  iErr s' = iErr s
  /\ iRunning s' = match k with KEsc => false | _ => iRunning s end.
Proof.
  intros H.
  destruct k; simpl in H; unfold position in H;
    repeat match type of H with
           | context [if ?b then _ else _] => destruct b
           | context [match ?o with Some _ => _ | None => _ end] =>
               destruct o
           end;
    try discriminate H; injection H as <-; split; reflexivity.
Qed.

Lemma on_key_stopped k s s' :
  on_key ses k s = Some s' ->
  libvlc_Stopped <= v_state (V s) ->
  libvlc_Stopped <= v_state (V s').
Proof.
  intros H Hst. unfold libvlc_Stopped in *.
  destruct k; simpl in H; unfold position in H;
    repeat match type of H with
           | context [if ?b then _ else _] => destruct b
           | context [match ?o with Some _ => _ | None => _ end] =>
               destruct o
           end;
    try discriminate H; injection H as <-; simpl; try exact Hst.
  unfold libvlc_Playing, libvlc_Paused.
  destruct (v_state (V s) =? 3) eqn:E3; [apply Z.eqb_eq in E3; lia|].
  destruct (v_state (V s) =? 4) eqn:E4; [apply Z.eqb_eq in E4; lia|].
  exact Hst.
Qed.

Lemma on_key_total k s :
  tracks_ok ses s ->
  (k = KKpMult -> 1 < iNumVlcAudioTracks ses) ->
  exists s', on_key ses k s = Some s' /\ tracks_ok ses s'.
Proof.
  intros Hok Hk.
  destruct k;
    try (cbn [on_key]; cbv zeta; unfold position;
         repeat match goal with
                | |- context [if ?b then _ else _] => destruct b
                end;
         (eexists; split; [reflexivity | exact Hok])).
  specialize (Hk eq_refl). destruct (Hok Hk) as [Hlen Hc].
  rewrite (x11_advance ses s Hk Hlen Hc). eexists. split; [reflexivity|].
  intros _. split; [exact Hlen|]. simpl. apply Z.mod_pos_bound. lia.
Qed.

Lemma on_event_spec ev s :
  tracks_ok ses s ->
  exists s',
    on_event ses ev s = Some s'
    /\ iErr s' = iErr s
    /\ iRunning s' = iRunning s && negb (is_escape ses ev)
    /\ (libvlc_Stopped <= v_state (V s) -> libvlc_Stopped <= v_state (V s'))
    /\ tracks_ok ses s'.
Proof.
  intros Hok. destruct ev as [keycode| |]; simpl.
  - destruct (lookup_key ses keycode) as [k|] eqn:E.
    + destruct (on_key_total k s Hok) as (s' & H & Hok').
      { intros ->. eapply lookup_key_mult. exact E. }
      exists s'. split; [exact H|].
      destruct (on_key_running k s s' H) as [He Hr].
      split; [exact He|]. split.
      * rewrite Hr. destruct k; simpl; rewrite ?andb_true_r, ?andb_false_r;
          reflexivity.
      * split; [apply (on_key_stopped k s s' H) | exact Hok'].
    + exists s. rewrite andb_true_r. auto.
  - eexists. split; [reflexivity|]. simpl. rewrite andb_true_r. auto.
  - exists s. rewrite andb_true_r. auto.
Qed.

Lemma drain_spec evs :
  forall s,
    tracks_ok ses s ->
    exists s1,
      drain ses evs s = Some s1
      /\ iErr s1 = iErr s
      /\ iRunning s1 = iRunning s && negb (escape_pressed ses evs)
      /\ (libvlc_Stopped <= v_state (V s) ->
          libvlc_Stopped <= v_state (V s1))
      /\ tracks_ok ses s1.
Proof.
  induction evs as [|ev evs IH]; intros s Hok.
  - exists s. simpl. rewrite andb_true_r. auto.
  - destruct (on_event_spec ev s Hok) as (s' & H & He & Hr & Hs & Hok').
    destruct (IH s' Hok') as (s1 & H1 & He1 & Hr1 & Hs1 & Hok1).
    exists s1. cbn [drain]. rewrite H. split; [exact H1|].
    split; [congruence|]. split.
    + rewrite Hr1, Hr. unfold escape_pressed. simpl.
      rewrite negb_orb, andb_assoc. reflexivity.
    + split; [auto | exact Hok1].
Qed.

Lemma reclaim_focus_continues s :
  continues (reclaim_focus ses s) = continues s
  /\ iErr (reclaim_focus ses s) = iErr s
  /\ iRunning (reclaim_focus ses s) = iRunning s.
Proof.
  unfold reclaim_focus.
  destruct (iRunning s) eqn:R; [|rewrite R; auto].
  destruct (_ || _); unfold continues; simpl; rewrite R; auto.
Qed.

End PollLoop.

(** ** The key chain, by key codes *)

Lemma is_key_true k keycode :
  is_key k keycode = true -> k = keycode /\ keycode <> 0.
Proof.
  unfold is_key. intros H. apply andb_true_iff in H as [H1 H2].
  apply Z.eqb_eq in H2. apply negb_true_iff, Z.eqb_neq in H1. subst.
  auto.
Qed.

Lemma is_key_false k : is_key k k = false -> k = 0.
Proof.
  unfold is_key. rewrite Z.eqb_refl, andb_true_r. intros H.
  apply negb_false_iff, Z.eqb_eq in H. exact H.
Qed.

Lemma is_key_false_cases k keycode :
  is_key k keycode = false -> k = 0 \/ keycode <> k.
Proof.
  unfold is_key.
  destruct (Z.eqb_spec k 0), (Z.eqb_spec keycode k); simpl; auto;
    discriminate.
Qed.

Lemma lookup_key_esc ses keycode :
  lookup_key ses keycode = Some KEsc
  <-> is_key (kcDown (kc ses)) keycode = false
      /\ is_key (kcEnd (kc ses)) keycode = false
      /\ is_key (kcEsc (kc ses)) keycode = true.
Proof.
  unfold lookup_key. cbv zeta.
  destruct (is_key (kcDown (kc ses)) keycode);
    [split; [discriminate | intros (H & _); discriminate H]|].
  destruct (is_key (kcEnd (kc ses)) keycode);
    [split; [discriminate | intros (_ & H & _); discriminate H]|].
  destruct (is_key (kcEsc (kc ses)) keycode); [split; auto|].
  split; [|intros (_ & _ & H); discriminate H].
  repeat match goal with
         | |- context [if ?b then _ else _] => destruct b
         end; discriminate.
Qed.

Lemma is_escape_code ses ev : is_escape ses ev = escape_event ses ev.
Proof.
  destruct ev as [keycode| |]; try reflexivity.
  apply eq_true_iff_eq. unfold is_escape, escape_event, escape_code.
  rewrite !andb_true_iff, !negb_true_iff, Z.eqb_eq, !Z.eqb_neq.
  split.
  - intros H.
    assert (E : lookup_key ses keycode = Some KEsc).
    { destruct (lookup_key ses keycode) as [[]|]; try discriminate H.
      reflexivity. }
    apply lookup_key_esc in E as (H1 & H2 & H3).
    apply is_key_false_cases in H1, H2. apply is_key_true in H3. lia.
  - intros H.
    assert (E : lookup_key ses keycode = Some KEsc).
    { apply lookup_key_esc. unfold is_key.
      rewrite !andb_false_iff, andb_true_iff, !negb_false_iff,
        negb_true_iff, !Z.eqb_eq, !Z.eqb_neq.
      lia. }
    rewrite E. reflexivity.
Qed.

Lemma escape_pressed_among ses evs :
  escape_pressed ses evs = escape_among ses evs.
Proof.
  unfold escape_pressed, escape_among.
  induction evs as [|ev evs IH]; [reflexivity|]. simpl.
  rewrite is_escape_code, IH. reflexivity.
Qed.

Lemma lookup_key_mult_code ses keycode :
  lookup_key ses keycode = Some KKpMult -> keycode = kcKpMult (kc ses).
Proof.
  unfold lookup_key. cbv zeta.
  repeat match goal with
         | |- (if is_key ?a ?b && ?c then _ else _) = _ -> _ =>
             let E := fresh "E" in
             destruct (is_key a b && c) eqn:E;
             [ intros _; apply andb_true_iff in E as [E _];
               apply is_key_true in E as [E _]; symmetry; exact E | ]
         | |- (if is_key ?a ?b then _ else _) = _ -> _ =>
             destruct (is_key a b); [discriminate|]
         end.
  discriminate.
Qed.

(** ** The events of a cycle, whatever the cursor *)

Section AnyCursor.

Variable ses : session.

Lemma on_event_any ev s s' :
  on_event ses ev s = Some s' ->
  iErr s' = iErr s
  /\ iRunning s' = iRunning s && negb (escape_event ses ev)
  /\ (libvlc_Stopped <= v_state (V s) -> libvlc_Stopped <= v_state (V s')).
Proof.
  intros H. rewrite <- is_escape_code.
  destruct ev as [keycode| |]; simpl in *.
  - destruct (lookup_key ses keycode) as [k|] eqn:E.
    + destruct (on_key_running ses k s s' H) as [He Hr].
      split; [exact He|]. split.
      * rewrite Hr. destruct k; simpl; rewrite ?andb_true_r, ?andb_false_r;
          reflexivity.
      * apply (on_key_stopped ses k s s' H).
    + injection H as <-. rewrite andb_true_r. auto.
  - injection H as <-. simpl. rewrite andb_true_r. auto.
  - injection H as <-. rewrite andb_true_r. auto.
Qed.

Lemma drain_any evs :
  forall s s1,
    drain ses evs s = Some s1 ->
    iErr s1 = iErr s
    /\ iRunning s1 = iRunning s && negb (escape_among ses evs)
    /\ (libvlc_Stopped <= v_state (V s) ->
        libvlc_Stopped <= v_state (V s1)).
Proof.
  induction evs as [|ev evs IH]; intros s s1 H.
  - injection H as <-. simpl. rewrite andb_true_r. auto.
  - cbn [drain] in H.
    destruct (on_event ses ev s) as [s'|] eqn:E; [|discriminate].
    destruct (on_event_any ev s s' E) as (He & Hr & Hs).
    destruct (IH s' s1 H) as (He1 & Hr1 & Hs1).
    split; [congruence|]. split.
    + rewrite Hr1, Hr. unfold escape_among. simpl.
      rewrite negb_orb, andb_assoc. reflexivity.
    + auto.
Qed.

(** Without a press of the key with the code of the keypad [*], every
    event is handled. *)
Lemma drain_without_star evs :
  (forall keycode, In (KeyPress keycode) evs ->
                   keycode <> kcKpMult (kc ses)) ->
  forall s, exists s1, drain ses evs s = Some s1.
Proof.
  induction evs as [|ev evs IH]; intros Hno s.
  - exists s. reflexivity.
  - assert (Hev : exists s', on_event ses ev s = Some s').
    { destruct ev as [keycode| |]; simpl.
      - destruct (lookup_key ses keycode) as [k|] eqn:E;
          [|eexists; reflexivity].
        apply on_key_other. intros ->.
        apply lookup_key_mult_code in E.
        apply (Hno keycode); [left; reflexivity | exact E].
      - eexists. reflexivity.
      - eexists. reflexivity. }
    destruct Hev as (s' & Hs'). cbn [drain]. rewrite Hs'.
    apply IH. intros keycode Hin. apply Hno. right. exact Hin.
Qed.

End AnyCursor.

(** ** The loop as a whole *)

(** Once the loop condition is false, no further cycle is run: the stopped
    state is terminal. *)
Lemma event_loop_terminal ses inputs s :
  continues s = false -> event_loop ses inputs s = Some s.
Proof.
  unfold continues. intros H. destruct inputs; simpl; rewrite H; reflexivity.
Qed.

(** While it is true, the loop runs the next cycle and goes on from the
    state that cycle leaves. *)
Lemma event_loop_step ses inp rest s :
  continues s = true ->
  event_loop ses (inp :: rest) s
  = match cycle ses inp s with
    | Some s' => event_loop ses rest s'
    | None => None
    end.
Proof. unfold continues. intros H. simpl. rewrite H. reflexivity. Qed.

(** C5.  Take a cycle entered while the loop is running and without an
    error.  Its events are all handled when the cursor is an index of the
    track array, and also, whatever the cursor holds, when no pending
    press has the code of the keypad [*].  Whenever they are handled, the
    loop stops with this cycle (the loop condition is false after it and
    the loop returns the state the cycle left, however many cycles could
    follow) when a pending event is a press of the key with the code of
    escape, or the state the engine reports after the events is
    [libvlc_Stopped] or beyond, or the time it then reports is negative, or
    that time is at least the end time; and when none of these holds the
    loop condition is still true and the loop goes on with the cycles that
    follow.  In the negative case the error recorded is
    [ERROR_FSPLAYER_VLC].  A state at or beyond [libvlc_Stopped] reached
    during the wait stops the loop whatever events are pending. *)
Theorem poll_cycle_exit :
  forall (ses : session) (inp : cycle_input) (rest : list cycle_input)
         (s : loop_state),
    iRunning s = true ->
    iErr s = 0 ->
    (tracks_ok ses s
     \/ (forall keycode, In (KeyPress keycode) (pending inp) ->
                         keycode <> kcKpMult (kc ses)) ->
     exists s1, drain ses (pending inp) (wait inp s) = Some s1)
    /\ (forall s1,
           drain ses (pending inp) (wait inp s) = Some s1 ->
           exists s',
             cycle ses inp s = Some s'
             /\ (escape_among ses (pending inp) = true
                 \/ libvlc_Stopped <= libvlc_media_player_get_state (V s1)
                 \/ libvlc_media_player_get_time (V s1) < 0
                 \/ iEndTimeMs ses <= libvlc_media_player_get_time (V s1) ->
                 continues s' = false
                 /\ event_loop ses (inp :: rest) s = Some s')
             /\ (escape_among ses (pending inp) = false ->
                 libvlc_media_player_get_state (V s1) < libvlc_Stopped ->
                 0 <= libvlc_media_player_get_time (V s1) < iEndTimeMs ses ->
                 continues s' = true
                 /\ event_loop ses (inp :: rest) s
                    = event_loop ses rest s')
             /\ (escape_among ses (pending inp) = false ->
                 libvlc_media_player_get_state (V s1) < libvlc_Stopped ->
                 libvlc_media_player_get_time (V s1) < 0 ->
                 iErr s' = ERROR_FSPLAYER_VLC)
             /\ (libvlc_Stopped <= v_state (engine_progress inp (V s)) ->
                 continues s' = false)).
Proof.
  intros ses inp rest s Hrun Herr. split.
  - intros [Hok|Hno].
    + destruct (drain_spec ses (pending inp) (wait inp s))
        as (s1 & Hd & _); [exact Hok|].
      exists s1. exact Hd.
    + apply drain_without_star. exact Hno.
  - intros s1 Hd.
    destruct (drain_any ses (pending inp) (wait inp s) s1 Hd)
      as (He & Hr & Hs).
    simpl in He, Hr, Hs. rewrite Herr in He. rewrite Hrun in Hr.
    simpl in Hr.
    exists (reclaim_focus ses (check_time ses (check_state s1))).
    assert (Hloop : forall s',
               cycle ses inp s = Some s' ->
               event_loop ses (inp :: rest) s = event_loop ses rest s').
    { intros s' Hc. rewrite event_loop_step
        by (unfold continues; rewrite Hrun, Herr; reflexivity).
      rewrite Hc. reflexivity. }
    assert (Hc : cycle ses inp s
                 = Some (reclaim_focus ses
                           (check_time ses (check_state s1)))).
    { unfold cycle. rewrite Hd. reflexivity. }
    split; [exact Hc|].
    rewrite (Hloop _ Hc).
    destruct (reclaim_focus_continues ses
                (check_time ses (check_state s1))) as (Hcont & Herr' & _).
    rewrite Herr'.
    unfold libvlc_media_player_get_state, libvlc_media_player_get_time
      in *.
    assert (Hmain :
      continues (check_time ses (check_state s1)) = false <->
      escape_among ses (pending inp) = true
      \/ libvlc_Stopped <= v_state (V s1)
      \/ v_time (V s1) < 0
      \/ iEndTimeMs ses <= v_time (V s1)).
    { unfold check_time, check_state, continues,
        libvlc_media_player_get_state, libvlc_media_player_get_time.
      destruct (escape_among ses (pending inp)) eqn:Hesc; simpl in Hr.
      - repeat (rewrite Hr; simpl).
        split; [intros _; left|]; reflexivity.
      - rewrite Hr.
        destruct (libvlc_Stopped <=? v_state (V s1)) eqn:E1; simpl.
        + apply Z.leb_le in E1. split; [intros _; right; left; exact E1|].
          reflexivity.
        + apply Z.leb_gt in E1. rewrite Hr.
          destruct (v_time (V s1) <? 0) eqn:E2; simpl.
          * apply Z.ltb_lt in E2. repeat (rewrite Hr; simpl).
            split; [intros _; right; right; left; exact E2 | reflexivity].
          * apply Z.ltb_ge in E2. rewrite He. simpl.
            destruct (iEndTimeMs ses <=? v_time (V s1)) eqn:E3; simpl.
            -- apply Z.leb_le in E3.
               split; [intros _; right; right; right; exact E3
                      | reflexivity].
            -- apply Z.leb_gt in E3. rewrite Hr, He. simpl.
               split; [discriminate|].
               intros [H|[H|[H|H]]]; [discriminate H | lia | lia | lia]. }
    split; [|split; [|split]].
    + intros Hstop.
      assert (Hf : continues
                     (reclaim_focus ses (check_time ses (check_state s1)))
                   = false)
        by (rewrite Hcont; apply Hmain; exact Hstop).
      split; [exact Hf|]. apply event_loop_terminal. exact Hf.
    + intros Hesc Hst Ht. split; [|reflexivity].
      rewrite Hcont.
      destruct (continues (check_time ses (check_state s1))) eqn:Hc';
        [reflexivity|].
      destruct (proj1 Hmain eq_refl) as [H|[H|[H|H]]];
        [congruence | lia | lia | lia].
    + intros Hesc Hst Ht. rewrite Hesc in Hr. simpl in Hr.
      unfold check_time, check_state,
        libvlc_media_player_get_state, libvlc_media_player_get_time.
      rewrite Hr.
      replace (libvlc_Stopped <=? v_state (V s1)) with false
        by (symmetry; apply Z.leb_gt; exact Hst).
      rewrite Hr.
      replace (v_time (V s1) <? 0) with true
        by (symmetry; apply Z.ltb_lt; exact Ht).
      reflexivity.
    + intros Hst. rewrite Hcont. apply Hmain. right. left. apply Hs.
      exact Hst.
Qed.

Lemma poll_cycle_exit_witness :
  (exists s',
      event_loop Examples.film [Examples.film_ends; Examples.film_ends]
        (Examples.playing 1000 100) = Some s'
      /\ continues s' = false)
  /\ (exists s',
         event_loop Examples.film
           [{| engine_progress := fun e => e;
               server_progress := fun x => x;
               pending := [KeyPress 9] |}; Examples.film_ends]
           (Examples.entered_with 7) = Some s'
         /\ continues s' = false).
Proof.
  split.
  - destruct (proj2 (poll_cycle_exit Examples.film Examples.film_ends
                       [Examples.film_ends] (Examples.playing 1000 100)
                       eq_refl eq_refl) _ eq_refl)
      as (s' & _ & Hstop & _).
    exists s'. destruct Hstop as [Hc Hl].
    + right. left. simpl. unfold libvlc_Stopped, libvlc_Ended. lia.
    + split; [exact Hl | exact Hc].
  - destruct (proj2 (poll_cycle_exit Examples.film
                       {| engine_progress := fun e => e;
                          server_progress := fun x => x;
                          pending := [KeyPress 9] |}
                       [Examples.film_ends] (Examples.entered_with 7)
                       eq_refl eq_refl) _ eq_refl)
      as (s' & _ & Hstop & _).
    exists s'. destruct Hstop as [Hc Hl].
    + left. reflexivity.
    + split; [exact Hl | exact Hc].
Defined.

(** * Start-up errors and the teardown *)

(** C4, evaluated on the code.  Started without an argument, [main] fails
    with the usage error and never opens the display, yet it goes on to read
    the connection number out of the null display; and since [wInput] was
    never assigned, its test in the teardown reads whatever the variable
    holds, here 77, and [XDestroyWindow] is called on the null display.
    Started while a window of the engine is already on the screen, [main]
    fails before it creates the input window, and the teardown destroys
    window 77, which it never created. *)
Theorem main_teardown_after_early_error :
  Main.iErr (Main.main Examples.no_argument) = ERROR_FSPLAYER_USAGE
  /\ Main.pX11Display (Main.main Examples.no_argument) = 0
  /\ Main.calls (Main.main Examples.no_argument)
     = [Main.OnDisplay "ConnectionNumber" 0;
        Main.OnWindow "XDestroyWindow" 0 77]
  /\ existsb Main.on_null (Main.calls (Main.main Examples.no_argument))
     = true
  /\ Main.iErr (Main.main Examples.already_running) = ERROR_FSPLAYER_VLCRUN
  /\ Main.calls (Main.main Examples.already_running)
     = [Main.OnDisplay "XDefaultScreen" 1000;
        Main.OnDisplay "XDefaultRootWindow" 1000;
        Main.OnDisplay "XBlackPixel" 1000;
        Main.OnDisplay "XF86VidModeGetModeLine" 1000;
        Main.OnDisplay "XF86VidModeSetViewPort" 1000;
        Main.OnDisplay "FindVlcWindow" 1000;
        Main.OnDisplay "ConnectionNumber" 1000;
        Main.OnWindow "XDestroyWindow" 1000 77;
        Main.OnDisplay "XCloseDisplay" 1000].
Proof. repeat split. Qed.

(** The teardown only adds calls. *)
Lemma maybe_emit_appends (b : bool) cs0 l :
  exists cs,
    Main.calls (if b then Main.emit cs0 l else l) = Main.calls l ++ cs.
Proof.
  destruct b; eexists; [reflexivity|]. symmetry. apply app_nil_r.
Qed.

Lemma appends_trans l1 l2 l3 :
  (exists cs, Main.calls l2 = Main.calls l1 ++ cs) ->
  (exists cs, Main.calls l3 = Main.calls l2 ++ cs) ->
  exists cs, Main.calls l3 = Main.calls l1 ++ cs.
Proof.
  intros [c1 E1] [c2 E2]. exists (c1 ++ c2).
  rewrite E2, E1, app_assoc. reflexivity.
Qed.

Lemma teardown_appends l :
  exists cs, Main.calls (Main.teardown l) = Main.calls l ++ cs.
Proof.
  unfold Main.teardown. cbv zeta.
  eapply appends_trans; [|apply maybe_emit_appends].
  eapply appends_trans; [|apply maybe_emit_appends].
  eapply appends_trans; [|apply maybe_emit_appends].
  eapply appends_trans; [|apply maybe_emit_appends].
  eapply appends_trans; [|apply maybe_emit_appends].
  eapply appends_trans; [|apply maybe_emit_appends].
  apply maybe_emit_appends.
Qed.

(** Whatever happened before, [main] reads the connection number out of
    the display pointer it has when the start-up is over. *)
Lemma main_reads_connection_number e :
  In (Main.OnDisplay "ConnectionNumber"
        (Main.pX11Display (Main.initialise e)))
     (Main.calls (Main.main e)).
Proof.
  unfold Main.main.
  destruct (teardown_appends
              (Main.run_event_loop e (Main.initialise e))) as [cs ->].
  apply in_or_app. left.
  generalize (Main.initialise e) as l0. intros [err play d w t i p a cs0].
  unfold Main.run_event_loop, Main.emit, Main.set_iErr.
  cbn [Main.iErr Main.iPlay Main.pX11Display Main.wInput Main.wTaskbar
       Main.pVlcInst Main.pVlcPlayer Main.pVlcAudioTrackId Main.calls].
  destruct (err =? 0);
    cbn [Main.iErr Main.iPlay Main.pX11Display Main.wInput Main.wTaskbar
         Main.pVlcInst Main.pVlcPlayer Main.pVlcAudioTrackId Main.calls];
    rewrite ?in_app_iff; simpl; tauto.
Qed.

(** Without exactly one argument the display is never opened. *)
Lemma usage_error_leaves_display_null e :
  Main.argc e <> 2 -> Main.pX11Display (Main.initialise e) = 0.
Proof.
  intros H. apply Z.eqb_neq in H.
  set (l1 := Main.check_arguments e (Main.declarations e)).
  assert (H1 : l1 = Main.set_iErr ERROR_FSPLAYER_USAGE (Main.declarations e)).
  { subst l1. unfold Main.check_arguments. rewrite H. reflexivity. }
  assert (skip : forall f, Main.unless_error f l1 = l1).
  { intros f. unfold Main.unless_error. rewrite H1. reflexivity. }
  unfold Main.initialise. cbv zeta. fold l1. rewrite !skip, H1.
  reflexivity.
Qed.

(** * The engine handles in the start-up and the teardown *)

Module MainInv.

Import Main.

Ltac crunch :=
  cbv beta iota zeta delta
    [inv calls_ok before_engine with_instance with_player unless_error emit set_iErr set_iPlay set_pX11Display
     set_wInput set_wTaskbar set_pVlcInst set_pVlcPlayer
     set_pVlcAudioTrackId iErr iPlay pX11Display wInput wTaskbar pVlcInst
     pVlcPlayer pVlcAudioTrackId calls declarations check_arguments
     open_the_display read_the_screen create_the_input_window
     intern_the_atoms load_the_engine create_the_player play_paused
     read_the_length read_the_tracks find_the_player_window
     go_fullscreen_and_play run_event_loop stop_playing raise_the_taskbar
     release_the_player release_the_instance free_the_tracks
     destroy_the_input_window close_the_display teardown] in *.

Ltac open_locals l :=
  destruct l as [err play d w t i p a cs]; crunch.

Ltac split_ifs :=
  repeat (match goal with
          | |- context [if negb (?x =? 0) then _ else _] =>
              destruct (x =? 0) eqn:?
          | |- context [if ?b then _ else _] => destruct b eqn:?
          end;
          cbv beta iota delta [negb]).

Ltac close_calls :=
  rewrite ?forallb_app; cbn [forallb engine_handle_ok andb];
  repeat match goal with
         | H : forallb engine_handle_ok _ = true |- _ => rewrite H
         | H : (?x =? 0) = false |- _ => rewrite H
         end;
  cbn [negb andb]; try reflexivity.

Lemma nonzero_eqb x : x <> 0 -> (x =? 0) = false.
Proof. apply Z.eqb_neq. Qed.

Lemma check_arguments_ok e l :
  before_engine l -> before_engine (check_arguments e l).
Proof.
  intros H. open_locals l. split_ifs; exact H.
Qed.

Lemma open_the_display_ok e l :
  before_engine l -> before_engine (unless_error (open_the_display e) l).
Proof.
  intros H. open_locals l. split_ifs; exact H.
Qed.

Lemma read_the_screen_ok e l :
  before_engine l -> before_engine (unless_error (read_the_screen e) l).
Proof.
  intros [[H1 H2] H3].
  open_locals l.
  split_ifs; (split; [split; [close_calls | exact H2] | exact H3]).
Qed.

Lemma create_the_input_window_ok e l :
  before_engine l ->
  before_engine (unless_error (create_the_input_window e) l).
Proof.
  intros [[H1 H2] H3].
  open_locals l.
  split_ifs; (split; [split; [close_calls | exact H2] | exact H3]).
Qed.

Lemma intern_the_atoms_ok e l :
  before_engine l -> before_engine (unless_error (intern_the_atoms e) l).
Proof.
  intros [[H1 H2] H3].
  open_locals l.
  split_ifs; (split; [split; [close_calls | exact H2] | exact H3]).
Qed.

Lemma load_the_engine_ok e l :
  before_engine l -> with_instance (unless_error (load_the_engine e) l).
Proof.
  intros [[H1 H2] H3].
  open_locals l.
  split_ifs;
    (split; [split; [close_calls | exact H2] | split; [exact H3|]]);
    intros E; try discriminate E;
    try (apply Z.eqb_neq; assumption);
    try (apply Z.eqb_neq in Heqb; contradiction).
Qed.

Lemma create_the_player_ok e l :
  with_instance l -> with_player (unless_error (create_the_player e) l).
Proof.
  intros [[H1 H2] [H3 H4]].
  open_locals l. subst play.
  destruct (err =? 0) eqn:E0.
  - apply Z.eqb_eq in E0. specialize (H4 E0). apply nonzero_eqb in H4.
    split_ifs;
      (split; [split; [close_calls | discriminate]|]);
      intros E; try discriminate E; try (apply Z.eqb_neq; assumption).
  - split; [split; [exact H1 | exact H2]|].
    intros E. apply Z.eqb_neq in E0. contradiction.
Qed.

Lemma player_block_ok f l :
  player_block f -> with_player l -> with_player (unless_error f l).
Proof.
  intros Hf [H1 H2]. unfold unless_error, with_player.
  destruct (iErr l =? 0) eqn:E0.
  - apply Z.eqb_eq in E0. destruct (Hf l H1 (H2 E0)) as [I P].
    split; [exact I|]. intros _. rewrite P. exact (H2 E0).
  - split; [exact H1 | exact H2].
Qed.

Lemma play_paused_block e : player_block (play_paused e).
Proof.
  intros l [H1 H2] Hp. apply nonzero_eqb in Hp.
  open_locals l.
  split_ifs; (split; [split; [close_calls|] | reflexivity]);
    intros _; apply Z.eqb_neq; assumption.
Qed.

Lemma read_the_length_block e : player_block (read_the_length e).
Proof.
  intros l [H1 H2] Hp. apply nonzero_eqb in Hp.
  open_locals l.
  split_ifs; (split; [split; [close_calls | exact H2] | reflexivity]).
Qed.

Lemma read_the_tracks_block e : player_block (read_the_tracks e).
Proof.
  intros l [H1 H2] Hp. apply nonzero_eqb in Hp.
  open_locals l.
  split_ifs; (split; [split; [close_calls | exact H2] | reflexivity]).
Qed.

Lemma find_the_player_window_block e :
  player_block (find_the_player_window e).
Proof.
  intros l [H1 H2] Hp. apply nonzero_eqb in Hp.
  open_locals l.
  split_ifs; (split; [split; [close_calls | exact H2] | reflexivity]).
Qed.

Lemma go_fullscreen_and_play_block e :
  player_block (go_fullscreen_and_play e).
Proof.
  intros l [H1 H2] Hp. apply nonzero_eqb in Hp.
  open_locals l.
  split_ifs; (split; [split; [close_calls | exact H2] | reflexivity]).
Qed.

Lemma initialise_ok e : inv (initialise e).
Proof.
  unfold initialise. cbv zeta.
  apply player_block_ok; [apply go_fullscreen_and_play_block|].
  apply player_block_ok; [apply find_the_player_window_block|].
  apply player_block_ok; [apply read_the_tracks_block|].
  apply player_block_ok; [apply read_the_length_block|].
  apply player_block_ok; [apply play_paused_block|].
  apply create_the_player_ok, load_the_engine_ok, intern_the_atoms_ok,
    create_the_input_window_ok, read_the_screen_ok, open_the_display_ok,
    check_arguments_ok.
  split; [split; [reflexivity | discriminate] | reflexivity].
Qed.

Lemma run_event_loop_ok e l : inv l -> inv (run_event_loop e l).
Proof.
  intros [H1 H2]. open_locals l.
  split_ifs; (split; [close_calls | exact H2]).
Qed.

Lemma stop_playing_ok l : inv l -> inv (stop_playing l).
Proof.
  intros [H1 H2]. open_locals l. destruct play; [|split; assumption].
  pose proof (H2 eq_refl) as Hp. apply nonzero_eqb in Hp.
  split; [close_calls | exact H2].
Qed.

Lemma raise_the_taskbar_ok l : inv l -> inv (raise_the_taskbar l).
Proof.
  intros [H1 H2]. open_locals l.
  split_ifs; (split; [close_calls | exact H2]).
Qed.

Lemma release_the_player_ok l : inv l -> inv (release_the_player l).
Proof.
  intros [H1 H2]. open_locals l.
  split_ifs; (split; [close_calls | exact H2]).
Qed.

Lemma release_the_instance_ok l : inv l -> inv (release_the_instance l).
Proof.
  intros [H1 H2]. open_locals l.
  split_ifs; (split; [close_calls | exact H2]).
Qed.

Lemma free_the_tracks_ok l : inv l -> inv (free_the_tracks l).
Proof.
  intros [H1 H2]. open_locals l.
  split_ifs; (split; [close_calls | exact H2]).
Qed.

Lemma destroy_the_input_window_ok l :
  inv l -> inv (destroy_the_input_window l).
Proof.
  intros [H1 H2]. open_locals l.
  split_ifs; (split; [close_calls | exact H2]).
Qed.

Lemma close_the_display_ok l : inv l -> inv (close_the_display l).
Proof.
  intros [H1 H2]. open_locals l.
  split_ifs; (split; [close_calls | exact H2]).
Qed.

Lemma teardown_ok l : inv l -> calls_ok (teardown l).
Proof.
  intros H. unfold teardown. cbv zeta.
  apply close_the_display_ok, destroy_the_input_window_ok,
    free_the_tracks_ok, release_the_instance_ok, release_the_player_ok,
    raise_the_taskbar_ok, stop_playing_ok, H.
Qed.

End MainInv.

(** In every run of [main], the calls on an instance, a medium or a player,
    and the [free] of the track list, are handed handles that are not null:
    playback is stopped only if it was started, and the releases are guarded
    by the pointers they release. *)
Lemma main_engine_handles_guarded e :
  forallb Main.engine_handle_ok (Main.calls (Main.main e)) = true.
Proof.
  unfold Main.main.
  apply MainInv.teardown_ok, MainInv.run_event_loop_ok,
    MainInv.initialise_ok.
Qed.

(** * Further properties of the window search *)

Section FirstMatch.

Variable srv : xserver.
Variables aName aType : Z.
Variable szValue : string.

Let f := name_matches srv aName aType szValue.

(** At the root the loop over the children finds what a search of the
    windows below the root, in order, finds; only the master differs. *)
Lemma scan_result_root_view subs :
  forall st,
    fst (scan_result f true st subs)
    = fst (search_result f st (flat_map tree_ids subs))
    /\ pReturn (snd (scan_result f true st subs))
       = pReturn (snd (search_result f st (flat_map tree_ids subs)))
    /\ queried (snd (scan_result f true st subs))
       = queried (snd (search_result f st (flat_map tree_ids subs))).
Proof.
  induction subs as [|s subs IH]; intros st.
  - simpl. unfold search_result. simpl. rewrite app_nil_r. auto.
  - cbn [scan_result flat_map]. rewrite search_result_app.
    destruct (List.find f (tree_ids s)) as [m|] eqn:F.
    + unfold search_result. rewrite F. simpl. auto.
    + replace (search_result f (set_master (tree_id s) st) (tree_ids s))
        with (false, {| pReturn := pReturn st; pMaster := tree_id s;
                        queried := queried st ++ tree_ids s |})
        by (unfold search_result; rewrite F; reflexivity).
      replace (search_result f st (tree_ids s))
        with (false, {| pReturn := pReturn st; pMaster := pMaster st;
                        queried := queried st ++ tree_ids s |})
        by (unfold search_result; rewrite F; reflexivity).
      destruct (IH {| pReturn := pReturn st; pMaster := tree_id s;
                      queried := queried st ++ tree_ids s |})
        as (I1 & I2 & I3).
      rewrite I1, I2, I3. unfold search_result.
      destruct (List.find f (flat_map tree_ids subs)); simpl; auto.
Qed.

End FirstMatch.

Lemma find_first_at_root :
  forall (srv : xserver) (aName aType : Z) (szValue : string)
         (t : wtree) (p : Z) (fuel : nat) (st : find_st),
    represents srv p t ->
    tree_id t = x_root srv ->
    List.NoDup (tree_ids t) ->
    (depth t <= fuel)%nat ->
    exists b st',
      FindX11Window fuel srv (x_root srv) aName aType szValue st
      = Some (b, st')
      /\ b = match List.find (name_matches srv aName aType szValue)
                    (tree_ids t) with
              | Some _ => true
              | None => false
              end
      /\ pReturn st'
         = match List.find (name_matches srv aName aType szValue)
                   (tree_ids t) with
           | Some m => m
           | None => pReturn st
           end
      /\ queried st'
         = queried st
           ++ upto (name_matches srv aName aType szValue) (tree_ids t).
Proof.
  intros srv aName aType szValue t p fuel st Hrep Hid Hnd Hfuel.
  rewrite (find_at_root srv aName aType szValue t p fuel st)
    by assumption.
  destruct t as [w cs subs]. cbn [tree_id tree_ids tree_subs] in *. subst w.
  simpl List.find. simpl upto.
  destruct (name_matches srv aName aType szValue (x_root srv)) eqn:Hr.
  - eexists _, _. split; [reflexivity|]. simpl. auto.
  - destruct (scan_result_root_view srv aName aType szValue subs
                (log_query (x_root srv) st)) as (Hb & Hret & Hq).
    destruct (scan_result _ true _ subs) as [b st'].
    exists b, st'. split; [reflexivity|].
    simpl in Hb, Hret, Hq. rewrite Hb, Hret, Hq.
    unfold search_result.
    destruct (List.find _ (flat_map tree_ids subs)) as [m|] eqn:F; simpl;
      rewrite <- app_assoc; simpl; auto.
    split; [reflexivity|]. split; [reflexivity|].
    f_equal. f_equal.
    clear - F. induction (flat_map tree_ids subs) as [|a l IH]; simpl in *;
      [reflexivity|].
    destruct (name_matches srv aName aType szValue a); [discriminate|].
    f_equal. apply IH, F.
Qed.

(** X1.  Whatever the number of windows that carry the searched name,
    [FindX11Window] started at the root of a hierarchy of distinct windows
    reports found exactly when some window carries the name, returns the
    first such window in the order parents first, children as listed, leaves
    the returned window as it was when there is none, and reads the windows
    in that order up to and including the one it returns. *)
Theorem FindX11Window_first_match :
  forall (srv : xserver) (aName aType : Z) (szValue : string)
         (t : wtree) (p : Z) (fuel : nat) (st : find_st),
    represents srv p t ->
    tree_id t = x_root srv ->
    List.NoDup (tree_ids t) ->
    (depth t <= fuel)%nat ->
    exists b st',
      FindX11Window fuel srv (x_root srv) aName aType szValue st
      = Some (b, st')
      /\ b = match List.find (name_matches srv aName aType szValue)
                    (tree_ids t) with
              | Some _ => true
              | None => false
              end
      /\ pReturn st'
         = match List.find (name_matches srv aName aType szValue)
                   (tree_ids t) with
           | Some m => m
           | None => pReturn st
           end
      /\ queried st'
         = queried st
           ++ upto (name_matches srv aName aType szValue) (tree_ids t).
Proof.
  intros srv aName aType szValue t p fuel st Hrep Hid Hnd Hfuel.
  destruct (find_first_at_root srv aName aType szValue t p fuel st
              Hrep Hid Hnd Hfuel) as (b & st' & Hrun & Hb & Hret & Hq).
  exists b, st'. split; [exact Hrun|]. split; [exact Hb|].
  split; [exact Hret | exact Hq].
Qed.

Lemma FindX11Window_first_match_witness :
  exists b st',
    FindX11Window 3 Examples.desktop 1 Examples.XA_WM_NAME
      Examples.XA_STRING "VLC media player" find_init = Some (b, st')
    /\ b = true
    /\ pReturn st' = 4
    /\ queried st' = [] ++ [1; 2; 4].
Proof.
  apply (FindX11Window_first_match Examples.desktop Examples.XA_WM_NAME
           Examples.XA_STRING "VLC media player" Examples.desktop_tree 0 3
           find_init).
  - vm_compute. repeat split.
  - reflexivity.
  - simpl. repeat (constructor; [simpl; intuition lia|]). constructor.
  - simpl. lia.
Defined.

(** * FindMaster *)

Section Climb.

Variable srv : xserver.
Variable pm : Z.

Lemma climbs_more w d d' res :
  climbs srv pm w d res -> (d <= d')%nat -> climbs srv pm w d' res.
Proof. intros H Hd fuel Hf. apply H. lia. Qed.

(** Every window of a hierarchy below the root climbs to where the top of
    the hierarchy climbs. *)
Lemma climbs_from_below :
  forall t p d res,
    represents srv p t ->
    ~ In (x_root srv) (tree_ids t) ->
    climbs srv pm (tree_id t) d res ->
    forall x, In x (tree_ids t) -> climbs srv pm x (d + depth t) res.
Proof.
  induction t as [w cs subs IH] using wtree_ind'.
  intros p d res (Hq & Hf & Hsubs) Hroot Htop x Hx.
  apply represents_subs in Hsubs.
  cbn [tree_id tree_ids depth] in *.
  destruct Hx as [<-|Hx]; [eapply climbs_more; [exact Htop | lia]|].
  apply in_flat_map in Hx as (s & Hs & Hx).
  rewrite List.Forall_forall in IH, Hsubs.
  assert (Hstep : climbs srv pm (tree_id s) (S d) res).
  { intros [|fuel] Hfuel; [lia|]. simpl.
    specialize (Hsubs s Hs). destruct s as [ws css subss].
    destruct Hsubs as (Hqs & _). cbn [tree_id]. rewrite Hqs.
    replace (w =? x_root srv) with false.
    - apply Htop. lia.
    - symmetry. apply Z.eqb_neq. intros ->. apply Hroot. left. reflexivity. }
  eapply climbs_more.
  - apply (IH s Hs w (S d) res); [apply Hsubs, Hs | | exact Hstep | exact Hx].
    intros Hin. apply Hroot. right. apply in_flat_map. eauto.
  - pose proof (depth_sub s subs Hs). lia.
Qed.

End Climb.

Lemma FindMaster_in_root_child :
  forall (srv : xserver) (t s : wtree) (p : Z) (fuel : nat) (x : Z),
    represents srv p t ->
    tree_id t = x_root srv ->
    List.NoDup (tree_ids t) ->
    In s (tree_subs t) ->
    In x (tree_ids s) ->
    (depth t <= fuel)%nat ->
    FindMaster fuel srv x = Some (tree_id s).
Proof.
  intros srv [w cs subs] s p fuel x (Hq & Hf & Hsubs) Hid Hnd Hs Hx Hfuel.
  apply represents_subs in Hsubs. rewrite List.Forall_forall in Hsubs.
  cbn [tree_id tree_ids tree_subs depth] in *. subst w.
  apply List.NoDup_cons_iff in Hnd as [Hroot _].
  assert (Hs_root : ~ In (x_root srv) (tree_ids s)).
  { intros Hin. apply Hroot. apply in_flat_map. eauto. }
  unfold FindMaster.
  apply (climbs_from_below srv x s (x_root srv) 1 (tree_id s));
    [apply Hsubs, Hs | exact Hs_root | | exact Hx |].
  - intros [|f] Hf'; [lia|]. simpl.
    specialize (Hsubs s Hs). destruct s as [ws css subss].
    destruct Hsubs as (Hqs & _). cbn [tree_id]. rewrite Hqs, Z.eqb_refl.
    reflexivity.
  - pose proof (depth_sub s subs Hs). lia.
Qed.

(** X2.  In a hierarchy of distinct windows, [FindMaster] started at any
    window below the root, with as many turns as the hierarchy is deep,
    returns the child of the root whose hierarchy holds that window (itself
    when it is a child of the root). *)
Theorem FindMaster_root_child :
  forall (srv : xserver) (t s : wtree) (p : Z) (fuel : nat) (x : Z),
    represents srv p t ->
    tree_id t = x_root srv ->
    List.NoDup (tree_ids t) ->
    In s (tree_subs t) ->
    In x (tree_ids s) ->
    (depth t <= fuel)%nat ->
    FindMaster fuel srv x = Some (tree_id s).
Proof.
  intros srv t s p fuel x Hrep Hid Hnd Hs Hx Hfuel.
  rewrite (FindMaster_in_root_child srv t s p fuel x Hrep Hid Hnd Hs Hx
             Hfuel).
  reflexivity.
Qed.

Lemma FindMaster_root_child_witness :
  FindMaster 3 Examples.desktop 4 = Some 2.
Proof.
  apply (FindMaster_root_child Examples.desktop Examples.desktop_tree
           (WNode 2 [1; 4; 2] [WNode 4 [2; 1] []]) 0 3 4).
  - vm_compute. repeat split.
  - reflexivity.
  - simpl. repeat (constructor; [simpl; intuition lia|]). constructor.
  - simpl. auto.
  - simpl. auto.
  - simpl. lia.
Defined.

(** * The walker and FindMaster together *)

Lemma scan_root_found srv aName aType szValue :
  forall subs st st',
    scan_result (name_matches srv aName aType szValue) true st subs
    = (true, st') ->
    exists s,
      In s subs
      /\ List.find (name_matches srv aName aType szValue) (tree_ids s)
         = Some (pReturn st')
      /\ pMaster st' = tree_id s.
Proof.
  induction subs as [|s subs IH]; intros st st'; simpl; [discriminate|].
  unfold search_result.
  destruct (List.find _ (tree_ids s)) as [m|] eqn:F.
  - intros [= <-]. exists s. simpl. auto.
  - intros H. destruct (IH _ _ H) as (s' & Hs' & F' & M).
    exists s'. auto.
Qed.

(** X3.  When the search started at the root of a hierarchy of distinct
    windows finds a window below the root, the master it reports is the
    window [FindMaster] returns for the window found: the two ways the
    program has of finding a master agree. *)
Theorem FindMaster_agrees_with_search :
  forall (srv : xserver) (aName aType : Z) (szValue : string)
         (t : wtree) (p : Z) (fuel : nat) (st st' : find_st),
    represents srv p t ->
    tree_id t = x_root srv ->
    List.NoDup (tree_ids t) ->
    (depth t <= fuel)%nat ->
    FindX11Window fuel srv (x_root srv) aName aType szValue st
    = Some (true, st') ->
    pReturn st' <> x_root srv ->
    FindMaster fuel srv (pReturn st') = Some (pMaster st').
Proof.
  intros srv aName aType szValue t p fuel st st' Hrep Hid Hnd Hfuel Hfind
         Hbelow.
  rewrite (find_at_root srv aName aType szValue t p fuel st) in Hfind
    by assumption.
  destruct (name_matches srv aName aType szValue (x_root srv)).
  - injection Hfind as <-. simpl in Hbelow. congruence.
  - injection Hfind as Hscan.
    destruct (scan_root_found _ _ _ _ _ _ _ Hscan) as (s & Hs & F & M).
    apply find_some_in in F as [Hin _]. rewrite M.
    apply (FindMaster_in_root_child srv t s p fuel); assumption.
Qed.

Lemma FindMaster_agrees_with_search_witness :
  FindMaster 3 Examples.desktop 4 = Some 2.
Proof.
  apply (FindMaster_agrees_with_search Examples.desktop Examples.XA_WM_NAME
           Examples.XA_STRING "VLC media player" Examples.desktop_tree 0 3
           find_init
           {| pReturn := 4; pMaster := 2; queried := [1; 2; 4] |}).
  - vm_compute. repeat split.
  - reflexivity.
  - simpl. repeat (constructor; [simpl; intuition lia|]). constructor.
  - simpl. lia.
  - vm_compute. reflexivity.
  - simpl. lia.
Defined.

(** * FindVlcWindow *)



(** * How much of a name is compared *)

(** X5.  [FindX11Window] asks for four 32-bit units of the property, so a
    window whose [WM_NAME] starts with the sixteen characters
    "VLC media player" is taken for the engine's window whatever follows
    them. *)
Theorem name_matches_sixteen_bytes :
  forall (srv : xserver) (w aName aType : Z) (r : xwin) (rest : string),
    x_wins srv !! w = Some r ->
    w_props r !! aName
    = Some (aType, (FSPLAYER_LIBVLCWMNAME ++ rest)%string) ->
    name_matches srv aName aType FSPLAYER_LIBVLCWMNAME w = true.
Proof.
  intros srv w aName aType r rest Hw Hp.
  unfold name_matches, XGetWindowProperty. rewrite Hw, Hp, Z.eqb_refl.
  rewrite orb_true_r. unfold FSPLAYER_LIBVLCWMNAME.
  destruct rest; reflexivity.
Qed.

Lemma name_matches_sixteen_bytes_witness :
  name_matches
    (XChangeProperty Examples.desktop 3 Examples.XA_WM_NAME
       Examples.XA_STRING "VLC media player - film.mkv")
    Examples.XA_WM_NAME Examples.XA_STRING FSPLAYER_LIBVLCWMNAME 3 = true.
Proof.
  apply (name_matches_sixteen_bytes _ 3 Examples.XA_WM_NAME
           Examples.XA_STRING
           {| w_parent := 1; w_children := [];
              w_attr := Examples.attr 0 1050 1920 30 0 true IsViewable;
              w_props := <[Examples.XA_WM_NAME :=
                             (Examples.XA_STRING,
                              "VLC media player - film.mkv"%string)]>
                           (Examples.named "panel") |}
           " - film.mkv").
  - vm_compute. reflexivity.
  - vm_compute. reflexivity.
Defined.

(** * Where PositionWindow puts the window *)

Lemma XMoveWindow_twice srv w x1 y1 x2 y2 :
  XMoveWindow (XMoveWindow srv w x1 y1) w x2 y2 = XMoveWindow srv w x2 y2.
Proof.
  unfold XMoveWindow, update_win.
  destruct (x_wins srv !! w) as [r|] eqn:E; simpl.
  - rewrite lookup_insert_eq. unfold set_wins. simpl.
    rewrite insert_insert_eq. reflexivity.
  - rewrite E. reflexivity.
Qed.

Lemma XGetGeometry_moved srv w x y :
  XGetGeometry (XMoveWindow srv w x y) w
  = match XGetGeometry srv w with
    | Some (_, _, wd, ht, b) => Some (x, y, wd, ht, b)
    | None => None
    end.
Proof.
  unfold XGetGeometry, XMoveWindow. rewrite lookup_update_win.
  destruct (decide (w = w)); [|congruence].
  destruct (x_wins srv !! w); reflexivity.
Qed.

(** X6.  For a window smaller than the screen, with sizes that fit an
    [int], [PositionWindow] puts the window entirely on the screen: at the
    left edge for keypad 1, 4, 7, flush with the right edge for 3, 6, 9 and
    centred to the pixel otherwise, and likewise at the top for 7, 8, 9, at
    the bottom for 1, 2, 3 and centred otherwise.  The unsigned arithmetic
    never wraps there. *)
Theorem PositionWindow_on_screen :
  forall (srv : xserver) (w iKeypadPos scrx scry : Z) (r : xwin),
    x_wins srv !! w = Some r ->
    0 <= a_width (w_attr r) < scrx -> scrx < 2 ^ 31 ->
    0 <= a_height (w_attr r) < scry -> scry < 2 ^ 31 ->
    exists r',
      x_wins (PositionWindow srv w iKeypadPos scrx scry) !! w = Some r'
      /\ a_x (w_attr r')
         = (if (iKeypadPos =? 1) || (iKeypadPos =? 4) || (iKeypadPos =? 7)
            then 0
            else if (iKeypadPos =? 3) || (iKeypadPos =? 6)
                    || (iKeypadPos =? 9)
            then scrx - a_width (w_attr r)
            else (scrx - a_width (w_attr r)) / 2)
      /\ a_y (w_attr r')
         = (if (iKeypadPos =? 7) || (iKeypadPos =? 8) || (iKeypadPos =? 9)
            then 0
            else if (iKeypadPos =? 1) || (iKeypadPos =? 2)
                    || (iKeypadPos =? 3)
            then scry - a_height (w_attr r)
            else (scry - a_height (w_attr r)) / 2)
      /\ 0 <= a_x (w_attr r')
      /\ a_x (w_attr r') + a_width (w_attr r') <= scrx
      /\ 0 <= a_y (w_attr r')
      /\ a_y (w_attr r') + a_height (w_attr r') <= scry.
Proof.
  intros srv w k scrx scry r Hw Hwd Hsx Hht Hsy.
  assert (Hu : forall a, 0 <= a < 2 ^ 31 -> to_int (u32 a) = a).
  { intros a Ha. unfold to_int, u32. rewrite Z.mod_small by lia.
    destruct (a <? 2 ^ 31) eqn:E; [reflexivity|].
    apply Z.ltb_ge in E. lia. }
  assert (Hh : forall a, 0 <= a < 2 ^ 31 -> to_int (u32 a / 2) = a / 2).
  { intros a Ha. unfold to_int, u32. rewrite Z.mod_small by lia.
    assert (0 <= a / 2 <= a) by (split; [apply Z.div_pos; lia|];
      apply Z.div_le_upper_bound; lia).
    destruct (a / 2 <? 2 ^ 31) eqn:E; [reflexivity|].
    apply Z.ltb_ge in E. lia. }
  unfold PositionWindow, XGetGeometry. rewrite Hw. cbv zeta.
  replace ((a_width (w_attr r) <? scrx) && (a_height (w_attr r) <? scry))
    with true
    by (symmetry; apply andb_true_intro; split; apply Z.ltb_lt; lia).
  rewrite !Hu, !Hh by lia.
  unfold XMoveWindow. eexists. rewrite lookup_update_win.
  destruct (decide (w = w)); [|congruence]. rewrite Hw.
  split; [reflexivity|]. cbn [w_attr set_attr move_attr a_x a_y a_width
                              a_height fmap option_fmap option_map].
  split; [reflexivity|]. split; [reflexivity|].
  assert (0 <= (scrx - a_width (w_attr r)) / 2
          /\ (scrx - a_width (w_attr r)) / 2 <= scrx - a_width (w_attr r)).
  { split; [apply Z.div_pos; lia | apply Z.div_le_upper_bound; lia]. }
  assert (0 <= (scry - a_height (w_attr r)) / 2
          /\ (scry - a_height (w_attr r)) / 2 <= scry - a_height (w_attr r)).
  { split; [apply Z.div_pos; lia | apply Z.div_le_upper_bound; lia]. }
  destruct ((k =? 1) || (k =? 4) || (k =? 7)),
    ((k =? 3) || (k =? 6) || (k =? 9)),
    ((k =? 7) || (k =? 8) || (k =? 9)),
    ((k =? 1) || (k =? 2) || (k =? 3)); lia.
Qed.

Lemma PositionWindow_on_screen_witness :
  exists r',
    x_wins (PositionWindow Examples.desktop 2 3 1920 1080) !! 2 = Some r'
    /\ a_x (w_attr r') = 1920 - 648
    /\ a_y (w_attr r') = 1080 - 508.
Proof.
  destruct (PositionWindow_on_screen Examples.desktop 2 3 1920 1080
              {| w_parent := 1; w_children := [1; 4; 2];
                 w_attr := Examples.attr 4 20 648 508 0 false IsViewable;
                 w_props := Examples.named "frame" |})
    as (r' & H & Hx & Hy & _).
  - vm_compute. reflexivity.
  - simpl. lia.
  - lia.
  - simpl. lia.
  - lia.
  - exists r'. split; [exact H|]. split; [exact Hx | exact Hy].
Defined.

(** X7.  Of two [PositionWindow] calls on the same window and screen the
    last one decides: the server after both is the server after the second
    alone. *)
Theorem PositionWindow_last_wins :
  forall (srv : xserver) (w k1 k2 scrx scry : Z),
    PositionWindow (PositionWindow srv w k1 scrx scry) w k2 scrx scry
    = PositionWindow srv w k2 scrx scry.
Proof.
  intros srv w k1 k2 scrx scry. unfold PositionWindow at 2.
  destruct (XGetGeometry srv w) as [[[[[x y] wd] ht] b]|] eqn:G;
    [|reflexivity].
  destruct ((wd <? scrx) && (ht <? scry)) eqn:C; [|reflexivity].
  unfold PositionWindow. rewrite XGetGeometry_moved, G, C.
  apply XMoveWindow_twice.
Qed.

(** * Hiding the taskbar and bringing it back *)

Lemma attributes_raise srv w m :
  XGetWindowAttributes (XRaiseWindow srv w) m = XGetWindowAttributes srv m.
Proof.
  unfold XRaiseWindow. destruct (x_wins srv !! w) as [r|]; [|reflexivity].
  rewrite attributes_update_win.
  destruct (decide (w_parent r = m)); [|reflexivity].
  unfold XGetWindowAttributes. destruct (x_wins srv !! m); reflexivity.
Qed.

Lemma map_attr_back a :
  a_map_state a = IsViewable ->
  map_attr IsViewable (map_attr IsUnmapped a) = a.
Proof. destruct a; simpl; intros ->; reflexivity. Qed.

(** X8.  When [TaskbarFindAndUnmap] hands back a taskbar, that window was
    viewable with the override-redirect flag set, it is now unmapped and no
    other window has changed; [TaskbarRaise] on that handle then gives
    every window the attributes it had before the two calls. *)
Theorem taskbar_unmap_then_raise :
  forall (fuel : nat) (srv srv1 : xserver) (wRoot tb : Z),
    TaskbarFindAndUnmap fuel srv wRoot = Some (srv1, tb) ->
    tb <> 0 ->
    (exists a,
        XGetWindowAttributes srv tb = Some a
        /\ a_override_redirect a = true
        /\ a_map_state a = IsViewable
        /\ XGetWindowAttributes srv1 tb = Some (map_attr IsUnmapped a))
    /\ (forall m, m <> tb -> x_wins srv1 !! m = x_wins srv !! m)
    /\ (forall m,
           XGetWindowAttributes (TaskbarRaise srv1 tb) m
           = XGetWindowAttributes srv m).
Proof.
  intros fuel srv srv1 wRoot tb H Htb. unfold TaskbarFindAndUnmap in H.
  destruct (taskbar_search fuel srv wRoot) as [[b st]|]; [|discriminate].
  cbv zeta in H.
  destruct (negb (pReturn st =? 0)); [|injection H as _ E; congruence].
  destruct (XGetWindowAttributes srv (pMaster st)) as [a|] eqn:Ha;
    [|injection H as _ E; congruence].
  destruct (a_override_redirect a) eqn:Ho; simpl in H;
    [|injection H as _ E; congruence].
  destruct (a_map_state a =? IsViewable) eqn:Hv;
    [|injection H as _ E; congruence].
  injection H as <- <-. apply Z.eqb_eq in Hv.
  destruct (attributes_some _ _ _ Ha) as (r & Hr & Hra).
  assert (H1 : XGetWindowAttributes (XUnmapWindow srv (pMaster st))
                 (pMaster st) = Some (map_attr IsUnmapped a)).
  { unfold XUnmapWindow. rewrite attributes_update_win.
    destruct (decide (pMaster st = pMaster st)); [|congruence].
    rewrite Hr. simpl. rewrite Hra. reflexivity. }
  split; [exists a; auto|]. split.
  - intros m Hm. unfold XUnmapWindow. rewrite lookup_update_win.
    destruct (decide (pMaster st = m)); [congruence | reflexivity].
  - intros m. unfold TaskbarRaise.
    destruct (pMaster st =? 0) eqn:Z0;
      [apply Z.eqb_eq in Z0; congruence|]. simpl.
    unfold XMapRaised. rewrite attributes_raise, attributes_update_win.
    destruct (decide (pMaster st = m)) as [<-|Hm].
    + destruct (attributes_some _ _ _ H1) as (r1 & Hr1 & Hr1a).
      rewrite Hr1. simpl. rewrite Hr1a, Ha, map_attr_back by exact Hv.
      reflexivity.
    + unfold XUnmapWindow. rewrite attributes_update_win.
      destruct (decide (pMaster st = m)); [congruence | reflexivity].
Qed.

(** * What SetWindowFullscreen leaves behind *)

Lemma lookup_fullscreen_requests srv w wRoot scrx scry m :
  x_wins (fullscreen_requests srv w wRoot scrx scry) !! m
  = if decide (w = m)
    then (fun r =>
            set_attr
              (if negb (XInternAtom srv "_MOTIF_WM_HINTS" =? 0)
               then set_props r
                      (<[XInternAtom srv "_MOTIF_WM_HINTS" :=
                           (XInternAtom srv "_MOTIF_WM_HINTS",
                            sMotifWmHints)]> (w_props r))
               else r)
              (resize_attr scrx scry (move_attr 0 0 (w_attr r))))
           <$> (x_wins srv !! m)
    else x_wins srv !! m.
Proof.
  unfold fullscreen_requests. cbv zeta.
  match goal with
  | |- x_wins (if ?c then XSendEvent ?s _ _ else ?s) !! _ = _ =>
      assert (E : x_wins (if c then XSendEvent s wRoot
                            {| cm_window := w;
                               cm_message_type :=
                                 XInternAtom s "_NET_WM_STATE";
                               cm_format := 32;
                               cm_data :=
                                 [1; XInternAtom s "_NET_WM_STATE_FULLSCREEN";
                                  0; 0; 0] |}
                          else s) = x_wins s)
        by (destruct c; reflexivity);
      rewrite E; clear E
  end.
  unfold XMoveResizeWindow. rewrite lookup_update_win.
  destruct (decide (w = m)) as [<-|Hm].
  - destruct (negb (XInternAtom srv "_MOTIF_WM_HINTS" =? 0)).
    + unfold XChangeProperty. rewrite lookup_update_win.
      destruct (decide (w = w)); [|congruence].
      destruct (x_wins srv !! w); reflexivity.
    + destruct (x_wins srv !! w); reflexivity.
  - destruct (negb (XInternAtom srv "_MOTIF_WM_HINTS" =? 0));
      [|reflexivity].
    unfold XChangeProperty. rewrite lookup_update_win.
    destruct (decide (w = m)); [congruence | reflexivity].
Qed.

Lemma move_attr_same a : move_attr (a_x a) (a_y a) a = a.
Proof. destruct a; reflexivity. Qed.

Lemma set_attr_same r : set_attr r (w_attr r) = r.
Proof. destruct r; reflexivity. Qed.

Lemma lookup_move_decorations_out srv wMaster x y m :
  exists x' y',
    x_wins (move_decorations_out srv wMaster x y) !! m
    = if decide (wMaster = m)
      then (fun r => set_attr r (move_attr (x' r) (y' r) (w_attr r)))
             <$> (x_wins srv !! m)
      else x_wins srv !! m.
Proof.
  unfold move_decorations_out.
  destruct ((0 <? x) || (0 <? y)).
  - exists (fun _ => - x), (fun _ => - y).
    unfold XGetWindowAttributes.
    destruct (x_wins srv !! wMaster) as [r|] eqn:Hr.
    + destruct (a_override_redirect (w_attr r)) eqn:Ho; simpl.
      * unfold XMoveWindow. rewrite lookup_update_win. reflexivity.
      * unfold XChangeWindowAttributes_OverrideRedirect, XMoveWindow.
        rewrite !lookup_update_win.
        destruct (decide (wMaster = m)) as [<-|]; [|reflexivity].
        rewrite Hr. simpl. f_equal. destruct r as [p c a ps]. simpl in *.
        destruct a; simpl in *. subst. reflexivity.
    + cbv beta iota zeta delta [negb]. unfold XMoveWindow.
      rewrite lookup_update_win. reflexivity.
  - exists (fun r => a_x (w_attr r)), (fun r => a_y (w_attr r)).
    destruct (decide (wMaster = m)); [|reflexivity].
    destruct (x_wins srv !! m) as [r|]; [|reflexivity]. simpl.
    rewrite move_attr_same, set_attr_same. reflexivity.
Qed.

(** X9.  After [SetWindowFullscreen] the window has the size of the
    screen; unless it is its own master, it sits at the origin of its
    parent; and, when the server knows the [_MOTIF_WM_HINTS] atom, it
    carries the hints that ask for no decorations. *)
Theorem SetWindowFullscreen_target :
  forall (srv : xserver) (w wMaster wRoot scrx scry : Z) (r : xwin),
    x_wins srv !! w = Some r ->
    exists r',
      x_wins (SetWindowFullscreen srv w wMaster wRoot scrx scry) !! w
      = Some r'
      /\ a_width (w_attr r') = scrx
      /\ a_height (w_attr r') = scry
      /\ (w <> wMaster -> a_x (w_attr r') = 0 /\ a_y (w_attr r') = 0)
      /\ (XInternAtom srv "_MOTIF_WM_HINTS" <> 0 ->
          w_props r' !! XInternAtom srv "_MOTIF_WM_HINTS"
          = Some (XInternAtom srv "_MOTIF_WM_HINTS", sMotifWmHints)).
Proof.
  intros srv w wMaster wRoot scrx scry r Hr. unfold SetWindowFullscreen.
  cbv zeta.
  destruct (match XTranslateCoordinates
                    (fullscreen_requests srv w wRoot scrx scry) w with
            | Some xy => xy
            | None => (0, 0)
            end) as [x y].
  destruct (lookup_move_decorations_out
              (fullscreen_requests srv w wRoot scrx scry) wMaster x y w)
    as (x' & y' & E).
  rewrite E, lookup_fullscreen_requests.
  destruct (decide (w = w)); [|congruence]. rewrite Hr. simpl.
  assert (Hp : XInternAtom srv "_MOTIF_WM_HINTS" <> 0 ->
               w_props
                 (if negb (XInternAtom srv "_MOTIF_WM_HINTS" =? 0)
                  then set_props r
                         (<[XInternAtom srv "_MOTIF_WM_HINTS" :=
                              (XInternAtom srv "_MOTIF_WM_HINTS",
                               sMotifWmHints)]> (w_props r))
                  else r) !! XInternAtom srv "_MOTIF_WM_HINTS"
               = Some (XInternAtom srv "_MOTIF_WM_HINTS", sMotifWmHints)).
  { intros Hn. apply Z.eqb_neq in Hn. rewrite Hn. simpl.
    apply lookup_insert_eq. }
  destruct (decide (wMaster = w)) as [->|Hm].
  - eexists. split; [reflexivity|]. simpl.
    split; [reflexivity|]. split; [reflexivity|].
    split; [congruence | exact Hp].
  - eexists. split; [reflexivity|]. simpl.
    split; [reflexivity|]. split; [reflexivity|].
    split; [auto | exact Hp].
Qed.

Lemma SetWindowFullscreen_target_witness :
  exists r',
    x_wins (SetWindowFullscreen Examples.desktop 4 2 1 1920 1080) !! 4
    = Some r'
    /\ a_width (w_attr r') = 1920 /\ a_height (w_attr r') = 1080.
Proof.
  destruct (SetWindowFullscreen_target Examples.desktop 4 2 1 1920 1080
              {| w_parent := 2; w_children := [2; 1];
                 w_attr := Examples.attr 4 24 640 480 0 false IsViewable;
                 w_props := Examples.named "VLC media player" |})
    as (r' & H & Hw & Hh & _).
  - vm_compute. reflexivity.
  - exists r'. split; [exact H|]. split; [exact Hw | exact Hh].
Defined.

(** X10.  [SetWindowFullscreen] changes no window but the target and the
    master, creates and destroys none, and leaves the mapping state and the
    override-redirect flag of every window as they were: the flag it sets
    on the master to move it is cleared again. *)
Theorem SetWindowFullscreen_frame :
  forall (srv : xserver) (w wMaster wRoot scrx scry m : Z),
    (m <> w -> m <> wMaster ->
     x_wins (SetWindowFullscreen srv w wMaster wRoot scrx scry) !! m
     = x_wins srv !! m)
    /\ match x_wins srv !! m with
       | Some r =>
           exists r',
             x_wins (SetWindowFullscreen srv w wMaster wRoot scrx scry) !! m
             = Some r'
             /\ a_override_redirect (w_attr r')
                = a_override_redirect (w_attr r)
             /\ a_map_state (w_attr r') = a_map_state (w_attr r)
             /\ w_parent r' = w_parent r
             /\ w_children r' = w_children r
       | None =>
           x_wins (SetWindowFullscreen srv w wMaster wRoot scrx scry) !! m
           = None
       end.
Proof.
  intros srv w wMaster wRoot scrx scry m. unfold SetWindowFullscreen.
  cbv zeta.
  destruct (match XTranslateCoordinates
                    (fullscreen_requests srv w wRoot scrx scry) w with
            | Some xy => xy
            | None => (0, 0)
            end) as [x y].
  destruct (lookup_move_decorations_out
              (fullscreen_requests srv w wRoot scrx scry) wMaster x y m)
    as (x' & y' & E).
  rewrite E, lookup_fullscreen_requests. clear E. split.
  - intros Hw Hm.
    destruct (decide (wMaster = m)); [congruence|].
    destruct (decide (w = m)); [congruence | reflexivity].
  - destruct (x_wins srv !! m) as [r|].
    + destruct (decide (wMaster = m)), (decide (w = m));
        destruct (negb (XInternAtom srv "_MOTIF_WM_HINTS" =? 0));
        simpl; eexists; (split; [reflexivity|]); simpl; auto.
    + destruct (decide (wMaster = m)), (decide (w = m)); reflexivity.
Qed.

Lemma taskbar_unmap_then_raise_witness :
  XGetWindowAttributes
    (TaskbarRaise
       (XUnmapWindow
          (XChangeProperty Examples.desktop 3 Examples.XA_WM_NAME
             Examples.XA_STRING "xload") 3) 3) 3
  = XGetWindowAttributes
      (XChangeProperty Examples.desktop 3 Examples.XA_WM_NAME
         Examples.XA_STRING "xload") 3.
Proof.
  refine (proj2 (proj2 (taskbar_unmap_then_raise 3
            (XChangeProperty Examples.desktop 3 Examples.XA_WM_NAME
               Examples.XA_STRING "xload")
            (XUnmapWindow
               (XChangeProperty Examples.desktop 3 Examples.XA_WM_NAME
                  Examples.XA_STRING "xload") 3) 1 3 _ _)) 3).
  - vm_compute. reflexivity.
  - lia.
Defined.

(** * The key chain *)

(** X11.  The chain of [if ... else if] on a key press selects a branch
    only for a key code that is not zero, that is the code [main] looked
    up for that branch, and whose extra condition holds; and it selects
    none only when no branch whose condition holds has the pressed,
    non-zero code.  So a key the keyboard lacks (code 0) never fires, and
    the keypad [*] is dead with fewer than two audio tracks. *)
Theorem lookup_key_exact :
  forall (ses : session) (keycode : Z),
    match lookup_key ses keycode with
    | Some k =>
        key_code (kc ses) k = keycode /\ keycode <> 0
        /\ branch_open ses k = true
    | None =>
        forall k, branch_open ses k = true ->
                  key_code (kc ses) k = keycode -> keycode = 0
    end.
Proof.
  intros ses keycode. unfold lookup_key. cbv zeta.
  repeat match goal with
         | |- match (if is_key ?a ?b && ?c then _ else _) with _ => _ end =>
             let E := fresh "E" in
             destruct (is_key a b && c) eqn:E;
             [ apply andb_true_iff in E as [E ?];
               apply is_key_true in E as [? ?]; simpl;
               repeat split; assumption | ]
         | |- match (if is_key ?a ?b then _ else _) with _ => _ end =>
             let E := fresh "E" in
             destruct (is_key a b) eqn:E;
             [ apply is_key_true in E as [? ?]; simpl;
               repeat split; assumption | ]
         end.
  intros k Ho Hk.
  destruct k; simpl in Ho, Hk; subst keycode;
    try rewrite Ho, andb_true_r in *;
    match goal with
    | H : is_key ?a ?a = false |- ?a = 0 => exact (is_key_false a H)
    end.
Qed.

(** * Seeking forth and back *)

(** X12.  With the current time at least 0 and a whole step before the
    end, a forward seek followed by the backward seek of the same step
    (RIGHT then LEFT, UP then DOWN, PAGE UP then PAGE DOWN) first moves the
    time forward by exactly the step and then puts it back where it was, on
    both builds. *)
Theorem seek_forth_and_back :
  (forall (ses : session) (fwd back : key) (step : Z) (s : loop_state),
      In (fwd, back, step) seek_pairs ->
      0 <= v_time (V s) ->
      v_time (V s) + step < iEndTimeMs ses ->
      exists s1 s2,
        on_key ses fwd s = Some s1 /\ on_key ses back s1 = Some s2
        /\ v_time (V s1) = v_time (V s) + step
        /\ v_time (V s2) = v_time (V s)
        /\ new_calls (V s) (V s2)
           = [SetTime (v_time (V s) + step); SetTime (v_time (V s))])
  /\ (forall (fwd back : Win32.vkey) (step : Z) (g : Win32.globals),
         In (fwd, back, step) win32_seek_pairs ->
         0 <= v_time (Win32.gV g) ->
         v_time (Win32.gV g) + step < Win32.giEndTimeMs g ->
         exists g1 g2,
           Win32.FormKeyDown fwd g = Some g1
           /\ Win32.FormKeyDown back g1 = Some g2
           /\ v_time (Win32.gV g1) = v_time (Win32.gV g) + step
           /\ v_time (Win32.gV g2) = v_time (Win32.gV g)
           /\ new_calls (Win32.gV g) (Win32.gV g2)
              = [SetTime (v_time (Win32.gV g) + step);
                 SetTime (v_time (Win32.gV g))]).
Proof.
  assert (Hn : forall l (a b : vlc_call),
             skipn (length l) ((l ++ [a]) ++ [b]) = [a; b]).
  { intros l a b. rewrite <- app_assoc. apply skipn_length_app. }
  split.
  - intros ses fwd back step s Hin H0 H1.
    pose proof (is_int64_range _ (iEndTimeMs_fits ses)) as Hfin.
    exists (set_V (libvlc_media_player_set_time (V s)
                     (v_time (V s) + step)) s).
    exists (set_V (libvlc_media_player_set_time
                     (libvlc_media_player_set_time (V s)
                        (v_time (V s) + step))
                     (v_time (V s)))
                  (set_V (libvlc_media_player_set_time (V s)
                            (v_time (V s) + step)) s)).
    unfold seek_pairs, FSPLAYER_10SEC, FSPLAYER_1MIN, FSPLAYER_10MIN in Hin.
    simpl in Hin.
    destruct Hin as [E|[E|[E|[]]]]; injection E as <- <- <-;
      (split;
       [ cbn [on_key]; cbv zeta;
         unfold libvlc_media_player_get_time, add64, sub64,
           FSPLAYER_10SEC, FSPLAYER_1MIN, FSPLAYER_10MIN;
         exact_times; try lia; reflexivity |]);
      (split;
       [ cbn [on_key]; cbv zeta;
         unfold libvlc_media_player_get_time, add64, sub64,
           FSPLAYER_10SEC, FSPLAYER_1MIN, FSPLAYER_10MIN;
         cbn [V set_V v_time libvlc_media_player_set_time];
         exact_times; repeat f_equal; lia |]);
      (split; [reflexivity|]); (split; [reflexivity|]);
      unfold new_calls;
      cbn [V set_V v_calls libvlc_media_player_set_time];
      apply Hn.
  - intros fwd back step g Hin H0 H1.
    pose proof (is_int64_range _ (Win32.giEndTimeMs_fits g)) as Hfin.
    exists (Win32.set_gV (libvlc_media_player_set_time (Win32.gV g)
                            (v_time (Win32.gV g) + step)) g).
    exists (Win32.set_gV
              (libvlc_media_player_set_time
                 (libvlc_media_player_set_time (Win32.gV g)
                    (v_time (Win32.gV g) + step))
                 (v_time (Win32.gV g)))
              (Win32.set_gV (libvlc_media_player_set_time (Win32.gV g)
                               (v_time (Win32.gV g) + step)) g)).
    unfold win32_seek_pairs, FSPLAYER_10SEC, FSPLAYER_1MIN, FSPLAYER_10MIN
      in Hin.
    simpl in Hin.
    destruct Hin as [E|[E|[E|[]]]]; injection E as <- <- <-;
      (split;
       [ cbn [Win32.FormKeyDown]; cbv zeta;
         unfold libvlc_media_player_get_time, add64, sub64,
           FSPLAYER_10SEC, FSPLAYER_1MIN, FSPLAYER_10MIN;
         exact_times; try lia; reflexivity |]);
      (split;
       [ cbn [Win32.FormKeyDown]; cbv zeta;
         unfold libvlc_media_player_get_time, add64, sub64,
           FSPLAYER_10SEC, FSPLAYER_1MIN, FSPLAYER_10MIN;
         cbn [Win32.gV Win32.set_gV Win32.giEndTimeMs v_time
              libvlc_media_player_set_time];
         exact_times; repeat f_equal; lia |]);
      (split; [reflexivity|]); (split; [reflexivity|]);
      unfold new_calls;
      cbn [Win32.gV Win32.set_gV v_calls libvlc_media_player_set_time];
      apply Hn.
Qed.

Lemma seek_forth_and_back_witness :
  (exists s1 s2,
      on_key Examples.film KUp (Examples.playing 5000 100) = Some s1
      /\ on_key Examples.film KDown s1 = Some s2
      /\ v_time (V s1) = 65000 /\ v_time (V s2) = 5000)
  /\ (exists g1 g2,
         Win32.FormKeyDown Win32.vkRight (Examples.form 0 100) = Some g1
         /\ Win32.FormKeyDown Win32.vkLeft g1 = Some g2
         /\ v_time (Win32.gV g1) = 10000 /\ v_time (Win32.gV g2) = 0).
Proof.
  split.
  - destruct (proj1 seek_forth_and_back Examples.film KUp KDown
                FSPLAYER_1MIN (Examples.playing 5000 100))
      as (s1 & s2 & H1 & H2 & T1 & T2 & _).
    + simpl. right. left. reflexivity.
    + simpl. lia.
    + simpl. unfold FSPLAYER_1MIN. lia.
    + exists s1, s2. split; [exact H1|]. split; [exact H2|].
      split; [exact T1 | exact T2].
  - destruct (proj2 seek_forth_and_back Win32.vkRight Win32.vkLeft
                FSPLAYER_10SEC (Examples.form 0 100))
      as (g1 & g2 & H1 & H2 & T1 & T2 & _).
    + simpl. left. reflexivity.
    + simpl. lia.
    + simpl. unfold FSPLAYER_10SEC. lia.
    + exists g1, g2. split; [exact H1|]. split; [exact H2|].
      split; [exact T1 | exact T2].
Defined.

(** * The focus at the end of a cycle *)

(** X13.  When the input window is neither the engine's window nor its
    master, a cycle after which the loop goes on ends with the keyboard
    focus on neither of the two: had one of them taken the focus, the
    cycle has given it back to the input window. *)
Theorem cycle_takes_focus_back :
  forall (ses : session) (inp : cycle_input) (s s' : loop_state),
    wInput ses <> wVlc ses ->
    wInput ses <> wMaster ses ->
    cycle ses inp s = Some s' ->
    continues s' = true ->
    XGetInputFocus (X s') <> wVlc ses
    /\ XGetInputFocus (X s') <> wMaster ses.
Proof.
  intros ses inp s s' Hv Hm Hc Hgo. unfold cycle in Hc.
  destruct (drain ses (pending inp) (wait inp s)) as [s1|]; [|discriminate].
  injection Hc as <-. revert Hgo.
  generalize (check_time ses (check_state s1)). intros s2.
  unfold reclaim_focus, continues.
  destruct (iRunning s2) eqn:Hr.
  - destruct ((XGetInputFocus (X s2) =? wVlc ses)
              || (XGetInputFocus (X s2) =? wMaster ses)) eqn:Hf.
    + intros _. simpl. unfold XGetInputFocus. simpl. auto.
    + intros _. apply orb_false_iff in Hf as [H1 H2].
      apply Z.eqb_neq in H1, H2. auto.
  - rewrite Hr. discriminate.
Qed.

Lemma cycle_takes_focus_back_witness :
  XGetInputFocus
    (X (reclaim_focus Examples.film
          (check_time Examples.film
             (check_state
                (set_X (XSetInputFocus Examples.desktop 4)
                   (Examples.playing 1000 100)))))) <> 4
  /\ XGetInputFocus
       (X (reclaim_focus Examples.film
             (check_time Examples.film
                (check_state
                   (set_X (XSetInputFocus Examples.desktop 4)
                      (Examples.playing 1000 100)))))) <> 2.
Proof.
  apply (cycle_takes_focus_back Examples.film
           {| engine_progress := fun e => e;
              server_progress := fun x => XSetInputFocus x 4;
              pending := [] |}
           (Examples.playing 1000 100)).
  - simpl. lia.
  - simpl. lia.
  - reflexivity.
  - reflexivity.
Defined.

(** * The timer of the Win32 build *)

(** X15.  While the engine reports one of its eight states, the timer of
    the Win32 build leaves exactly when the state check of the X11 loop
    clears [iRunning]; neither sends the engine a command, and a second
    tick of the timer changes nothing more. *)
Theorem timer_agrees_with_poll :
  forall (g : Win32.globals) (s : loop_state),
    Win32.giState g = Win32.FSPLAYER_STATE_PLAYING ->
    iRunning s = true ->
    V s = Win32.gV g ->
    libvlc_NothingSpecial <= v_state (V s) <= libvlc_Error ->
    (Win32.giState (Win32.rrTimerTimer g) = Win32.FSPLAYER_STATE_PLAYING
     <-> iRunning (check_state s) = true)
    /\ Win32.gV (Win32.rrTimerTimer g) = Win32.gV g
    /\ V (check_state s) = V s
    /\ Win32.rrTimerTimer (Win32.rrTimerTimer g) = Win32.rrTimerTimer g.
Proof.
  intros g s Hg Hs HV Hst.
  unfold Win32.rrTimerTimer, check_state, libvlc_media_player_get_state.
  rewrite Hg, Hs, <- HV, Z.eqb_refl.
  unfold libvlc_NothingSpecial, libvlc_Error, libvlc_Stopped,
    libvlc_Ended in *.
  destruct (5 <=? v_state (V s)) eqn:E5.
  - apply Z.leb_le in E5.
    assert (Hor : (v_state (V s) =? 5) || (v_state (V s) =? 6)
                  || (v_state (V s) =? 7) = true).
    { rewrite !orb_true_iff, !Z.eqb_eq. lia. }
    rewrite Hor. simpl.
    split; [split; discriminate|]. auto.
  - apply Z.leb_gt in E5.
    assert (Hor : (v_state (V s) =? 5) || (v_state (V s) =? 6)
                  || (v_state (V s) =? 7) = false).
    { rewrite !orb_false_iff, !Z.eqb_neq. lia. }
    rewrite Hor, Hg, Z.eqb_refl, HV.
    unfold libvlc_media_player_get_state. rewrite <- HV, Hor.
    split; [split; auto|]. auto.
Qed.

Lemma timer_agrees_with_poll_witness :
  Win32.giState (Win32.rrTimerTimer (Examples.form 1000 100))
  = Win32.FSPLAYER_STATE_PLAYING
  <-> iRunning (check_state (Examples.playing 1000 100)) = true.
Proof.
  refine (proj1 (timer_agrees_with_poll (Examples.form 1000 100)
                   (Examples.playing 1000 100) _ _ _ _)).
  - reflexivity.
  - reflexivity.
  - reflexivity.
  - simpl. unfold libvlc_NothingSpecial, libvlc_Error, libvlc_Playing.
    lia.
Defined.

(** * Runs of main *)

Module MainRuns.

Import Main.
Import MainInv.

Ltac to_props :=
  repeat match goal with
         | H : (_ =? _) = true |- _ => apply Z.eqb_eq in H
         | H : (_ =? _) = false |- _ => apply Z.eqb_neq in H
         | H : (_ <? _) = true |- _ => apply Z.ltb_lt in H
         | H : (_ <? _) = false |- _ => apply Z.ltb_ge in H
         | H : (_ <=? _) = true |- _ => apply Z.leb_le in H
         | H : (_ <=? _) = false |- _ => apply Z.leb_gt in H
         | H : negb _ = true |- _ => apply negb_true_iff in H
         | H : negb _ = false |- _ => apply negb_false_iff in H
         end.

Ltac settle :=
  to_props;
  unfold ERROR_FSPLAYER_USAGE, ERROR_FSPLAYER_X11, ERROR_FSPLAYER_VLC,
    ERROR_FSPLAYER_FAIL, ERROR_FSPLAYER_MEM, ERROR_FSPLAYER_VLCRUN in *;
  intuition (try lia; try congruence).

Ltac split_atoms :=
  repeat (match goal with
          | |- context [if ?b then _ else _] =>
              lazymatch b with
              | context [if _ then _ else _] => fail
              | context [match _ with _ => _ end] => fail
              | _ => destruct b eqn:?
              end
          end;
          cbv beta iota delta [negb]).

Ltac stage l := open_locals l; split_atoms; settle.

(** ** When each block of the start-up succeeds *)

Lemma check_arguments_iff e l :
  iErr (check_arguments e l) = 0
  <-> iErr l = 0 /\ argc e = 2 /\ file_exists e = true.
Proof. stage l. Qed.

Lemma open_the_display_iff e l :
  iErr (unless_error (open_the_display e) l) = 0
  <-> iErr l = 0 /\ open_display e <> 0.
Proof. stage l. Qed.

Lemma read_the_screen_iff e l :
  iErr (unless_error (read_the_screen e) l) = 0
  <-> iErr l = 0 /\ vlc_window_present e = false.
Proof. stage l. Qed.

Lemma create_the_input_window_iff e l :
  iErr (unless_error (create_the_input_window e) l) = 0
  <-> iErr l = 0 /\ create_window e <> 0.
Proof. stage l. Qed.

Lemma intern_the_atoms_iff e l :
  iErr (unless_error (intern_the_atoms e) l) = 0
  <-> iErr l = 0 /\ atoms_interned e = true.
Proof. stage l. Qed.

Lemma load_the_engine_iff e l :
  iErr (unless_error (load_the_engine e) l) = 0
  <-> iErr l = 0 /\ vlc_new e <> 0.
Proof. stage l. Qed.

Lemma create_the_player_iff e l :
  iErr (unless_error (create_the_player e) l) = 0
  <-> iErr l = 0 /\ media_new e <> 0 /\ player_new e <> 0.
Proof. stage l. Qed.

Lemma play_paused_iff e l :
  iErr (unless_error (play_paused e) l) = 0
  <-> iErr l = 0 /\ video_get_size e = 0.
Proof. stage l. Qed.

Lemma read_the_length_iff e l :
  iErr (unless_error (read_the_length e) l) = 0
  <-> iErr l = 0 /\ 0 < media_length e.
Proof. stage l. Qed.

Lemma read_the_tracks_iff e l :
  iErr (unless_error (read_the_tracks e) l) = 0
  <-> iErr l = 0 /\ (1 < track_count e -> malloc_tracks e <> 0).
Proof. stage l. Qed.

Lemma find_the_player_window_iff e l :
  iErr (unless_error (find_the_player_window e) l) = 0
  <-> iErr l = 0 /\ vlc_window_found e = true.
Proof. stage l. Qed.

Lemma go_fullscreen_and_play_iff e l :
  iErr (unless_error (go_fullscreen_and_play e) l) = 0
  <-> iErr l = 0 /\ second_play e = 0.
Proof. stage l. Qed.

(** The locals after the blocks up to [XInternAtom]. *)
Lemma x11_blocks_iff e :
  iErr (unless_error (intern_the_atoms e)
          (unless_error (create_the_input_window e)
             (unless_error (read_the_screen e)
                (unless_error (open_the_display e)
                   (check_arguments e (declarations e)))))) = 0
  <-> x11_ready e.
Proof.
  rewrite intern_the_atoms_iff, create_the_input_window_iff,
    read_the_screen_iff, open_the_display_iff, check_arguments_iff.
  unfold x11_ready. simpl. tauto.
Qed.

Lemma unless_error_skip f l : iErr l <> 0 -> unless_error f l = l.
Proof.
  intros H. unfold unless_error. apply Z.eqb_neq in H. rewrite H.
  reflexivity.
Qed.

(** ** The teardown as one list of calls *)

Lemma emit_nil l : emit [] l = l.
Proof. destruct l. unfold emit. simpl. rewrite app_nil_r. reflexivity. Qed.

Ltac block l :=
  open_locals l; split_atoms; rewrite <- ?app_assoc, ?app_nil_r; reflexivity.

Lemma stop_playing_emit pre l :
  stop_playing (emit pre l)
  = emit (pre ++ (if iPlay l
                 then [OnPlayer "libvlc_media_player_stop" (pVlcPlayer l)]
                 else [])) l.
Proof. block l. Qed.

Lemma raise_the_taskbar_emit pre l :
  raise_the_taskbar (emit pre l)
  = emit (pre ++ (if negb (wTaskbar l =? 0)
                 then [OnWindow "XMapRaised" (pX11Display l) (wTaskbar l);
                       OnWindow "XGetWindowAttributes" (pX11Display l)
                         (wTaskbar l)]
                 else [])) l.
Proof. block l. Qed.

Lemma release_the_player_emit pre l :
  release_the_player (emit pre l)
  = emit (pre ++ (if negb (pVlcPlayer l =? 0)
                 then [OnPlayer "libvlc_media_player_release"
                         (pVlcPlayer l)]
                 else [])) l.
Proof. block l. Qed.

Lemma release_the_instance_emit pre l :
  release_the_instance (emit pre l)
  = emit (pre ++ (if negb (pVlcInst l =? 0)
                 then [OnInstance "libvlc_release" (pVlcInst l)]
                 else [])) l.
Proof. block l. Qed.

Lemma free_the_tracks_emit pre l :
  free_the_tracks (emit pre l)
  = emit (pre ++ (if negb (pVlcAudioTrackId l =? 0)
                 then [Free (pVlcAudioTrackId l)]
                 else [])) l.
Proof. block l. Qed.

Lemma destroy_the_input_window_emit pre l :
  destroy_the_input_window (emit pre l)
  = emit (pre ++ (if negb (wInput l =? 0)
                 then [OnWindow "XDestroyWindow" (pX11Display l) (wInput l)]
                 else [])) l.
Proof. block l. Qed.

Lemma close_the_display_emit pre l :
  close_the_display (emit pre l)
  = emit (pre ++ (if negb (pX11Display l =? 0)
                 then [OnDisplay "XCloseDisplay" (pX11Display l)]
                 else [])) l.
Proof. block l. Qed.

Lemma teardown_emit l : teardown l = emit (teardown_calls l) l.
Proof.
  unfold teardown. cbv zeta. rewrite <- (emit_nil l) at 1.
  rewrite stop_playing_emit, raise_the_taskbar_emit,
    release_the_player_emit, release_the_instance_emit,
    free_the_tracks_emit, destroy_the_input_window_emit,
    close_the_display_emit.
  unfold teardown_calls. rewrite <- !app_assoc. reflexivity.
Qed.

(** ** Nothing is released before the teardown *)

Lemma unless_error_keeps (P : locals -> Prop) f l :
  (forall l, P l -> P (f l)) -> P l -> P (unless_error f l).
Proof.
  intros Hf Hl. unfold unless_error. destruct (iErr l =? 0); auto.
Qed.

















(** ** The engine is left alone until the X11 blocks are through *)

Ltac idle l H :=
  unfold engine_idle, no_engine_call in *;
  destruct H as (H1 & H2 & H3 & H4 & H5);
  open_locals l; subst; split_atoms;
  repeat split; rewrite ?forallb_app;
  repeat (apply andb_true_intro; split);
  first [exact H1 | reflexivity].

Lemma check_arguments_idle e l :
  engine_idle l -> engine_idle (check_arguments e l).
Proof. intros H. idle l H. Qed.

Lemma open_the_display_idle e l :
  engine_idle l -> engine_idle (open_the_display e l).
Proof. intros H. idle l H. Qed.

Lemma read_the_screen_idle e l :
  engine_idle l -> engine_idle (read_the_screen e l).
Proof. intros H. idle l H. Qed.

Lemma create_the_input_window_idle e l :
  engine_idle l -> engine_idle (create_the_input_window e l).
Proof. intros H. idle l H. Qed.

Lemma intern_the_atoms_idle e l :
  engine_idle l -> engine_idle (intern_the_atoms e l).
Proof. intros H. idle l H. Qed.

Lemma run_event_loop_idle e l :
  engine_idle l -> engine_idle (run_event_loop e l).
Proof. intros H. idle l H. Qed.

Lemma x11_blocks_idle e :
  engine_idle
    (unless_error (intern_the_atoms e)
       (unless_error (create_the_input_window e)
          (unless_error (read_the_screen e)
             (unless_error (open_the_display e)
                (check_arguments e (declarations e)))))).
Proof.
  apply unless_error_keeps; [apply intern_the_atoms_idle|].
  apply unless_error_keeps; [apply create_the_input_window_idle|].
  apply unless_error_keeps; [apply read_the_screen_idle|].
  apply unless_error_keeps; [apply open_the_display_idle|].
  apply check_arguments_idle. repeat split.
Qed.

Lemma teardown_idle l :
  engine_idle l -> no_engine_call (calls (teardown l)).
Proof.
  intros (H1 & H2 & H3 & H4 & H5). rewrite teardown_emit.
  destruct l as [err play d w t i p a cs]. simpl in *. subst.
  unfold no_engine_call in *. rewrite forallb_app, H1.
  unfold teardown_calls. simpl.
  destruct (t =? 0), (w =? 0), (d =? 0); reflexivity.
Qed.

End MainRuns.

(** X16.  The start-up ends without an error exactly when every step
    succeeded: two arguments and an existing file, a display, no window of
    the engine on the screen yet, the input window and the two atoms; then
    the engine, the medium, the player, the size of the video, a positive
    length, the memory for the track list when there are several tracks,
    the engine's window and the final play.  The result of the first play
    has no part in it: that failure is only warned about. *)
Theorem initialise_succeeds_iff :
  forall e : Main.env,
    Main.iErr (Main.initialise e) = 0 <-> x11_ready e /\ engine_ready e.
Proof.
  intros e. unfold Main.initialise. cbv zeta.
  rewrite MainRuns.go_fullscreen_and_play_iff,
    MainRuns.find_the_player_window_iff, MainRuns.read_the_tracks_iff,
    MainRuns.read_the_length_iff, MainRuns.play_paused_iff,
    MainRuns.create_the_player_iff, MainRuns.load_the_engine_iff,
    MainRuns.x11_blocks_iff.
  unfold engine_ready. tauto.
Qed.

(** X17.  [main] makes no call into the engine, and frees nothing, unless
    the blocks up to [XInternAtom] all succeeded; in particular a window of
    the engine found on the screen at the start stops [main] before it
    loads the engine. *)
Theorem main_engine_needs_x11 :
  forall (e : Main.env) (c : Main.call),
    In c (Main.calls (Main.main e)) ->
    is_engine_call c = true ->
    x11_ready e.
Proof.
  intros e c Hin Hc.
  pose proof (MainRuns.x11_blocks_iff e) as Hiff.
  pose proof (MainRuns.x11_blocks_idle e) as Hidle.
  revert Hin. unfold Main.main, Main.initialise. cbv zeta.
  set (l5 := Main.unless_error (Main.intern_the_atoms e) _) in *.
  destruct (Z.eq_dec (Main.iErr l5) 0) as [H0|Hn];
    [intros _; apply Hiff, H0|].
  rewrite !(fun f => MainRuns.unless_error_skip f l5 Hn).
  intros Hin. exfalso.
  pose proof (MainRuns.teardown_idle _
                (MainRuns.run_event_loop_idle e l5 Hidle)) as Hno.
  unfold no_engine_call in Hno.
  rewrite forallb_forall in Hno. specialize (Hno c Hin).
  rewrite Hc in Hno. discriminate.
Qed.

Lemma main_engine_needs_x11_witness : x11_ready plays_film.
Proof.
  apply (main_engine_needs_x11 plays_film
           (Main.OnInstance "libvlc_release" 2000)).
  - vm_compute. repeat (first [left; reflexivity | right]).
  - reflexivity.
Defined.

(** X18.  The teardown changes no local of [main]; it appends, in this
    order and each under its own test on the locals it was entered with,
    the stop of the playback, the raise of the taskbar, the release of the
    player, the release of the instance, the [free] of the track list, the
    destruction of the input window and the closing of the display. *)
Theorem teardown_in_order :
  forall l : Main.locals,
    Main.teardown l = Main.emit (teardown_calls l) l.
Proof.
  intros l. unfold Main.teardown. cbv zeta.
  rewrite <- (MainRuns.emit_nil l) at 1.
  rewrite MainRuns.stop_playing_emit, MainRuns.raise_the_taskbar_emit,
    MainRuns.release_the_player_emit, MainRuns.release_the_instance_emit,
    MainRuns.free_the_tracks_emit, MainRuns.destroy_the_input_window_emit,
    MainRuns.close_the_display_emit.
  unfold teardown_calls. rewrite <- !app_assoc. reflexivity.
Qed.


(** X20.  In every run of [main], each call on an instance, a medium or a
    player, and the [free] of the track list, is handed a handle that is
    not null. *)
Theorem main_engine_calls_on_live_handles :
  forall (e : Main.env) (c : Main.call),
    In c (Main.calls (Main.main e)) -> Main.engine_handle_ok c = true.
Proof.
  intros e c Hin.
  pose proof (main_engine_handles_guarded e) as H.
  rewrite forallb_forall in H. apply H, Hin.
Qed.

Lemma main_engine_calls_on_live_handles_witness :
  Main.engine_handle_ok (Main.OnInstance "libvlc_release" 2000) = true.
Proof.
  apply (main_engine_calls_on_live_handles plays_film).
  vm_compute. repeat (first [left; reflexivity | right]).
Defined.

(** * The list of audio tracks *)

Lemma copy_ids_from (n : Z) (desc : list Z) :
  forall (i : nat) (a : list Z),
    Z.of_nat (length a) = n -> (i <= length a)%nat ->
    copy_ids n i desc a
    = take i a ++ take (length a - i) desc ++ drop (i + length desc) a.
Proof.
  induction desc as [|id rest IH]; intros i a Hlen Hi; simpl.
  - rewrite take_nil, Nat.add_0_r. simpl. symmetry. apply take_drop.
  - destruct (Z.of_nat i <? n) eqn:E.
    + apply Z.ltb_lt in E. assert (Hlt : (i < length a)%nat) by lia.
      rewrite IH by (rewrite ?length_insert; lia).
      rewrite length_insert.
      destruct (lookup_lt_is_Some_2 a i Hlt) as [x Hx].
      rewrite (take_S_r (<[i:=id]> a) i id)
        by (apply list_lookup_insert_eq; exact Hlt).
      rewrite take_insert_ge by lia.
      rewrite drop_insert_lt by lia.
      replace (length a - i)%nat with (S (length a - S i)) by lia.
      simpl. rewrite <- app_assoc. simpl.
      replace (S (i + length rest)) with (i + S (length rest))%nat by lia.
      reflexivity.
    + apply Z.ltb_ge in E. assert (i = length a) as -> by lia.
      rewrite firstn_all, Nat.sub_diag, drop_ge by lia.
      simpl. rewrite app_nil_r. reflexivity.
Qed.

Lemma read_track_ids_eq (cells : nat) (n : Z) (heap desc : list Z) :
  Z.of_nat (length heap) = n ->
  read_track_ids cells n heap desc
  = take (Z.to_nat n) desc ++ drop (length desc) (memset_size_t cells heap).
Proof.
  intros Hlen.
  assert (Hm : length (memset_size_t cells heap) = length heap).
  { unfold memset_size_t.
    rewrite length_app, length_replicate, length_drop. lia. }
  unfold read_track_ids. rewrite copy_ids_from by lia.
  rewrite take_0, Nat.sub_0_r, Hm. simpl.
  replace (Z.to_nat n) with (length heap) by lia. reflexivity.
Qed.

Lemma memset_size_t_length cells heap :
  length (memset_size_t cells heap) = length heap.
Proof.
  unfold memset_size_t.
  rewrite length_app, length_replicate, length_drop. lia.
Qed.

Lemma read_track_ids_from_list (cells : nat) (n : Z) (heap desc : list Z) :
  Z.of_nat (length heap) = n -> n <= Z.of_nat (length desc) ->
  Z.of_nat (length (read_track_ids cells n heap desc)) = n
  /\ read_track_ids cells n heap desc = take (Z.to_nat n) desc.
Proof.
  intros Hlen Hge. rewrite read_track_ids_eq by exact Hlen.
  rewrite drop_ge by (rewrite memset_size_t_length; lia).
  rewrite app_nil_r. split; [|reflexivity].
  rewrite length_take. lia.
Qed.

(** X21.  Once the description list has been read into an array of [n]
    cells, the array holds the ids of the first [n] tracks of the list, in
    the order of the list; cells past the end of a shorter list keep what
    the partial [memset] and [malloc] left in them.  With a list of at
    least [n] tracks the array is exactly its first [n] ids. *)
Theorem read_track_ids_closed_form :
  forall (cells : nat) (n : Z) (heap desc : list Z),
    Z.of_nat (length heap) = n ->
    read_track_ids cells n heap desc
    = take (Z.to_nat n) desc
      ++ drop (length desc) (memset_size_t cells heap)
    /\ length (read_track_ids cells n heap desc) = length heap
    /\ (n <= Z.of_nat (length desc) ->
        read_track_ids cells n heap desc = take (Z.to_nat n) desc).
Proof.
  intros cells n heap desc Hlen.
  pose proof (memset_size_t_length cells heap) as Hm.
  pose proof (read_track_ids_eq cells n heap desc Hlen) as E.
  split; [exact E|]. split.
  - rewrite E, length_app, length_take, length_drop, Hm. lia.
  - intros Hge. rewrite E, drop_ge by lia. apply app_nil_r.
Qed.

Lemma read_track_ids_closed_form_witness :
  read_track_ids 2 3 [91; 92; 93] [2; 5; 7; 9] = [2; 5; 7]
  /\ read_track_ids 2 3 [91; 92; 93] [] = [0; 0; 93].
Proof.
  split.
  - rewrite (proj2 (proj2 (read_track_ids_closed_form 2 3 [91; 92; 93]
                             [2; 5; 7; 9] eq_refl))).
    + reflexivity.
    + simpl. lia.
  - rewrite (proj1 (read_track_ids_closed_form 2 3 [91; 92; 93] []
                      eq_refl)).
    reflexivity.
Defined.

Lemma selected_listed (ids desc : list Z) (n c : Z) (k : nat) :
  0 < n -> Z.of_nat (length ids) = n ->
  ids = take (Z.to_nat n) desc ->
  forall call, In call (selected ids n c k) ->
               exists id, call = SetTrack id /\ In id desc.
Proof.
  intros Hn Hlen Hids call Hin. unfold selected in Hin.
  apply in_map_iff in Hin as (i & <- & _).
  eexists. split; [reflexivity|].
  assert (Hb : 0 <= (c + Z.of_nat i) mod n < n)
    by (apply Z.mod_pos_bound; lia).
  assert (Hnth : In (nth (Z.to_nat ((c + Z.of_nat i) mod n)) ids 0) ids)
    by (apply nth_In; lia).
  rewrite Hids in Hnth at 2.
  apply list_elem_of_In, (subseteq_take (Z.to_nat n) desc) in Hnth.
  apply list_elem_of_In. exact Hnth.
Qed.

(** X22.  When the engine lists at least as many tracks as it counted,
    and more than one, the keypad [*] only ever asks the engine for ids of
    that list, however often it is pressed and on both builds; what
    [malloc] and the partial [memset] left in the array plays no part. *)
Theorem star_selects_listed_tracks :
  (forall (ses : session) (s : loop_state) (cells : nat)
          (heap desc : list Z) (k : nat),
      1 < iNumVlcAudioTracks ses ->
      Z.of_nat (length heap) = iNumVlcAudioTracks ses ->
      iNumVlcAudioTracks ses <= Z.of_nat (length desc) ->
      pVlcAudioTrackId ses
      = read_track_ids cells (iNumVlcAudioTracks ses) heap desc ->
      0 <= iVlcAudioTrack s < iNumVlcAudioTracks ses ->
      exists s',
        presses ses KKpMult k s = Some s'
        /\ forall call, In call (new_calls (V s) (V s')) ->
                        exists id, call = SetTrack id /\ In id desc)
  /\ (forall (g : Win32.globals) (cells : nat) (heap desc : list Z)
             (k : nat),
         1 < Win32.giNumVlcAudioTracks g ->
         Z.of_nat (length heap) = Win32.giNumVlcAudioTracks g ->
         Win32.giNumVlcAudioTracks g <= Z.of_nat (length desc) ->
         Win32.gpVlcAudioTrackId g
         = read_track_ids cells (Win32.giNumVlcAudioTracks g) heap desc ->
         0 <= Win32.giVlcAudioTrack g < Win32.giNumVlcAudioTracks g ->
         exists g',
           Win32.presses Win32.vkMultiply k g = Some g'
           /\ forall call,
                In call (new_calls (Win32.gV g) (Win32.gV g')) ->
                exists id, call = SetTrack id /\ In id desc).
Proof.
  split.
  - intros ses s cells heap desc k Hn Hheap Hdesc Hids Hc.
    destruct (read_track_ids_from_list cells _ heap desc Hheap Hdesc)
      as [Hl He].
    rewrite <- Hids in Hl, He.
    destruct (x11_advance_many ses Hn Hl k s Hc) as (s' & P & _ & L).
    exists s'. split; [exact P|]. intros call Hin.
    unfold new_calls in Hin. rewrite L, skipn_length_app in Hin.
    assert (Hpos : 0 < iNumVlcAudioTracks ses) by lia.
    apply (selected_listed _ desc _ _ _ Hpos Hl He call Hin).
  - intros g cells heap desc k Hn Hheap Hdesc Hids Hc.
    destruct (read_track_ids_from_list cells _ heap desc Hheap Hdesc)
      as [Hl He].
    rewrite <- Hids in Hl, He.
    destruct (win32_advance_many k g Hn Hl Hc) as (g' & P & _ & L).
    exists g'. split; [exact P|]. intros call Hin.
    unfold new_calls in Hin. rewrite L, skipn_length_app in Hin.
    assert (Hpos : 0 < Win32.giNumVlcAudioTracks g) by lia.
    apply (selected_listed _ desc _ _ _ Hpos Hl He call Hin).
Qed.

Lemma star_selects_listed_tracks_witness :
  exists s',
    presses Examples.film KKpMult 4 (Examples.playing 1000 100) = Some s'
    /\ forall call,
         In call (new_calls (V (Examples.playing 1000 100)) (V s')) ->
         exists id, call = SetTrack id /\ In id [2; 5; 7; 9].
Proof.
  apply (proj1 star_selects_listed_tracks Examples.film
           (Examples.playing 1000 100) 2%nat [91; 92; 93] [2; 5; 7; 9]
           4%nat).
  - simpl. lia.
  - reflexivity.
  - simpl. lia.
  - reflexivity.
  - simpl. lia.
Defined.

(** * Which files FilenameExist accepts *)

Lemma land_type_bit st_mode :
  Z.land st_mode S_IFREG = Z.land (Z.land st_mode S_IFMT) S_IFREG.
Proof. rewrite <- Z.land_assoc. reflexivity. Qed.

(** X23.  [FilenameExist] tests one bit of the mode, not the file type:
    it answers non-zero for a regular file and also for a socket, and zero
    for a directory, a character or block device, a FIFO, and when [stat]
    fails. *)
Theorem FilenameExist_by_type :
  forall st_mode : Z,
    (Z.land st_mode S_IFMT = S_IFREG -> FilenameExist (Some st_mode) <> 0)
    /\ (Z.land st_mode S_IFMT = S_IFSOCK ->
        FilenameExist (Some st_mode) <> 0)
    /\ (Z.land st_mode S_IFMT = S_IFDIR \/ Z.land st_mode S_IFMT = S_IFCHR
        \/ Z.land st_mode S_IFMT = S_IFBLK
        \/ Z.land st_mode S_IFMT = S_IFIFO ->
        FilenameExist (Some st_mode) = 0)
    /\ FilenameExist None = 0.
Proof.
  intros st_mode. unfold FilenameExist. cbv zeta.
  change (negb (1 =? 0)) with true. cbv iota.
  rewrite land_type_bit.
  split; [intros ->; discriminate|].
  split; [intros ->; discriminate|].
  split; [|reflexivity].
  intros [-> | [-> | [-> | ->]]]; reflexivity.
Qed.

Lemma FilenameExist_by_type_witness :
  FilenameExist (Some 33188) <> 0 /\ FilenameExist (Some 49645) <> 0
  /\ FilenameExist (Some 16877) = 0.
Proof.
  split; [|split].
  - apply (proj1 (FilenameExist_by_type 33188)). reflexivity.
  - apply (proj1 (proj2 (FilenameExist_by_type 49645))). reflexivity.
  - apply (proj1 (proj2 (proj2 (FilenameExist_by_type 16877)))).
    left. reflexivity.
Defined.

(** * The panel of the Win32 build *)

Lemma to_int_small a : 0 <= a < 2 ^ 31 -> to_int a = a.
Proof.
  intros H. unfold to_int. destruct (a <? 2 ^ 31) eqn:E; [reflexivity|].
  apply Z.ltb_ge in E. lia.
Qed.

Lemma to_int_half a : 0 <= a < 2 ^ 31 -> to_int (u32 a / 2) = a / 2.
Proof.
  intros H. unfold u32. rewrite Z.mod_small by lia.
  apply to_int_small. split; [apply Z.div_pos; lia|].
  apply Z.div_lt_upper_bound; lia.
Qed.

(** X24.  For a screen and a video whose sizes fit an [int], the panel is
    always inside the screen: it is the whole screen when the video is at
    least as wide or as high as the screen, and otherwise it has the size
    of the video and is centred to the pixel. *)
Theorem place_view_inside :
  forall iScrX iScrY iVidX iVidY : Z,
    0 < iScrX < 2 ^ 31 -> 0 < iScrY < 2 ^ 31 ->
    0 <= iVidX < 2 ^ 31 -> 0 <= iVidY < 2 ^ 31 ->
    let v := Form.place_view iScrX iScrY iVidX iVidY in
    0 <= Form.Left v /\ Form.Left v + Form.Width v <= iScrX
    /\ 0 <= Form.Top v /\ Form.Top v + Form.Height v <= iScrY
    /\ (iScrX <= iVidX \/ iScrY <= iVidY ->
        v = {| Form.Left := 0; Form.Top := 0; Form.Width := iScrX;
               Form.Height := iScrY |})
    /\ (iVidX < iScrX -> iVidY < iScrY ->
        v = {| Form.Left := (iScrX - iVidX) / 2;
               Form.Top := (iScrY - iVidY) / 2;
               Form.Width := iVidX; Form.Height := iVidY |}).
Proof.
  intros sx sy vx vy Hsx Hsy Hvx Hvy v. subst v. unfold Form.place_view.
  rewrite !to_int_small by lia.
  destruct ((sx <=? vx) || (sy <=? vy)) eqn:E.
  - apply orb_true_iff in E. rewrite !Z.leb_le in E. simpl.
    repeat split; intros; lia.
  - apply orb_false_iff in E as [E1 E2]. apply Z.leb_gt in E1, E2.
    rewrite !to_int_half by lia. simpl.
    assert (0 <= (sx - vx) / 2 /\ 2 * ((sx - vx) / 2) <= sx - vx).
    { split; [apply Z.div_pos; lia | apply Z.mul_div_le; lia]. }
    assert (0 <= (sy - vy) / 2 /\ 2 * ((sy - vy) / 2) <= sy - vy).
    { split; [apply Z.div_pos; lia | apply Z.mul_div_le; lia]. }
    repeat split; intros; lia.
Qed.

Lemma place_view_inside_witness :
  Form.place_view 1920 1080 640 480
  = {| Form.Left := 640; Form.Top := 300; Form.Width := 640;
       Form.Height := 480 |}.
Proof.
  apply (place_view_inside 1920 1080 640 480); lia.
Defined.

(** * The life of the form of the Win32 build *)

Module FormRuns.

Import Form.

Ltac crunch :=
  cbv beta iota zeta delta
    [calls_ok quiet tracks_ready unless_error emit set_giErr set_giState
     set_giNumVlcAudioTracks set_gpVlcAudioTrackId set_giEndTimeMs
     set_gpVlcInst set_gpVlcPlayer set_rrView set_dialog_shown
     leave_with_message initial giErr giState giNumVlcAudioTracks
     giVlcAudioTrack gpVlcAudioTrackId giEndTimeMs gpVlcInst gpVlcPlayer
     rrView dialog_shown hidden message terminated calls choose_the_file
     load_the_engine create_the_player play_paused read_the_tracks
     show_and_play report_error FormClose release_the_player
     release_the_instance destructor player_block] in *.

Ltac open_form f :=
  destruct f as [err st n trk ids fin inst player v shown hid msg term cs];
  crunch.

Ltac split_atoms :=
  repeat (match goal with
          | |- context [if ?b then _ else _] =>
              lazymatch b with
              | context [if _ then _ else _] => fail
              | context [match _ with _ => _ end] => fail
              | _ => destruct b eqn:?
              end
          | |- context [match malloc_tracks ?e with _ => _ end] =>
              destruct (malloc_tracks e) eqn:?
          | |- context [match track_description ?e with _ => _ end] =>
              destruct (track_description e) eqn:?
          end;
          cbv beta iota delta [negb andb]).

Ltac to_props :=
  repeat match goal with
         | H : (_ =? _) = true |- _ => apply Z.eqb_eq in H
         | H : (_ =? _) = false |- _ => apply Z.eqb_neq in H
         | H : (_ <? _) = true |- _ => apply Z.ltb_lt in H
         | H : (_ <? _) = false |- _ => apply Z.ltb_ge in H
         | H : (_ <=? _) = true |- _ => apply Z.leb_le in H
         | H : (_ <=? _) = false |- _ => apply Z.leb_gt in H
         | H : negb _ = true |- _ => apply negb_true_iff in H
         | H : negb _ = false |- _ => apply negb_false_iff in H
         | H : _ && _ = true |- _ => apply andb_true_iff in H as [? ?]
         | H : _ && _ = false |- _ => apply andb_false_iff in H
         end.

Ltac settle :=
  to_props;
  unfold ERROR_FSPLAYER_USAGE, ERROR_FSPLAYER_VLC, ERROR_FSPLAYER_MEM,
    FSPLAYER_STATE_PLAYING in *;
  intuition (try lia; try congruence).

Ltac split_zero :=
  repeat (match goal with
          | |- context [?x =? 0] => is_var x; destruct (x =? 0) eqn:?
          end;
          cbv beta iota delta [negb]).

Ltac stage f := open_form f; split_atoms; settle.

(** ** When each block of FormCreate succeeds *)

Lemma form_choose_the_file_iff e f :
  giErr (choose_the_file e f) = 0
  <-> giErr f = 0
      /\ ((param_count e = 1 /\ param_usable e = true)
          \/ dialog_chosen e = true).
Proof.
  open_form f.
  destruct (param_count e =? 1) eqn:?, (param_usable e) eqn:?,
    (dialog_chosen e) eqn:?; cbv beta iota delta [negb andb]; settle.
Qed.

Lemma form_load_the_engine_iff e f :
  giErr (unless_error (load_the_engine e) f) = 0
  <-> giErr f = 0 /\ vlc_new e <> 0.
Proof. stage f. Qed.

Lemma form_create_the_player_iff e f :
  giErr (unless_error (create_the_player e) f) = 0
  <-> giErr f = 0 /\ media_new e <> 0 /\ player_new e <> 0.
Proof. stage f. Qed.

Lemma form_play_paused_iff e f :
  giErr (unless_error (play_paused e) f) = 0
  <-> giErr f = 0 /\ 0 < media_length e.
Proof. stage f. Qed.

Lemma form_read_the_tracks_iff e f :
  giErr (unless_error (read_the_tracks e) f) = 0
  <-> giErr f = 0 /\ (1 < track_count e -> malloc_tracks e <> None).
Proof. stage f. Qed.

Lemma form_show_and_play_iff e f :
  giErr (unless_error (show_and_play e) f) = 0 <-> giErr f = 0.
Proof. stage f. Qed.

Lemma form_unless_error_keeps (P : form -> Prop) b f :
  (forall f, P f -> P (b f)) -> P f -> P (unless_error b f).
Proof.
  intros Hb Hf. unfold unless_error. destruct (giErr f =? 0); auto.
Qed.

(** ** Nothing is shown or started before the last block *)

Ltac still f H :=
  destruct H as (Q1 & Q2 & Q3 & Q4 & Q5 & Q6);
  open_form f; subst; split_atoms; repeat split.

Lemma choose_the_file_quiet e d f :
  quiet d f -> quiet d (choose_the_file e f).
Proof.
  intros H. destruct H as (Q1 & Q2 & Q3 & Q4 & Q5 & Q6).
  open_form f. subst.
  destruct (param_count e =? 1), (param_usable e), (dialog_chosen e);
    repeat split.
Qed.

Lemma load_the_engine_quiet e d f :
  quiet d f -> quiet d (load_the_engine e f).
Proof. intros H. still f H. Qed.

Lemma create_the_player_quiet e d f :
  quiet d f -> quiet d (create_the_player e f).
Proof. intros H. still f H. Qed.

Lemma play_paused_quiet e d f :
  quiet d f -> quiet d (play_paused e f).
Proof. intros H. still f H. Qed.

Lemma read_the_tracks_quiet e d f :
  quiet d f -> quiet d (read_the_tracks e f).
Proof. intros H. still f H. Qed.

Lemma before_show_quiet e d : quiet d (before_show e d).
Proof.
  unfold before_show.
  apply form_unless_error_keeps; [apply read_the_tracks_quiet|].
  apply form_unless_error_keeps; [apply play_paused_quiet|].
  apply form_unless_error_keeps; [apply create_the_player_quiet|].
  apply form_unless_error_keeps; [apply load_the_engine_quiet|].
  apply choose_the_file_quiet. repeat split.
Qed.

Lemma before_show_iff e d : giErr (before_show e d) = 0 <-> start_ok e.
Proof.
  unfold before_show.
  rewrite form_read_the_tracks_iff, form_play_paused_iff, form_create_the_player_iff,
    form_load_the_engine_iff, form_choose_the_file_iff.
  unfold start_ok. simpl. tauto.
Qed.

Lemma FormCreate_eq e d :
  FormCreate e d
  = report_error (unless_error (show_and_play e) (before_show e d)).
Proof. reflexivity. Qed.

Lemma last_blocks_started e d f :
  quiet d f -> giErr f = 0 ->
  let f' := report_error (unless_error (show_and_play e) f) in
  giErr f' = 0 /\ giState f' = FSPLAYER_STATE_PLAYING
  /\ hidden f' = false /\ terminated f' = false /\ message f' = None
  /\ rrView f' = place_view (iScrX e) (iScrY e) (iVidX e) (iVidY e).
Proof.
  intros (Q1 & Q2 & Q3 & Q4 & Q5 & Q6) H0. open_form f. subst.
  simpl. repeat split.
Qed.

Lemma last_blocks_left e d f :
  quiet d f -> giErr f <> 0 ->
  let f' := report_error (unless_error (show_and_play e) f) in
  giErr f' = 0 /\ giState f' = 0
  /\ hidden f' = true /\ terminated f' = true
  /\ message f' = Some (giErr f) /\ rrView f' = d.
Proof.
  intros (Q1 & Q2 & Q3 & Q4 & Q5 & Q6) H0. open_form f. subst.
  apply Z.eqb_neq in H0. rewrite H0. simpl. rewrite H0. simpl.
  repeat split.
Qed.

(** ** The calls on the engine *)

Ltac close_calls H :=
  rewrite ?forallb_app, ?H; cbn [forallb live_handle Main.engine_handle_ok
                                 andb];
  repeat match goal with
         | E : (?x =? 0) = false |- _ => rewrite E
         end;
  cbn [negb andb]; try reflexivity.

Lemma choose_the_file_calls e f :
  calls_ok f -> calls_ok (choose_the_file e f).
Proof.
  intros H. open_form f.
  destruct (param_count e =? 1), (param_usable e), (dialog_chosen e);
    exact H.
Qed.

Lemma load_the_engine_calls e f :
  calls_ok f ->
  calls_ok (unless_error (load_the_engine e) f)
  /\ (giErr (unless_error (load_the_engine e) f) = 0 ->
      gpVlcInst (unless_error (load_the_engine e) f) <> 0).
Proof.
  intros H. open_form f. split_atoms; to_props;
    (split; [exact H | intros; unfold ERROR_FSPLAYER_VLC in *;
                       first [congruence | lia]]).
Qed.

Lemma create_the_player_calls e f :
  calls_ok f -> (giErr f = 0 -> gpVlcInst f <> 0) ->
  calls_ok (unless_error (create_the_player e) f)
  /\ (giErr (unless_error (create_the_player e) f) = 0 ->
      gpVlcPlayer (unless_error (create_the_player e) f) <> 0).
Proof.
  intros H Hi. open_form f. split_atoms;
    try (assert (Hinst : (inst =? 0) = false)
           by (apply Z.eqb_neq, Hi; apply Z.eqb_eq; assumption));
    (split; [close_calls H | to_props; intros;
                             unfold ERROR_FSPLAYER_VLC in *;
                             first [congruence | lia]]).
Qed.

Lemma form_player_block_ok b f :
  player_block b ->
  calls_ok f /\ (giErr f = 0 -> gpVlcPlayer f <> 0) ->
  calls_ok (unless_error b f)
  /\ (giErr (unless_error b f) = 0 -> gpVlcPlayer (unless_error b f) <> 0).
Proof.
  intros Hb [H Hp]. unfold unless_error.
  destruct (giErr f =? 0) eqn:E; [|split; assumption].
  apply Z.eqb_eq in E. destruct (Hb f H (Hp E)) as [H1 H2].
  split; [exact H1|]. intros _. rewrite H2. exact (Hp E).
Qed.

Ltac on_player f :=
  intros f H Hp; open_form f; apply Z.eqb_neq in Hp;
  split_atoms; (split; [close_calls H | reflexivity]).

Lemma form_play_paused_block e : player_block (play_paused e).
Proof. on_player f. Qed.

Lemma form_read_the_tracks_block e : player_block (read_the_tracks e).
Proof. on_player f. Qed.

Lemma form_show_and_play_block e : player_block (show_and_play e).
Proof. on_player f. Qed.

Lemma FormCreate_calls e d : calls_ok (FormCreate e d).
Proof.
  rewrite FormCreate_eq. unfold before_show.
  assert (H : forall f, calls_ok f -> calls_ok (report_error f)).
  { intros f Hf. open_form f. split_atoms; exact Hf. }
  apply H.
  refine (proj1 (form_player_block_ok _ _ (form_show_and_play_block e) _)).
  apply form_player_block_ok; [apply form_read_the_tracks_block|].
  apply form_player_block_ok; [apply form_play_paused_block|].
  assert (H0 : calls_ok (initial d)) by reflexivity.
  pose proof (load_the_engine_calls e (choose_the_file e (initial d))
                (choose_the_file_calls e _ H0)) as [H1 H2].
  apply create_the_player_calls; assumption.
Qed.

Lemma FormClose_calls f : calls_ok f -> calls_ok (FormClose f).
Proof.
  intros H. open_form f. split_zero; close_calls H; exact H.
Qed.

Lemma destructor_calls f : calls_ok f -> calls_ok (destructor f).
Proof.
  intros H. open_form f. split_zero; close_calls H; exact H.
Qed.

Lemma destructor_nulls f :
  gpVlcPlayer (destructor f) = 0 /\ gpVlcInst (destructor f) = 0.
Proof.
  open_form f. split_zero; to_props; auto.
Qed.

Lemma destructor_of_nulls f :
  gpVlcPlayer f = 0 -> gpVlcInst f = 0 -> destructor f = f.
Proof. intros H1 H2. open_form f. subst. reflexivity. Qed.

(** ** The track list *)

Lemma read_the_tracks_ready e f :
  (forall heap, malloc_tracks e = Some heap ->
                Z.of_nat (length heap) = track_count e) ->
  giVlcAudioTrack f = 0 -> giErr f = 0 ->
  let f' := unless_error (read_the_tracks e) f in
  giErr f' = 0 ->
  giVlcAudioTrack f' = 0
  /\ tracks_ready f'
  /\ (track_description e = [] -> giNumVlcAudioTracks f' <= 1).
Proof.
  intros Hm Ht H0. open_form f. subst.
  change (0 =? 0) with true. cbv beta iota.
  destruct (1 <? track_count e) eqn:E1; cbv beta iota.
  - apply Z.ltb_lt in E1.
    destruct (malloc_tracks e) as [heap|] eqn:Eh; cbv beta iota.
    + specialize (Hm heap eq_refl).
      destruct (track_description e) as [|id rest] eqn:Ed; cbv beta iota.
      * intros _. split; [reflexivity|]. split; [intros Hn; lia|].
        intros _. lia.
      * intros _. split; [reflexivity|]. split; [|discriminate].
        intros Hn. eexists.
        split; [reflexivity|]. split; [|lia].
        pose proof (read_track_ids_eq (size_t_cells e) (track_count e) heap
                      (id :: rest) Hm) as Eq.
        unfold read_track_ids in Eq. rewrite Eq.
        rewrite length_app, length_take, length_drop,
          memset_size_t_length. lia.
    + unfold ERROR_FSPLAYER_MEM. intros; lia.
  - apply Z.ltb_ge in E1. intros _. split; [reflexivity|].
    split; [intros Hn; lia|]. intros _. lia.
Qed.

Lemma last_blocks_tracks e f :
  giErr f = 0 ->
  let f' := report_error (unless_error (show_and_play e) f) in
  giNumVlcAudioTracks f' = giNumVlcAudioTracks f
  /\ gpVlcAudioTrackId f' = gpVlcAudioTrackId f
  /\ giVlcAudioTrack f' = giVlcAudioTrack f.
Proof. intros H0. open_form f. subst. simpl. repeat split. Qed.

Lemma before_tracks_quiet e d :
  quiet d (unless_error (play_paused e)
             (unless_error (create_the_player e)
                (unless_error (load_the_engine e)
                   (choose_the_file e (initial d))))).
Proof.
  apply form_unless_error_keeps; [apply play_paused_quiet|].
  apply form_unless_error_keeps; [apply create_the_player_quiet|].
  apply form_unless_error_keeps; [apply load_the_engine_quiet|].
  apply choose_the_file_quiet. repeat split.
Qed.

End FormRuns.

(** X25.  [FormCreate] always returns with [giErr] cleared.  When every
    step succeeded (a file from the command line or the dialog, the
    engine, the medium, the player, a positive length, the memory for
    several tracks) the form is left playing, visible, with the panel
    placed; otherwise it is hidden, the application is asked to terminate,
    one message is shown for the error, and the panel is as designed. *)
Theorem FormCreate_outcome :
  forall (e : Form.env) (d : Form.view),
    Form.giErr (Form.FormCreate e d) = 0
    /\ (Form.start_ok e ->
        Form.giState (Form.FormCreate e d) = Form.FSPLAYER_STATE_PLAYING
        /\ Form.hidden (Form.FormCreate e d) = false
        /\ Form.terminated (Form.FormCreate e d) = false
        /\ Form.message (Form.FormCreate e d) = None
        /\ Form.rrView (Form.FormCreate e d)
           = Form.place_view (Form.iScrX e) (Form.iScrY e) (Form.iVidX e)
               (Form.iVidY e))
    /\ (~ Form.start_ok e ->
        Form.giState (Form.FormCreate e d) = 0
        /\ Form.hidden (Form.FormCreate e d) = true
        /\ Form.terminated (Form.FormCreate e d) = true
        /\ (exists code,
               Form.message (Form.FormCreate e d) = Some code /\ code <> 0)
        /\ Form.rrView (Form.FormCreate e d) = d).
Proof.
  intros e d. rewrite FormRuns.FormCreate_eq.
  pose proof (FormRuns.before_show_quiet e d) as Hq.
  pose proof (FormRuns.before_show_iff e d) as Hiff.
  destruct (Z.eq_dec (Form.giErr (Form.before_show e d)) 0) as [H0|Hn].
  - destruct (FormRuns.last_blocks_started e d _ Hq H0)
      as (E & S & Hh & Ht & Hm & Hv).
    split; [exact E|]. split.
    + intros _. do 4 (split; [assumption|]). exact Hv.
    + intros Hno. exfalso. apply Hno, Hiff, H0.
  - destruct (FormRuns.last_blocks_left e d _ Hq Hn)
      as (E & S & Hh & Ht & Hm & Hv).
    split; [exact E|]. split.
    + intros Hok. exfalso. apply Hn, Hiff, Hok.
    + intros _. do 3 (split; [assumption|]).
      split; [|exact Hv]. eexists. split; [exact Hm | exact Hn].
Qed.

Lemma FormCreate_outcome_witness :
  (Form.giState (Form.FormCreate form_plays_film designed_view)
   = Form.FSPLAYER_STATE_PLAYING
   /\ Form.hidden (Form.FormCreate form_plays_film designed_view) = false)
  /\ (Form.giState (Form.FormCreate form_without_file designed_view) = 0
      /\ Form.hidden (Form.FormCreate form_without_file designed_view)
         = true).
Proof.
  split.
  - destruct (proj1 (proj2 (FormCreate_outcome form_plays_film
                              designed_view)))
      as (S & Hh & _).
    + unfold Form.start_ok. simpl.
      split; [left; split; reflexivity|].
      repeat split; try lia; try discriminate.
    + split; [exact S | exact Hh].
  - destruct (proj2 (proj2 (FormCreate_outcome form_without_file
                              designed_view)))
      as (S & Hh & _).
    + unfold Form.start_ok. simpl. intros [[[H _] | H] _]; discriminate.
    + split; [exact S | exact Hh].
Defined.

(** X26.  When [malloc] hands out the block it was asked for, a form that
    [FormCreate] leaves playing with more than one audio track has a track
    array of exactly that many cells and the cursor on its first cell: what
    the handler of the keypad [*] relies on.  Without a description list
    the count is at most 1, so that the key does nothing. *)
Theorem FormCreate_tracks_ready :
  forall (e : Form.env) (d : Form.view),
    (forall heap, Form.malloc_tracks e = Some heap ->
                  Z.of_nat (length heap) = Form.track_count e) ->
    Form.giState (Form.FormCreate e d) = Form.FSPLAYER_STATE_PLAYING ->
    Form.tracks_ready (Form.FormCreate e d)
    /\ (Form.track_description e = [] ->
        Form.giNumVlcAudioTracks (Form.FormCreate e d) <= 1).
Proof.
  intros e d Hm. rewrite FormRuns.FormCreate_eq.
  pose proof (FormRuns.before_show_quiet e d) as Hq.
  destruct (Z.eq_dec (Form.giErr (Form.before_show e d)) 0) as [H0|Hn].
  - intros _.
    destruct (FormRuns.last_blocks_tracks e _ H0) as (En & Ea & Et).
    unfold Form.tracks_ready. rewrite En, Ea, Et. clear En Ea Et.
    unfold Form.before_show in *.
    pose proof (FormRuns.before_tracks_quiet e d) as (_ & Htrk & _).
    pose proof (proj1 (proj1 (FormRuns.form_read_the_tracks_iff e _) H0)) as H4.
    destruct (FormRuns.read_the_tracks_ready e _ Hm Htrk H4 H0)
      as (_ & Hr & Hd).
    split; [exact Hr | exact Hd].
  - destruct (FormRuns.last_blocks_left e d _ Hq Hn) as (_ & S & _).
    rewrite S. unfold Form.FSPLAYER_STATE_PLAYING. discriminate.
Qed.

Lemma FormCreate_tracks_ready_witness :
  Form.tracks_ready (Form.FormCreate form_plays_film designed_view).
Proof.
  apply (FormCreate_tracks_ready form_plays_film designed_view).
  - intros heap [= <-]. reflexivity.
  - reflexivity.
Defined.

(** X27.  Whatever [FormCreate] was answered, creating the form, closing
    it and destroying it only ever calls the engine on handles that are
    not null and frees nothing (the track array is never given back); the
    destructor leaves both handles null, and running it again changes
    nothing. *)
Theorem form_life_cycle :
  forall (e : Form.env) (d : Form.view),
    let f := Form.destructor (Form.FormClose (Form.FormCreate e d)) in
    Form.calls_ok f
    /\ Form.gpVlcPlayer f = 0
    /\ Form.gpVlcInst f = 0
    /\ Form.destructor f = f.
Proof.
  intros e d f. subst f.
  destruct (FormRuns.destructor_nulls
              (Form.FormClose (Form.FormCreate e d))) as [Hp Hi].
  split.
  - apply FormRuns.destructor_calls, FormRuns.FormClose_calls,
      FormRuns.FormCreate_calls.
  - split; [exact Hp|]. split; [exact Hi|].
    apply FormRuns.destructor_of_nulls; assumption.
Qed.

(** * The placement at the end of the start-up *)

Lemma SetWindowFullscreen_other srv w wMaster wRoot scrx scry m :
  m <> w -> m <> wMaster ->
  x_wins (SetWindowFullscreen srv w wMaster wRoot scrx scry) !! m
  = x_wins srv !! m.
Proof.
  intros Hw Hm. unfold SetWindowFullscreen. cbv zeta.
  destruct (match XTranslateCoordinates
                    (fullscreen_requests srv w wRoot scrx scry) w with
            | Some xy => xy
            | None => (0, 0)
            end) as [x y].
  destruct (lookup_move_decorations_out
              (fullscreen_requests srv w wRoot scrx scry) wMaster x y m)
    as (x' & y' & E).
  rewrite E, lookup_fullscreen_requests.
  destruct (decide (wMaster = m)); [congruence|].
  destruct (decide (w = m)); [congruence | reflexivity].
Qed.

Lemma SetWindowFullscreen_size srv w wMaster wRoot scrx scry r :
  x_wins srv !! w = Some r ->
  exists r',
    x_wins (SetWindowFullscreen srv w wMaster wRoot scrx scry) !! w
    = Some r'
    /\ a_width (w_attr r') = scrx /\ a_height (w_attr r') = scry.
Proof.
  intros Hr. unfold SetWindowFullscreen. cbv zeta.
  destruct (match XTranslateCoordinates
                    (fullscreen_requests srv w wRoot scrx scry) w with
            | Some xy => xy
            | None => (0, 0)
            end) as [x y].
  destruct (lookup_move_decorations_out
              (fullscreen_requests srv w wRoot scrx scry) wMaster x y w)
    as (x' & y' & E).
  rewrite E, lookup_fullscreen_requests.
  destruct (decide (w = w)); [|congruence]. rewrite Hr.
  destruct (decide (wMaster = w)); eexists; (split; [reflexivity|]);
    simpl; auto.
Qed.

Lemma PositionWindow_other srv w k scrx scry m :
  m <> w ->
  x_wins (PositionWindow srv w k scrx scry) !! m = x_wins srv !! m.
Proof.
  intros Hm. unfold PositionWindow.
  destruct (XGetGeometry srv w) as [[[[[x y] wd] ht] b]|]; [|reflexivity].
  destruct ((wd <? scrx) && (ht <? scry)); [|reflexivity].
  unfold XMoveWindow. rewrite lookup_update_win.
  destruct (decide (w = m)); [congruence | reflexivity].
Qed.

Lemma PositionWindow_centre srv w scrx scry r :
  x_wins srv !! w = Some r ->
  0 <= a_width (w_attr r) < scrx -> scrx < 2 ^ 31 ->
  0 <= a_height (w_attr r) < scry -> scry < 2 ^ 31 ->
  x_wins (PositionWindow srv w 5 scrx scry) !! w
  = Some (set_attr r
            (move_attr ((scrx - a_width (w_attr r)) / 2)
               ((scry - a_height (w_attr r)) / 2) (w_attr r))).
Proof.
  intros Hw Hwd Hsx Hht Hsy. unfold PositionWindow, XGetGeometry.
  rewrite Hw. cbv zeta.
  replace ((a_width (w_attr r) <? scrx) && (a_height (w_attr r) <? scry))
    with true
    by (symmetry; apply andb_true_intro; split; apply Z.ltb_lt; lia).
  change ((5 =? 1) || (5 =? 4) || (5 =? 7)) with false.
  change ((5 =? 3) || (5 =? 6) || (5 =? 9)) with false.
  change ((5 =? 7) || (5 =? 8) || (5 =? 9)) with false.
  change ((5 =? 1) || (5 =? 2) || (5 =? 3)) with false.
  cbv iota. rewrite !to_int_half by lia.
  unfold XMoveWindow. rewrite lookup_update_win.
  destruct (decide (w = w)); [|congruence]. rewrite Hw. reflexivity.
Qed.

(** X28.  At the end of the start-up, on a hierarchy of distinct windows
    where the input window lies below a child of the root, the placement
    is carried out and finds that child as the master of the input window.
    For a video at least as wide or as high as the screen, the engine's
    window gets the size of the screen.  For a smaller video the input
    window, which is black, gets the size of the screen, and the master of
    the engine's window, when it is a window of its own and smaller than
    the screen, keeps its size and is centred on the screen to the pixel. *)
Theorem place_windows_result :
  forall (fuel : nat) (srv : xserver) (t s : wtree) (p : Z)
         (wInput wVlc wMaster wRoot vidx vidy scrx scry : Z),
    represents srv p t ->
    tree_id t = x_root srv ->
    List.NoDup (tree_ids t) ->
    In s (tree_subs t) ->
    In wInput (tree_ids s) ->
    (depth t <= fuel)%nat ->
    exists srv',
      place_windows fuel srv wInput wVlc wMaster wRoot vidx vidy scrx scry
      = Some (srv', tree_id s)
      /\ (scrx <= vidx \/ scry <= vidy ->
          forall r, x_wins srv !! wVlc = Some r ->
                    exists r',
                      x_wins srv' !! wVlc = Some r'
                      /\ a_width (w_attr r') = scrx
                      /\ a_height (w_attr r') = scry)
      /\ (vidx < scrx -> vidy < scry ->
          (forall r, x_wins srv !! wInput = Some r -> wInput <> wMaster ->
                     exists r',
                       x_wins srv' !! wInput = Some r'
                       /\ a_width (w_attr r') = scrx
                       /\ a_height (w_attr r') = scry)
          /\ (forall r,
                 x_wins srv !! wMaster = Some r ->
                 wMaster <> wInput -> wMaster <> tree_id s ->
                 0 <= a_width (w_attr r) < scrx -> scrx < 2 ^ 31 ->
                 0 <= a_height (w_attr r) < scry -> scry < 2 ^ 31 ->
                 x_wins srv' !! wMaster
                 = Some (set_attr r
                           (move_attr ((scrx - a_width (w_attr r)) / 2)
                              ((scry - a_height (w_attr r)) / 2)
                              (w_attr r))))).
Proof.
  intros fuel srv t s p wInput wVlc wMaster wRoot vidx vidy scrx scry
    Hrep Hid Hnd Hs Hin Hfuel.
  pose proof (FindMaster_in_root_child srv t s p fuel wInput
                Hrep Hid Hnd Hs Hin Hfuel) as Hm.
  unfold place_windows. rewrite Hm.
  eexists. split; [reflexivity|]. split.
  - intros Hbig r Hr.
    assert (E : (scrx <=? vidx) || (scry <=? vidy) = true)
      by (apply orb_true_iff; rewrite !Z.leb_le; exact Hbig).
    rewrite E.
    apply SetWindowFullscreen_size with (r := r). exact Hr.
  - intros Hx Hy.
    assert (E : (scrx <=? vidx) || (scry <=? vidy) = false)
      by (apply orb_false_iff; rewrite !Z.leb_gt; split; assumption).
    rewrite E. split.
    + intros r Hr Hne. rewrite PositionWindow_other by exact Hne.
      apply SetWindowFullscreen_size with (r := r). exact Hr.
    + intros r Hr Hne1 Hne2 Hwd Hsx Hht Hsy.
      apply PositionWindow_centre; try assumption.
      rewrite SetWindowFullscreen_other by assumption. exact Hr.
Qed.

Lemma place_windows_result_witness :
  exists srv',
    place_windows 3 Examples.desktop 3 4 2 1 640 480 1920 1080
    = Some (srv', 3)
    /\ exists r',
         x_wins srv' !! 3 = Some r'
         /\ a_width (w_attr r') = 1920 /\ a_height (w_attr r') = 1080.
Proof.
  destruct (place_windows_result 3 Examples.desktop Examples.desktop_tree
              (WNode 3 [] []) 0 3 4 2 1 640 480 1920 1080)
    as (srv' & Hp & _ & Hsmall).
  - vm_compute. repeat split.
  - reflexivity.
  - simpl. repeat (constructor; [simpl; intuition lia|]). constructor.
  - simpl. auto.
  - simpl. auto.
  - simpl. lia.
  - exists srv'. split; [exact Hp|].
    destruct Hsmall as [Hin _]; [lia | lia |].
    apply (Hin {| w_parent := 1; w_children := [];
                  w_attr := Examples.attr 0 1050 1920 30 0 true IsViewable;
                  w_props := Examples.named "panel" |}).
    + vm_compute. reflexivity.
    + lia.
Defined.

(** * Events that are pending when the loop is stopped *)

Lemma on_key_when_stopped ses k s :
  on_key ses k (set_running false s)
  = match on_key ses k s with
    | Some s' => Some (set_running false s')
    | None => None
    end.
Proof.
  destruct s as [run err trk x v].
  destruct k; cbn [on_key]; cbv zeta; unfold position; simpl;
    repeat match goal with
           | |- context [if ?b then _ else _] => destruct b
           | |- context [match ?o with Some _ => _ | None => _ end] =>
               destruct o
           end; reflexivity.
Qed.

Lemma on_event_when_stopped ses ev s :
  on_event ses ev (set_running false s)
  = match on_event ses ev s with
    | Some s' => Some (set_running false s')
    | None => None
    end.
Proof.
  destruct ev as [keycode| |]; simpl.
  - destruct (lookup_key ses keycode); [apply on_key_when_stopped|].
    reflexivity.
  - destruct s; reflexivity.
  - reflexivity.
Qed.

(** X29.  The inner loop never looks at [iRunning]: the events still
    pending once the loop has been stopped (by escape, say) are handled
    exactly as they would be while it runs, with the same requests to the
    engine and to the server, and the loop stays stopped. *)
Theorem drain_when_stopped :
  forall (ses : session) (evs : list XEvent) (s s' : loop_state),
    drain ses evs s = Some s' ->
    drain ses evs (set_running false s) = Some (set_running false s')
    /\ V (set_running false s') = V s'
    /\ X (set_running false s') = X s'.
Proof.
  intros ses evs. induction evs as [|ev evs IH]; intros s s' H.
  - injection H as <-. repeat split.
  - cbn [drain] in *. rewrite on_event_when_stopped.
    destruct (on_event ses ev s) as [s1|]; [|discriminate].
    apply IH. exact H.
Qed.

Lemma drain_when_stopped_witness :
  exists s',
    drain Examples.film [KeyPress 65]
      (set_running false (Examples.playing 1000 100)) = Some s'
    /\ v_calls (V s') = [Pause].
Proof.
  destruct (drain_when_stopped Examples.film [KeyPress 65]
              (Examples.playing 1000 100)
              (set_V (libvlc_media_player_pause
                        (Examples.engine_at 1000 100))
                     (Examples.playing 1000 100)) eq_refl)
    as (H & _ & _).
  eexists. split; [exact H | reflexivity].
Defined.
